(** * NMOS testing tool: the generic API crawler and the IS-07-02 suite

    A shallow embedding of [GenericTest.py] (resource crawler, identifier
    cache, response validation) and of [nmostesting/suites/IS0702Test.py]
    (ext parameter check, WebSocket heartbeat check, pre-timeout window),
    followed by the properties established about them.

    Conventions.  Python [str] values are [string]; a Python [dict] that is
    only looked up is a [gmap]; a [dict] or list that is iterated in order is
    a list.  A function that can raise returns [exc]; a method that mutates
    [self] takes and returns the mutated fields. *)

From Stdlib Require Import ZArith QArith Ascii String List Bool Lia.
From stdpp Require Import base option list gmap strings pretty sorting.

Set Warnings "-register-all".

Local Open Scope string_scope.
Local Open Scope list_scope.

(** ** Python string methods used by the two files *)

Module PyStr.

(** [s.startswith(p)] *)
Definition startswith (p s : string) : bool := String.prefix p s.

(** [s.endswith(suf)] *)
Fixpoint endswith (suf s : string) : bool :=
  match s with
  | EmptyString => String.eqb suf EmptyString
  | String _ s' => String.eqb s suf || endswith suf s'
  end.

(** [sub in s] for two strings *)
Fixpoint contains (sub s : string) : bool :=
  String.prefix sub s ||
  match s with
  | EmptyString => false
  | String _ s' => contains sub s'
  end.

Definition is_empty (s : string) : bool :=
  match s with EmptyString => true | _ => false end.

Definition mem_char (c : ascii) (chars : string) : bool :=
  existsb (Ascii.eqb c) (list_ascii_of_string chars).

(** [s.rstrip(chars)]: drops the longest suffix made of characters of
    [chars]. *)
Fixpoint rstrip (chars s : string) : string :=
  match s with
  | EmptyString => EmptyString
  | String c s' =>
      let t := rstrip chars s' in
      if is_empty t && mem_char c chars then EmptyString else String c t
  end.

(** [s.split(sep)] for a separator of one character. *)
Fixpoint split (sep : ascii) (s : string) : list string :=
  match s with
  | EmptyString => [EmptyString]
  | String c s' =>
      if Ascii.eqb c sep then EmptyString :: split sep s'
      else match split sep s' with
           | h :: t => String c h :: t
           | [] => [String c EmptyString]
           end
  end.

(** [s.replace(old, new)] for a non-empty [old]: occurrences are replaced
    left to right, without overlap.  [skip] counts the characters of an
    occurrence that are still to be dropped. *)
Fixpoint replace_from (old new : string) (skip : nat) (s : string) : string :=
  match s with
  | EmptyString => EmptyString
  | String c s' =>
      match skip with
      | S k => replace_from old new k s'
      | O =>
          if String.prefix old s
          then new +:+ replace_from old new (Nat.pred (String.length old)) s'
          else String c (replace_from old new O s')
      end
  end.

Definition replace (old new s : string) : string := replace_from old new O s.

Definition upper_char (c : ascii) : ascii :=
  let n := nat_of_ascii c in
  if (97 <=? n)%nat && (n <=? 122)%nat then ascii_of_nat (n - 32) else c.

Definition lower_char (c : ascii) : ascii :=
  let n := nat_of_ascii c in
  if (65 <=? n)%nat && (n <=? 90)%nat then ascii_of_nat (n + 32) else c.

Fixpoint map_chars (f : ascii -> ascii) (s : string) : string :=
  match s with
  | EmptyString => EmptyString
  | String c s' => String (f c) (map_chars f s')
  end.

(** [s.upper()] and [s.lower()] on ASCII text. *)
Definition upper : string -> string := map_chars upper_char.
Definition lower : string -> string := map_chars lower_char.

(** [str(n)] for an [int]. *)
Definition of_Z (n : Z) : string := pretty n.

End PyStr.

(** ** Decoded JSON documents, as [json.loads] and [response.json()] return
    them *)

Inductive json : Type :=
| JNull
| JBool (b : bool)
| JNum (n : Z)
| JStr (s : string)
| JArr (items : list json)
| JObj (fields : gmap string json).

(** Exceptions that the modelled code can let escape or catches. *)
Inductive exn : Type :=
| KeyError (key : string)
| IndexError
| TypeError
| AttributeError
| RequestException (msg : string)
| LibraryError (msg : string).

Inductive exc (A : Type) : Type :=
| Ok (a : A)
| Raise (e : exn).
Arguments Ok {A} a.
Arguments Raise {A} e.

#[global] Instance exc_ret : MRet exc := fun A a => Ok a.

#[global] Instance exc_bind : MBind exc := fun A B k m =>
  match m with
  | Ok a => k a
  | Raise e => Raise e
  end.

Module Py.

(** [v == s] where [s] is a [str]. *)
Definition eq_str (v : json) (s : string) : bool :=
  match v with
  | JStr t => String.eqb t s
  | _ => false
  end.

(** [key in v] where [key] is a [str]: key membership for a dict, element
    membership for a list, substring test for a string, [TypeError]
    otherwise. *)
Definition contains (key : string) (v : json) : exc bool :=
  match v with
  | JObj fields => Ok (bool_decide (is_Some (fields !! key)))
  | JArr items => Ok (existsb (fun x => eq_str x key) items)
  | JStr s => Ok (PyStr.contains key s)
  | _ => Raise TypeError
  end.

(** [v[key]] where [key] is a [str]. *)
Definition getitem (v : json) (key : string) : exc json :=
  match v with
  | JObj fields =>
      match fields !! key with
      | Some x => Ok x
      | None => Raise (KeyError key)
      end
  | _ => Raise TypeError
  end.

(** [v.keys()]; the order of the keys of a [gmap] is not the insertion
    order of the dictionary, and the callers sort the list. *)
Definition keys (v : json) : exc (list string) :=
  match v with
  | JObj fields => Ok (map_to_list fields).*1
  | _ => Raise AttributeError
  end.

(** [len(v)] *)
Definition len (v : json) : exc nat :=
  match v with
  | JObj fields => Ok (size fields)
  | JArr items => Ok (length items)
  | JStr s => Ok (String.length s)
  | _ => Raise TypeError
  end.

(** [isinstance(v, dict)] *)
Definition is_dict (v : json) : bool :=
  match v with
  | JObj _ => true
  | _ => false
  end.

(** [v[0]] *)
Definition first (v : json) : exc json :=
  match v with
  | JArr (x :: _) => Ok x
  | JArr [] => Raise IndexError
  | JStr (String c _) => Ok (JStr (String c EmptyString))
  | JStr EmptyString => Raise IndexError
  | JObj fields => Raise (KeyError "0")
  | _ => Raise TypeError
  end.

End Py.

(** ** Test outcomes ([TestResult.Test]) *)

Inductive verdict : Type :=
| Pass | Fail | Warning | NotApplicable | Unclear | Manual.

Record outcome : Type := Outcome {
  name : string;
  state : verdict;
  detail : string
}.

(** [Test(name)] is represented by its name; the methods build the outcome. *)
Module Test.
Definition PASS (test : string) : outcome := Outcome test Pass "".
Definition FAIL (test detail : string) : outcome := Outcome test Fail detail.
Definition NA (test detail : string) : outcome := Outcome test NotApplicable detail.
Definition MANUAL (test detail : string) : outcome := Outcome test Manual detail.
Definition UNCLEAR (test detail : string) : outcome := Outcome test Unclear detail.
End Test.

(** ** HTTP responses as [requests] presents them *)

(** [response.headers] is a case-insensitive dictionary: the items are kept
    in arrival order and a key is looked up by its lower-case form. *)
Definition header_map : Type := list (string * string).

Record response : Type := Response {
  status_code : Z;
  headers : header_map;
  (** [response.json()]: [None] when decoding raises [JSONDecodeError]. *)
  body : option json
}.

Module Headers.

Definition same_key (k : string) (item : string * string) : bool :=
  String.eqb (PyStr.lower k) (PyStr.lower (fst item)).

(** [key in headers] *)
Definition mem (k : string) (h : header_map) : bool := existsb (same_key k) h.

(** [headers[key]] *)
Definition get (k : string) (h : header_map) : exc string :=
  match find (same_key k) h with
  | Some item => Ok (snd item)
  | None => Raise (KeyError (PyStr.lower k))
  end.

Definition squote : ascii := "'"%char.
Definition dquote : ascii := ascii_of_nat 34.
Definition backslash : ascii := ascii_of_nat 92.

Definition has_char (c : ascii) (s : string) : bool := PyStr.mem_char c s.

Fixpoint escape (q : ascii) (s : string) : string :=
  match s with
  | EmptyString => EmptyString
  | String c s' =>
      if Ascii.eqb c q || Ascii.eqb c backslash
      then String backslash (String c (escape q s'))
      else if Ascii.eqb c (ascii_of_nat 10) then String backslash (String "n" (escape q s'))
      else if Ascii.eqb c (ascii_of_nat 13) then String backslash (String "r" (escape q s'))
      else if Ascii.eqb c (ascii_of_nat 9) then String backslash (String "t" (escape q s'))
      else String c (escape q s')
  end.

(** [repr(s)] for a [str] of printable ASCII text: single quotes, unless
    the text has a single quote and no double quote. *)
Definition repr (s : string) : string :=
  let q := if has_char squote s && negb (has_char dquote s) then dquote else squote in
  String q (escape q s +:+ String q EmptyString).

Definition repr_item (item : string * string) : string :=
  repr (fst item) +:+ ": " +:+ repr (snd item).

Fixpoint join (sep : string) (l : list string) : string :=
  match l with
  | [] => EmptyString
  | [x] => x
  | x :: rest => x +:+ sep +:+ join sep rest
  end.

(** [str(headers)], which prints the items as a [dict]. *)
Definition to_str (h : header_map) : string :=
  "{" +:+ join ", " (map repr_item h) +:+ "}".

End Headers.


(** ** [GenericTest]: definitions *)

Module GenericTest.

(** A declared endpoint.  [res_path] is [resource[0]], the path template;
    the other fields are the entries of [resource[1]].  [res_params] holds
    the parameter names ([p.name]); a falsy [params] is the empty list. *)
Record resource : Type := Resource {
  res_path : string;
  res_method : string;
  res_params : list string;
  res_responses : list Z
}.

(** What the network gives back for one request. *)
Inductive http_reply : Type :=
| Replied (r : response)
| Timeout
| TooManyRedirects
| RequestFailed (msg : string).

(** What [jsonschema.validate] does with a decoded body. *)
Inductive validation : Type :=
| Valid
| ValidationError (diagnostic : string)
| SchemaFault (e : exn).

(** What the crawl does with identifiers: [Substituted t e] when [e] is put
    into the template [t], [Harvested p r] when the response [r] is handed to
    [save_subresources] for the path [p]. *)
Inductive event : Type :=
| Substituted (template : string) (entity : json)
| Harvested (path : string) (r : response).

(** [prepare_CORS] *)
Definition prepare_CORS (method : string) : list (string * string) :=
  [("Access-Control-Request-Method", method);
   ("Access-Control-Request-Headers", "Content-Type")].

(** [validate_CORS].  The last two tests read two different keys, as the
    source does. *)
Definition validate_CORS (method : string) (r : response) : exc bool :=
  if negb (Headers.mem "Access-Control-Allow-Origin" (headers r)) then Ok false
  else if existsb (String.eqb method) ["OPTIONS"; "POST"; "PUT"; "PATCH"; "DELETE"] then
    if negb (Headers.mem "Access-Control-Allow-Headers" (headers r)) then Ok false
    else
      allowed_headers ← Headers.get "Access-Control-Allow-Headers" (headers r);
      if negb (PyStr.contains method allowed_headers) then Ok false
      else if negb (Headers.mem "Access-Control-Allow-Method" (headers r)) then Ok false
      else
        allowed_methods ← Headers.get "Access-Control-Allow-Methods" (headers r);
        if negb (PyStr.contains method allowed_methods) then Ok false
        else Ok true
  else Ok true.

(** The loop of [save_subresources] over the entries of a list body. *)
Definition harvest_entry (subresources : list json) (entry : json) : list json :=
  match entry with
  | JObj fields =>
      match fields !! "id" with
      | Some v => subresources ++ [v]
      | None => subresources
      end
  | JStr s =>
      if PyStr.endswith "/" s
      then subresources ++ [JStr (PyStr.rstrip "/" s)]
      else subresources
  | _ => subresources
  end.

Definition harvest (r : response) : list json :=
  match body r with
  | Some (JArr entries) => fold_left harvest_entry entries []
  | _ => []
  end.

(** [save_subresources], on the [saved_entities] field. *)
Definition save_subresources (saved_entities : gmap string (list json))
    (path : string) (r : response) : gmap string (list json) :=
  let subresources := harvest r in
  if (0 <? length subresources)%nat then
    match saved_entities !! path with
    | None => <[path := subresources]> saved_entities
    | Some ids => <[path := ids ++ subresources]> saved_entities
    end
  else saved_entities.

(** The loop of [check_api_resource] over [resource[0].split("/")]. *)
Fixpoint join_parts (parts : list string) (path : string) : string :=
  match parts with
  | [] => path
  | part :: rest =>
      if PyStr.startswith "{" part then path
      else join_parts rest (if PyStr.is_empty part then path else path +:+ "/" +:+ part)
  end.

Definition collection_path (template : string) : string :=
  join_parts (PyStr.split "/" template) "".

(** *** Notions used to state the properties of the crawler *)

(** What one entry of a list body contributes, in the words of the
    specification: the [id] of an object that has one, a string that ends
    with the separator without that ending, nothing otherwise. *)
Definition contribution (entry : json) : list json :=
  match entry with
  | JObj fields =>
      match fields !! "id" with
      | Some v => [v]
      | None => []
      end
  | JStr s => if PyStr.endswith "/" s then [JStr (PyStr.rstrip "/" s)] else []
  | _ => []
  end.

Definition harvest_spec (entries : list json) : list json := flat_map contribution entries.

(** A run of [n] separators. *)
Fixpoint slashes (n : nat) : string :=
  match n with
  | O => EmptyString
  | S k => String "/" (slashes k)
  end.

(** Every cache entry holds at least one identifier. *)
Definition nonempty_entries (saved : gmap string (list json)) : Prop :=
  forall path ids, saved !! path = Some ids -> ids <> [].

(** Every identifier of the cache was harvested from a response recorded in
    [evs] for the path it is filed under. *)
Definition traced (evs : list event) (saved : gmap string (list json)) : Prop :=
  forall path ids e, saved !! path = Some ids -> e ∈ ids ->
    exists j r, evs !! j = Some (Harvested path r) /\ e ∈ harvest r.

(** Every substitution recorded in [evs] uses an identifier contributed by
    the list body of an earlier response for the template's collection
    path. *)
Definition justified (evs : list event) : Prop :=
  forall i template e, evs !! i = Some (Substituted template e) ->
    exists j r entries,
      (j < i)%nat /\ evs !! j = Some (Harvested (collection_path template) r) /\
      body r = Some (JArr entries) /\ e ∈ harvest_spec entries.

(** The methods for which [validate_CORS] asks for more than the origin
    header. *)
Definition mutating (method : string) : bool :=
  existsb (String.eqb method) ["OPTIONS"; "POST"; "PUT"; "PATCH"; "DELETE"].

(** A message names a header when the header's name occurs in it, in any
    letter case. *)
Definition names_header (header message : string) : bool :=
  PyStr.contains (PyStr.lower header) (PyStr.lower message).

Section Crawler.

Context {World Schema : Type}.

(** The implementation under test, seen through [requests]. *)
Variable send : World -> string -> string -> World * http_reply.
(** [jsonschema.validate] with the resolver of the schema directory. *)
Variable validate : json -> Schema -> validation.
(** [self.base_url] and [self.test_version] *)
Variables base_url test_version : string.

(** [Specification] is not part of the crawler: an API brings its declared
    reads and its schema table. *)
Record Specification : Type := {
  get_reads : list resource;
  get_schema : string -> string -> Z -> option Schema
}.

Record api : Type := Api {
  api_url : string;
  api_spec : Specification
}.

(** The fields of [self] that the crawl changes. *)
Record crawler : Type := Crawler {
  world : World;
  saved_entities : gmap string (list json)
}.

(** [do_request]: [inl r] is [(True, r)], [inr msg] is [(False, msg)]. *)
Definition do_request (w : World) (method url : string) : World * (response + string) :=
  let '(w', reply) := send w method url in
  (w', match reply with
       | Replied r => inl r
       | Timeout => inr "Connection timeout"
       | TooManyRedirects => inr "Too many redirects"
       | RequestFailed msg => inr msg
       end).

(** [check_base_path]; [requests.get] is not guarded there. *)
Definition check_base_path (w : World) (path expectation : string) : World * exc outcome :=
  let test := "GET " +:+ path in
  let '(w', reply) := send w "GET" (base_url +:+ path) in
  (w', match reply with
       | Replied req =>
           if negb (status_code req =? 200)%Z
           then Ok (Test.FAIL test ("Incorrect response code: " +:+ PyStr.of_Z (status_code req)))
           else
             cors ← validate_CORS "GET" req;
             if negb cors
             then Ok (Test.FAIL test ("Incorrect CORS headers: " +:+ Headers.to_str (headers req)))
             else match body req with
                  | None => Ok (Test.FAIL test "Non-JSON response returned")
                  | Some (JArr items) =>
                      if existsb (fun x => Py.eq_str x expectation) items
                      then Ok (Test.PASS test)
                      else Ok (Test.FAIL test ("Response is not an array containing '" +:+ expectation +:+ "'"))
                  | Some _ =>
                      Ok (Test.FAIL test ("Response is not an array containing '" +:+ expectation +:+ "'"))
                  end
       | Timeout => Raise (RequestException "Connection timeout")
       | TooManyRedirects => Raise (RequestException "Too many redirects")
       | RequestFailed msg => Raise (RequestException msg)
       end).

(** [check_response] *)
Definition check_response (test : string) (a : api) (method path : string)
    (r : response) : exc outcome :=
  cors ← validate_CORS method r;
  if negb cors
  then Ok (Test.FAIL test ("Incorrect CORS headers: " +:+ Headers.to_str (headers r)))
  else
    match get_schema (api_spec a) method path (status_code r) with
    | Some schema =>
        match body r with
        | None => Ok (Test.FAIL test "Invalid JSON received")
        | Some document =>
            match validate document schema with
            | Valid => Ok (Test.PASS test)
            | ValidationError _ => Ok (Test.FAIL test "Response schema validation error")
            | SchemaFault e => Raise e
            end
        end
    | None => Ok (Test.MANUAL test "Test suite unable to locate schema")
    end.

(** The name given to [Test(...)] in [check_api_resource]. *)
Definition test_name (res : resource) (api_name url_param : string) : string :=
  PyStr.upper (res_method res) +:+ " /x-nmos/" +:+ api_name +:+ "/" +:+ test_version +:+ url_param.

(** The first half of [check_api_resource]: either the request to make, or
    the value returned without a request. *)
Inductive prepared : Type :=
| Request (url test : string) (picked : list event)
| Return (result : exc (option outcome)).

Definition prepare (saved : gmap string (list json)) (res : resource)
    (api_name : string) (a : api) : prepared :=
  match res_params res with
  | [param] =>
      let path := collection_path (res_path res) in
      match saved !! path with
      | Some ids =>
          match ids with
          | entity :: _ =>
              match entity with
              | JStr id =>
                  let url_param := PyStr.replace ("{" +:+ param +:+ "}") id (res_path res) in
                  Request (PyStr.rstrip "/" (api_url a) +:+ url_param)
                          (test_name res api_name url_param)
                          [Substituted (res_path res) entity]
              | _ => Return (Raise TypeError)
              end
          | [] => Return (Raise IndexError)
          end
      | None =>
          Return (Ok (Some (Test.NA (test_name res api_name (res_path res))
                                    "No resources found to perform this test")))
      end
  | [] =>
      Request (PyStr.rstrip "/" (api_url a) +:+ res_path res)
              (test_name res api_name (res_path res)) []
  | _ => Return (Ok None)
  end.

(** [check_api_resource] *)
Definition check_api_resource (c : crawler) (res : resource) (response_code : Z)
    (api_name : string) (a : api) : crawler * list event * exc (option outcome) :=
  match prepare (saved_entities c) res api_name a with
  | Return result => (c, [], result)
  | Request url test picked =>
      let '(w', reply) := do_request (world c) (res_method res) url in
      match reply with
      | inr msg => (Crawler w' (saved_entities c), picked, Ok (Some (Test.FAIL test msg)))
      | inl r =>
          if negb (status_code r =? response_code)%Z
          then (Crawler w' (saved_entities c), picked,
                Ok (Some (Test.FAIL test ("Incorrect response code: " +:+ PyStr.of_Z (status_code r)))))
          else
            (Crawler w' (save_subresources (saved_entities c) (res_path res) r),
             picked ++ [Harvested (res_path res) r],
             result ← check_response test a (res_method res) (res_path res) r; Ok (Some result))
      end
  end.

(** The loops of [basics], innermost first.  An exception ends the crawl. *)
Fixpoint check_codes (c : crawler) (res : resource) (codes : list Z)
    (api_name : string) (a : api) : crawler * list event * exc (list outcome) :=
  match codes with
  | [] => (c, [], Ok [])
  | response_code :: rest =>
      if (response_code =? 200)%Z then
        let '(c1, ev1, r) := check_api_resource c res response_code api_name a in
        match r with
        | Raise e => (c1, ev1, Raise e)
        | Ok result =>
            let '(c2, ev2, rs) := check_codes c1 res rest api_name a in
            (c2, ev1 ++ ev2, results ← rs; Ok (option_list result ++ results))
        end
      else check_codes c res rest api_name a
  end.

Fixpoint check_reads (c : crawler) (reads : list resource)
    (api_name : string) (a : api) : crawler * list event * exc (list outcome) :=
  match reads with
  | [] => (c, [], Ok [])
  | res :: rest =>
      let '(c1, ev1, r) := check_codes c res (res_responses res) api_name a in
      match r with
      | Raise e => (c1, ev1, Raise e)
      | Ok results1 =>
          let '(c2, ev2, rs) := check_reads c1 rest api_name a in
          (c2, ev1 ++ ev2, results2 ← rs; Ok (results1 ++ results2))
      end
  end.

(** The three base path checks made for every API. *)
Definition check_base_paths (w : World) (api_name : string) : World * exc (list outcome) :=
  let '(w1, r1) := check_base_path w "/" "x-nmos/" in
  match r1 with
  | Raise e => (w1, Raise e)
  | Ok o1 =>
      let '(w2, r2) := check_base_path w1 "/x-nmos" (api_name +:+ "/") in
      match r2 with
      | Raise e => (w2, Raise e)
      | Ok o2 =>
          let '(w3, r3) := check_base_path w2 ("/x-nmos/" +:+ api_name) (test_version +:+ "/") in
          (w3, o3 ← r3; Ok [o1; o2; o3])
      end
  end.

(** [basics] over [self.apis], a dictionary iterated in insertion order. *)
Fixpoint basics_from (c : crawler) (apis : list (string * api))
    : crawler * list event * exc (list outcome) :=
  match apis with
  | [] => (c, [], Ok [])
  | (api_name, a) :: rest =>
      let '(w1, r0) := check_base_paths (world c) api_name in
      let c0 := Crawler w1 (saved_entities c) in
      match r0 with
      | Raise e => (c0, [], Raise e)
      | Ok results0 =>
          let '(c1, ev1, r) := check_reads c0 (get_reads (api_spec a)) api_name a in
          match r with
          | Raise e => (c1, ev1, Raise e)
          | Ok results1 =>
              let '(c2, ev2, rs) := basics_from c1 rest in
              (c2, ev1 ++ ev2, results2 ← rs; Ok (results0 ++ results1 ++ results2))
          end
      end
  end.

(** [basics] on a fresh object: [__init__] sets [saved_entities] to [{}]. *)
Definition basics (w : World) (apis : list (string * api))
    : crawler * list event * exc (list outcome) :=
  basics_from (Crawler w ∅) apis.

(** The states of the crawler that a run can be in: a fresh object, and
    what [check_api_resource] and the requests of [check_base_path] make of
    a state. *)
Inductive reachable : crawler -> Prop :=
| reach_fresh w : reachable (Crawler w ∅)
| reach_world c w : reachable c -> reachable (Crawler w (saved_entities c))
| reach_check c res response_code api_name a :
    reachable c ->
    reachable (check_api_resource c res response_code api_name a).1.1.

End Crawler.

End GenericTest.


(** ** [IS04Utils]: the version comparison used by the suite *)

Module IS04Utils.

(** Decimal digits to a number. *)
Fixpoint digits (s : string) (acc : N) : option N :=
  match s with
  | EmptyString => Some acc
  | String c s' =>
      match Ascii.is_nat c with
      | Some d => digits s' (10 * acc + N.of_nat d)%N
      | None => None
      end
  end.

(** [int(s)] for an unsigned decimal text. *)
Definition parse_int (s : string) : option N :=
  if PyStr.is_empty s then None else digits s 0%N.

(** [seconds:nanoseconds] *)
Definition parse_version (s : string) : option (N * N) :=
  match PyStr.split ":" s with
  | [secs; nanos] =>
      match parse_int secs, parse_int nanos with
      | Some a, Some b => Some (a, b)
      | _, _ => None
      end
  | _ => None
  end.

(** Modelled from the spec: [IS04Utils.compare_resource_version], which
    [test_04] calls and which is not among the sources.  Versions are TAI
    timestamps written [seconds:nanoseconds]; the result is 1 when the first
    is strictly later, 0 when they are equal and -1 otherwise. *)
Definition compare_resource_version (ver1 : json) (ver2 : string) : exc Z :=
  match ver1 with
  | JStr v1 =>
      match parse_version v1, parse_version ver2 with
      | Some (s1, n1), Some (s2, n2) =>
          Ok (match (s1 ?= s2)%N with
              | Gt => 1
              | Lt => -1
              | Eq => match (n1 ?= n2)%N with
                      | Gt => 1
                      | Lt => -1
                      | Eq => 0
                      end
              end)%Z
      | _, _ => Raise (LibraryError "malformed version")
      end
  | _ => Raise AttributeError
  end.

End IS04Utils.


(** ** [IS0702Test]: definitions *)

Module IS0702Test.

(** Number of seconds expected between heartbeats. *)
Definition WS_HEARTBEAT_INTERVAL : Q := 5.

(** Number of seconds without heartbeats before a sender closes a
    connection. *)
Definition WS_TIMEOUT : Q := 12.

(** [x < y] on clock readings. *)
Definition Qlt_b (x y : Q) : bool := negb (Qle_bool y x).

Definition ext_params_websocket : list string :=
  ["ext_is_07_source_id"; "ext_is_07_rest_api_url"].

Definition ext_params_mqtt : list string := ["ext_is_07_rest_api_url"].

(** [sorted(l)] on strings. *)
Definition sorted (l : list string) : list string := merge_sort String.le l.

(** Lines 97-98 of [test_01]: the names of the first leg's transport
    parameters that start with [ext_]. *)
Definition ext_params (active : json) : exc (list string) :=
  transport_params ← Py.getitem active "transport_params";
  leg ← Py.first transport_params;
  all_params ← Py.keys leg;
  Ok (List.filter (PyStr.startswith "ext_") all_params).

(** Lines 99-105: the value of [valid_params]. *)
Definition valid_params (transport_type : string) (params : list string) : bool :=
  if String.eqb transport_type "urn:x-nmos:transport:websocket"
  then bool_decide (sorted params = sorted ext_params_websocket)
  else if String.eqb transport_type "urn:x-nmos:transport:mqtt"
  then bool_decide (sorted params = sorted ext_params_mqtt)
  else false.

Section SetUp.

(** The collaborators of [set_up_tests] for the Connection API:
    [compare_api_version(version, "v1.1") >= 0], [IS05Utils.get_transporttype]
    for a sender, and what [checkCleanRequestJSON("GET", dest)] returns. *)
Variable at_least_v1_1 : bool.
Variable get_transporttype : string -> string.
Variable checkCleanRequestJSON : string -> bool * json.

(** Lines 75-79 of [set_up_tests]. *)
Definition set_transport_types (is05_senders : list string) : gmap string string :=
  fold_left
    (fun transport_types sender =>
       let transport_type :=
         if at_least_v1_1 then get_transporttype sender else "urn:x-nmos:transport:rtp" in
       <[sender := transport_type]> transport_types)
    is05_senders ∅.

(** Lines 83-87: one pass of the loop that fills [senders_active]. *)
Definition keep_active (senders_active : gmap string json) (sender : string)
    : exc (gmap string json) :=
  let dest := "single/senders/" +:+ sender +:+ "/active" in
  let '(valid, response) := checkCleanRequestJSON dest in
  if valid then
    n ← Py.len response;
    if (0 <? n)%nat then
      transport_params ← Py.getitem response "transport_params";
      leg ← Py.first transport_params;
      if Py.is_dict leg then Ok (<[sender := response]> senders_active)
      else Ok senders_active
    else Ok senders_active
  else Ok senders_active.

(** Lines 81-87. *)
Fixpoint set_senders_active (senders_active : gmap string json)
    (is05_senders : list string) : exc (gmap string json) :=
  match is05_senders with
  | [] => Ok senders_active
  | sender :: rest =>
      senders_active' ← keep_active senders_active sender;
      set_senders_active senders_active' rest
  end.

End SetUp.

(** An entry of [senders_active] whose first leg of transport parameters is
    a dictionary. *)
Definition has_leg (active : json) : Prop :=
  exists transport_params fields,
    Py.getitem active "transport_params" = Ok transport_params /\
    Py.first transport_params = Ok (JObj fields).

(** The ext parameters declared for a transport, as a set. *)
Definition declared_ext_params (transport_type : string) : option (gset string) :=
  if String.eqb transport_type "urn:x-nmos:transport:websocket"
  then Some {[ "ext_is_07_source_id"; "ext_is_07_rest_api_url" ]}
  else if String.eqb transport_type "urn:x-nmos:transport:mqtt"
  then Some {[ "ext_is_07_rest_api_url" ]}
  else None.

(** The names of a leg's transport parameters that start with [ext_], as a
    set. *)
Definition ext_names (fields : gmap string json) : gset string :=
  filter (fun k => PyStr.startswith "ext_" k = true) (dom fields).

Section Test01.

(** [self.senders_active] and [self.transport_types] *)
Variable senders_active : gmap string json.
Variable transport_types : gmap string string.

(** The body of the loop over [self.senders_to_test] for one sender:
    [None] lets the loop go on. *)
Definition check_sender (test sender : string) : exc (option outcome) :=
  match senders_active !! sender with
  | Some active =>
      params ← ext_params active;
      match transport_types !! sender with
      | Some transport_type =>
          if negb (valid_params transport_type params)
          then Ok (Some (Test.FAIL test ("Missing required ext parameters for Sender " +:+ sender)))
          else Ok None
      | None => Raise (KeyError sender)
      end
  | None => Ok (Some (Test.FAIL test ("Sender " +:+ sender +:+ " not found in Connection API")))
  end.

Fixpoint check_senders (test : string) (senders : list string) : exc outcome :=
  match senders with
  | [] => Ok (Test.PASS test)
  | sender :: rest =>
      r ← check_sender test sender;
      match r with
      | Some failure => Ok failure
      | None => check_senders test rest
      end
  end.

(** [test_01]; [senders_to_test] lists the keys of the dictionary in
    iteration order. *)
Definition test_01 (test : string) (senders_to_test : list string) : exc outcome :=
  if (0 <? length senders_to_test)%nat
  then check_senders test senders_to_test
  else Ok (Test.UNCLEAR test "Not tested. No resources found.").

End Test01.

Section Test04.

(** [json.loads] *)
Variable json_loads : string -> exc json.
(** [IS04Utils.compare_resource_version], which is not part of this file:
    1 when the first version is the later one. *)
Variable compare_resource_version : json -> string -> exc Z.
(** [str(v)] and [str(e)] as [format] prints them. *)
Variable py_str : json -> string.
Variable exn_str : exn -> string.

(** Lines 335-366 of [test_04], the body of the [try]: [Ok None] when no
    [return] is reached. *)
Definition inspect_health_response (test timestamp connection_uri raw : string)
    : exc (option outcome) :=
  message ← json_loads raw;
  has_type ← Py.contains "message_type" message;
  if negb has_type
  then Ok (Some (Test.FAIL test ("WebSocket " +:+ connection_uri +:+ " health response"
                                 +:+ "does not have a message_type")))
  else
    message_type ← Py.getitem message "message_type";
    if negb (Py.eq_str message_type "health")
    then Ok (Some (Test.FAIL test ("WebSocket " +:+ connection_uri
                                   +:+ " health response message_type is not "
                                   +:+ "set to health but instead is " +:+ py_str message_type)))
    else
      has_timing ← Py.contains "timing" message;
      if negb has_timing
      then Ok (Some (Test.FAIL test ("WebSocket " +:+ connection_uri +:+ " health response"
                                     +:+ "does not have a timing object")))
      else
        timing ← Py.getitem message "timing";
        has_origin ← Py.contains "origin_timestamp" timing;
        if negb has_origin
        then Ok (Some (Test.FAIL test ("WebSocket " +:+ connection_uri +:+ " health response"
                                       +:+ "does not have origin_timestamp")))
        else
          origin_timestamp ← Py.getitem timing "origin_timestamp";
          if negb (Py.eq_str origin_timestamp timestamp)
          then Ok (Some (Test.FAIL test ("WebSocket " +:+ connection_uri
                                         +:+ " health response origin_timestamp is not "
                                         +:+ "set to the original timestamp but instead is "
                                         +:+ py_str origin_timestamp)))
          else
            has_creation ← Py.contains "creation_timestamp" timing;
            if negb has_creation
            then Ok (Some (Test.FAIL test ("WebSocket " +:+ connection_uri +:+ " health response"
                                           +:+ "does not have creation_timestamp")))
            else
              creation_timestamp ← Py.getitem timing "creation_timestamp";
              order ← compare_resource_version creation_timestamp timestamp;
              if negb (order =? 1)%Z
              then Ok (Some (Test.FAIL test ("WebSocket " +:+ connection_uri
                                             +:+ " health response creation_timestamp expected to"
                                             +:+ "be later than origin. creation_timestamp was "
                                             +:+ py_str creation_timestamp)))
              else Ok None.

(** Lines 326-369: what one kept-alive connection's messages lead to. *)
Definition check_health_messages (test timestamp connection_uri : string)
    (messages : list string) : option outcome :=
  match messages with
  | [] =>
      Some (Test.FAIL test ("WebSocket " +:+ connection_uri
                            +:+ " did not respond with a health response"
                            +:+ "to the health command"))
  | [raw] =>
      match inspect_health_response test timestamp connection_uri raw with
      | Ok r => r
      | Raise e =>
          Some (Test.FAIL test ("WebSocket " +:+ connection_uri
                                +:+ " health response cannot be parsed"
                                +:+ "exception " +:+ exn_str e))
      end
  | _ :: _ :: _ =>
      Some (Test.FAIL test ("WebSocket " +:+ connection_uri
                            +:+ " responded with more than 1 message"
                            +:+ "to the health command"))
  end.

(** Lines 324-369: the loop over [websockets_with_health], each connection
    with the messages it has received.  [None]: the test goes on. *)
Fixpoint check_health_replies (test timestamp : string)
    (with_health : list (string * list string)) : option outcome :=
  match with_health with
  | [] => None
  | (connection_uri, messages) :: rest =>
      match check_health_messages test timestamp connection_uri messages with
      | Some failure => Some failure
      | None => check_health_replies test timestamp rest
      end
  end.

(** How a polling loop of [test_04] ends: with a [return], by its time
    running out (the readings left are for the code after it), or it is
    still polling when the readings end. *)
Inductive polled : Type :=
| Returned (result : outcome)
| Elapsed (later : list Q)
| Polling.

(** Lines 373-379: the loop on the connections that were sent no health
    command.  [clock] holds the successive values of [time.time()] seen by
    the loop test, [is_open uri t] what [is_open()] answers for [uri] in the
    pass made at reading [t]. *)
Fixpoint stay_open_without_health (test : string) (start_time : Q)
    (is_open : string -> Q -> bool) (no_health : list string) (clock : list Q) : polled :=
  match clock with
  | [] => Polling
  | now :: later =>
      if Qlt_b now (start_time + WS_TIMEOUT - 1)
      then
        match find (fun connection_uri => negb (is_open connection_uri now)) no_health with
        | Some connection_uri =>
            Returned (Test.FAIL test ("WebSocket connection (no health cmd sent) to "
                                      +:+ connection_uri +:+ " was closed too early"))
        | None => stay_open_without_health test start_time is_open no_health later
        end
      else Elapsed later
  end.

(** A reply echoes the timestamp of the health command as its origin and
    was created strictly later. *)
Definition echoed_and_later (timestamp raw : string) : bool :=
  match
    message ← json_loads raw;
    timing ← Py.getitem message "timing";
    origin_timestamp ← Py.getitem timing "origin_timestamp";
    creation_timestamp ← Py.getitem timing "creation_timestamp";
    order ← compare_resource_version creation_timestamp timestamp;
    Ok (Py.eq_str origin_timestamp timestamp && (order =? 1)%Z)
  with
  | Ok b => b
  | Raise _ => false
  end.

End Test04.

(** A pass of the loop of [stay_open_without_health] in which every
    connection is found open. *)
Definition quiet_pass (start_time : Q) (is_open : string -> Q -> bool)
    (no_health : list string) (t : Q) : Prop :=
  (t < start_time + WS_TIMEOUT - 1)%Q /\
  forall connection_uri, In connection_uri no_health -> is_open connection_uri t = true.

End IS0702Test.


(** ** Concrete collaborators and data for the examples *)

Module Examples.

Import GenericTest.

(** A server that answers every request with the same response. *)
Definition fixed_server (r : response) (w : unit) (method url : string) : unit * http_reply :=
  (w, Replied r).

(** A validator that accepts objects only. *)
Definition object_only (document : json) (schema : unit) : validation :=
  match document with
  | JObj _ => Valid
  | JArr [] => ValidationError "[] is not of type 'object'"
  | _ => ValidationError "document is not of type 'object'"
  end.

Definition one_schema (reads : list resource) : Specification (Schema:=unit) :=
  {| get_reads := reads; get_schema := fun _ _ _ => Some tt |}.

Definition post_without_allow_methods : response :=
  Response 200 [("Access-Control-Allow-Origin", "*");
                ("Access-Control-Allow-Headers", "POST, Content-Type")]
           (Some (JObj ∅)).

Definition get_empty_array : response :=
  Response 200 [("Access-Control-Allow-Origin", "*")] (Some (JArr [])).

(** The list [[{"id": "a"}, {"id": "b"}]] and the widget ["a"]. *)
Definition widget (id : string) : json := JObj {[ "id" := JStr id ]}.

Definition widget_list : response :=
  Response 200 [("Access-Control-Allow-Origin", "*")] (Some (JArr [widget "a"; widget "b"])).

Definition widget_a : response :=
  Response 200 [("Access-Control-Allow-Origin", "*")] (Some (widget "a")).

(** A list mixing the two forms of entries with others. *)
Definition mixed_list : response :=
  Response 200 [] (Some (JArr [widget "a"; JStr "b/"; JNum 7; JStr "c"; JObj ∅])).

Definition widgets_server (w : unit) (method url : string) : unit * http_reply :=
  if String.eqb url "http://iut/x-nmos/node/v1.2/widgets"
  then (w, Replied widget_list)
  else if String.eqb url "http://iut/x-nmos/node/v1.2/widgets/a"
  then (w, Replied widget_a)
  else (w, Replied (Response 404 [] None)).

Definition widgets : resource := Resource "/widgets" "get" [] [200%Z].
Definition one_widget : resource := Resource "/widgets/{widgetId}" "get" ["widgetId"] [200%Z].
Definition widget_part : resource :=
  Resource "/widgets/{widgetId}/parts/{partId}" "get" ["widgetId"; "partId"] [200%Z].

Definition node_api (reads : list resource) : api (Schema:=unit) :=
  Api "http://iut/x-nmos/node/v1.2/" (one_schema reads).

(** A crawler whose cache was seeded by [widget_list]. *)
Definition seeded : crawler (World:=unit) :=
  Crawler tt {[ "/widgets" := [JStr "a"; JStr "b"] ]}.

(** The crawler after [check_api_resource] on the list of widgets. *)
Definition after_widgets : crawler (World:=unit) :=
  (check_api_resource widgets_server object_only "v1.2" (Crawler tt ∅)
     widgets 200 "node" (node_api [])).1.1.

(** A list of widgets whose identifier is a number, and the crawler after
    [check_api_resource] on it. *)
Definition numbered_list : response :=
  Response 200 [("Access-Control-Allow-Origin", "*")] (Some (JArr [JObj {[ "id" := JNum 7 ]}])).

Definition after_numbered : crawler (World:=unit) :=
  (check_api_resource (fixed_server numbered_list) object_only "v1.2" (Crawler tt ∅)
     widgets 200 "node" (node_api [])).1.1.

(** Senders of the IS-07 suite: [s1] has the two websocket parameters, [s2]
    is an mqtt sender with one parameter too many. *)
Definition active_with (names : list string) : json :=
  JObj {[ "transport_params" :=
            JArr [JObj (list_to_map (map (fun k => (k, JNull)) names))] ]}.

Definition s2_params : list string := ["ext_is_07_rest_api_url"; "ext_other"; "broker_topic"].

Definition senders_active : gmap string json :=
  <[ "s1" := active_with ["ext_is_07_rest_api_url"; "connection_uri"; "ext_is_07_source_id"] ]>
    {[ "s2" := active_with s2_params ]}.

Definition transport_types : gmap string string :=
  <[ "s1" := "urn:x-nmos:transport:websocket" ]> {[ "s2" := "urn:x-nmos:transport:mqtt" ]}.

(** A health reply whose creation timestamp is before its origin. *)
Definition early_reply : json :=
  JObj (<[ "message_type" := JStr "health" ]>
          {[ "timing" := JObj (<[ "origin_timestamp" := JStr "1000:0" ]>
                                 {[ "creation_timestamp" := JStr "999:0" ]}) ]}).

(** A health reply created half a second after its origin. *)
Definition timely_reply : json :=
  JObj (<[ "message_type" := JStr "health" ]>
          {[ "timing" := JObj (<[ "origin_timestamp" := JStr "1000:0" ]>
                                 {[ "creation_timestamp" := JStr "1000:500000000" ]}) ]}).

(** A decoder that knows two messages. *)
Definition loads (raw : string) : exc json :=
  if String.eqb raw "early" then Ok early_reply
  else if String.eqb raw "timely" then Ok timely_reply
  else Raise (LibraryError "Expecting value").

Definition show_json (v : json) : string :=
  match v with
  | JStr s => s
  | _ => "?"
  end.

Definition show_exn (e : exn) : string := "error".

(** Three connections of the cohort without health command: the first
    stays open, the other two are open up to seven seconds on the clock. *)
Definition three_connections : list string := ["ws://iut/a"; "ws://iut/b"; "ws://iut/c"].

Definition closing_at_7 (connection_uri : string) (t : Q) : bool :=
  String.eqb connection_uri "ws://iut/a" || Qle_bool t 7.

End Examples.


(** ** Dictionaries looked up with decoded values *)

Module PyDict.

(** [k in d] for a dictionary with string keys: lists and dictionaries
    cannot be hashed, the other values are hashed and only a string can be
    one of the keys. *)
Definition key_in {A} (k : json) (d : gmap string A) : exc bool :=
  match k with
  | JStr s => Ok (bool_decide (is_Some (d !! s)))
  | JArr _ | JObj _ => Raise TypeError
  | _ => Ok false
  end.

(** [d[k]] for a dictionary with string keys. *)
Definition get {A} (d : gmap string A) (k : json) : exc A :=
  match k with
  | JStr s =>
      match d !! s with
      | Some v => Ok v
      | None => Raise (KeyError s)
      end
  | JArr _ | JObj _ => Raise TypeError
  | JNull => Raise (KeyError "None")
  | JBool true => Raise (KeyError "True")
  | JBool false => Raise (KeyError "False")
  | JNum n => Raise (KeyError (PyStr.of_Z n))
  end.

End PyDict.


(** ** [GenericTest]: the helpers around the crawler *)

Module GenericTestHelpers.

Import GenericTest.

(** [s.lstrip(chars)] *)
Fixpoint lstrip (chars s : string) : string :=
  match s with
  | EmptyString => EmptyString
  | String c s' => if PyStr.mem_char c chars then lstrip chars s' else s
  end.

(** [s.strip(chars)] *)
Definition strip (chars s : string) : string := PyStr.rstrip chars (lstrip chars s).

Section Versions.

(** The built-in [int] on a [str]. *)
Variable int : string -> exc Z.

(** [_parse_version] *)
Definition _parse_version (version : string) : exc (Z * Z) :=
  let version_parts := PyStr.split "." (strip "v" version) in
  major ← match version_parts with
          | part :: _ => int part
          | [] => Raise IndexError
          end;
  minor ← match version_parts with
          | _ :: part :: _ => int part
          | _ => Raise IndexError
          end;
  Ok (major, minor).

End Versions.

(** The loop of [from_UTC] over [UTC_LEAP], a table of [TestHelper] with
    rows (UTC second, TAI second - 1). *)
Fixpoint leap_seconds (UTC_LEAP : list (Z * Z)) (secs : Z) : Z :=
  match UTC_LEAP with
  | [] => 0
  | (tbl_sec, tbl_tai_sec_minus_1) :: rest =>
      if (secs >=? tbl_sec)%Z then (tbl_tai_sec_minus_1 + 1) - tbl_sec
      else leap_seconds rest secs
  end%Z.

(** [from_UTC]; the Boolean [is_leap] counts as 0 or 1 in the sum. *)
Definition from_UTC (UTC_LEAP : list (Z * Z)) (secs nanos : Z) (is_leap : bool) : Z * Z :=
  (secs + leap_seconds UTC_LEAP secs + (if is_leap then 1 else 0), nanos)%Z.

Section CleanRequests.

Context {World Schema : Type}.

(** The implementation under test, for a request that may carry a JSON
    document. *)
Variable send : World -> string -> string -> option json -> World * http_reply.
(** [Draft4Validator(schema).validate] *)
Variable validate : json -> Schema -> validation.
(** [self.url] and [response.text] *)
Variable url : string.
Variable text : response -> string.

(** [do_request] with its optional [data]. *)
Definition do_request (w : World) (method target : string) (data : option json)
    : World * (response + string) :=
  let '(w', reply) := send w method target data in
  (w', match reply with
       | Replied r => inl r
       | Timeout => inr "Connection timeout"
       | TooManyRedirects => inr "Too many redirects"
       | RequestFailed msg => inr msg
       end).

(** [checkCleanRequest]: [inl document] is [(True, document)], [inr msg] is
    [(False, msg)]. *)
Definition checkCleanRequest (w : World) (method dest : string) (data : option json)
    (code : Z) : World * (json + string) :=
  let '(w', reply) := do_request w method (url +:+ dest) data in
  (w', match reply with
       | inr msg => inr msg
       | inl r =>
           let message := "Expected status code " +:+ PyStr.of_Z code +:+ " from " +:+ dest
                          +:+ ", got " +:+ PyStr.of_Z (status_code r) +:+ "." in
           if (status_code r =? code)%Z then
             match body r with
             | Some document => inl document
             | None =>
                 inr ("Failed decoding JSON from " +:+ dest +:+ ", got " +:+ text r
                      +:+ ". Please check JSON syntax")
             end
           else inr message
       end).

(** [compare_to_schema] *)
Definition compare_to_schema (w : World) (schema : Schema) (endpoint : string)
    (status_code : Z) : World * exc (bool * string) :=
  let '(w', reply) := checkCleanRequest w "GET" endpoint None status_code in
  (w', match reply with
       | inl document =>
           match validate document schema with
           | Valid => Ok (true, "")
           | ValidationError e =>
               Ok (false, "Response from " +:+ endpoint +:+ " did not meet schema: " +:+ e)
           | SchemaFault e => Raise e
           end
       | inr message => Ok (false, "Invalid response while getting data: " +:+ message)
       end).

End CleanRequests.

(** *** Notions used to state the properties *)

(** The path made of the given segments, each after a separator. *)
Fixpoint path_of (segments : list string) : string :=
  match segments with
  | [] => EmptyString
  | segment :: rest => "/" +:+ segment +:+ path_of rest
  end.

(** A text without the character [c]. *)
Definition free_of (c : ascii) (s : string) : Prop := PyStr.mem_char c s = false.

(** A plain segment of a path: not empty, without a separator, and not the
    start of a parameter. *)
Definition plain_segment (s : string) : Prop :=
  s <> EmptyString /\ free_of "/" s /\ PyStr.startswith "{" s = false.

(** The difference between TAI and UTC that a row of the table stands
    for. *)
Definition offset (row : Z * Z) : Z := (snd row + 1 - fst row)%Z.

(** The rows of a leap second table from the latest to the earliest, the
    difference between TAI and UTC never negative and not growing on the way
    back. *)
Fixpoint later_rows_first (UTC_LEAP : list (Z * Z)) : Prop :=
  match UTC_LEAP with
  | [] => True
  | row :: rest =>
      (0 <= offset row)%Z /\
      Forall (fun earlier => (fst earlier < fst row /\ offset earlier <= offset row)%Z) rest /\
      later_rows_first rest
  end.

(** The declared reads that ask for a 200, over all the APIs. *)
Definition asks_200 (res : resource) : nat :=
  length (List.filter (fun response_code => (response_code =? 200)%Z) (res_responses res)).

Definition declared_200 {Schema} (apis : list (string * api (Schema:=Schema))) : nat :=
  list_sum (map (fun entry => list_sum (map asks_200 (get_reads (api_spec (snd entry))))) apis).

(** The cache [saved'] keeps every entry of [saved], each list at the
    front of the new one. *)
Definition grown (saved saved' : gmap string (list json)) : Prop :=
  forall path ids, saved !! path = Some ids ->
    exists ids', saved' !! path = Some ids' /\ ids `prefix_of` ids'.

(** A path that the crawl can file identifiers under: the template of a
    declared read that asks for a 200 and has at most one parameter. *)
Definition fetchable {Schema} (apis : list (string * api (Schema:=Schema))) (path : string)
    : Prop :=
  exists api_name a res,
    In (api_name, a) apis /\ In res (get_reads (api_spec a)) /\
    res_path res = path /\ In 200%Z (res_responses res) /\
    (length (res_params res) <= 1)%nat.

End GenericTestHelpers.


(** ** [IS0702Test]: the rest of [set_up_tests] and of [test_04] *)

Module IS0702TestParts.

Import IS0702Test.

(** [d[k] = v] on a dictionary kept as the list of its items: the value of
    an existing key is replaced where it stands, a new key goes to the
    end. *)
Fixpoint dict_set {A} (k : string) (v : A) (d : list (string * A)) : list (string * A) :=
  match d with
  | [] => [(k, v)]
  | (k', v') :: rest =>
      if String.eqb k' k then (k, v) :: rest else (k', v') :: dict_set k v rest
  end.

Section SetUpSenders.

(** [self.is04_flows] and [self.is04_sources], dictionaries keyed by the
    identifier of the resource. *)
Variable is04_flows : gmap string json.
Variable is04_sources : gmap string json.

(** Lines 67-73 of [set_up_tests]: one pass of the loop over
    [self.is04_senders], on [senders_to_test] and [sources_to_test]. *)
Definition keep_sender (selected : list (string * json) * gmap string json)
    (sender : string) (is04_sender : json) : exc (list (string * json) * gmap string json) :=
  flow ← Py.getitem is04_sender "flow_id";
  known_flow ← PyDict.key_in flow is04_flows;
  if (known_flow : bool) then
    is04_flow ← PyDict.get is04_flows flow;
    source ← Py.getitem is04_flow "source_id";
    known_source ← PyDict.key_in source is04_sources;
    if (known_source : bool) then
      is04_source ← PyDict.get is04_sources source;
      has_event_type ← Py.contains "event_type" is04_source;
      if (has_event_type : bool) then
        match source with
        | JStr source_id =>
            Ok (dict_set sender is04_sender (fst selected),
                <[source_id := is04_source]> (snd selected))
        | _ => Ok selected
        end
      else Ok selected
    else Ok selected
  else Ok selected.

(** Lines 66-73: the loop, over the items of [self.is04_senders] in
    order. *)
Fixpoint select_senders (selected : list (string * json) * gmap string json)
    (is04_senders : list (string * json)) : exc (list (string * json) * gmap string json) :=
  match is04_senders with
  | [] => Ok selected
  | (sender, is04_sender) :: rest =>
      selected' ← keep_sender selected sender is04_sender;
      select_senders selected' rest
  end.

(** A sender of the Node API whose flow and whose flow's source are known
    there, the source with an event type. *)
Definition correlated (is04_sender : json) (source_id : string) (is04_source : json) : Prop :=
  exists flow_id is04_flow,
    Py.getitem is04_sender "flow_id" = Ok (JStr flow_id) /\
    is04_flows !! flow_id = Some is04_flow /\
    Py.getitem is04_flow "source_id" = Ok (JStr source_id) /\
    is04_sources !! source_id = Some is04_source /\
    Py.contains "event_type" is04_source = Ok true.

(** Every selected sender is correlated with a selected source, and every
    selected source is a source of the Node API that has an event type. *)
Definition selection_ok (is04_senders : list (string * json))
    (selected : list (string * json) * gmap string json) : Prop :=
  (forall sender is04_sender, In (sender, is04_sender) (fst selected) ->
     In (sender, is04_sender) is04_senders /\
     exists source_id is04_source,
       correlated is04_sender source_id is04_source /\
       snd selected !! source_id = Some is04_source) /\
  (forall source_id is04_source, snd selected !! source_id = Some is04_source ->
     is04_sources !! source_id = Some is04_source /\
     Py.contains "event_type" is04_source = Ok true).

End SetUpSenders.

(** How a polling loop of [test_04] ends when the code after it looks at
    the connections again: with a [return], at the reading [at] that stopped
    it (the readings left are for the loops after it), or it is still
    polling when the readings end. *)
Inductive waited : Type :=
| Failed (result : outcome)
| Ended (at_time : Q) (later : list Q)
| Waiting.

Section Lifecycle.

(** What [is_open()] answers, at a reading of the clock, for the
    connection to a URI that was sent no health command and for the one that
    was sent it. *)
Variable open_no_health : string -> Q -> bool.
Variable open_with_health : string -> Q -> bool.

(** Lines 302-308: all the connections stay open until a health command is
    due.  In a pass the connections without health command are looked at
    first. *)
Fixpoint stay_open_before_health (test : string) (start_time : Q)
    (connections : list string) (clock : list Q) : waited :=
  match clock with
  | [] => Waiting
  | now :: later =>
      if Qlt_b now (start_time + WS_HEARTBEAT_INTERVAL)
      then
        match find (fun connection_uri => negb (open_no_health connection_uri now)) connections with
        | Some connection_uri =>
            Failed (Test.FAIL test ("WebSocket connection to " +:+ connection_uri
                                    +:+ " was closed too early"))
        | None =>
            match find (fun connection_uri => negb (open_with_health connection_uri now))
                       connections with
            | Some connection_uri =>
                Failed (Test.FAIL test ("WebSocket connection to " +:+ connection_uri
                                        +:+ " was closed too early"))
            | None => stay_open_before_health test start_time connections later
            end
        end
      else Ended now later
  end.

(** Lines 385-391: the connections that were sent a health command stay
    open for one more heartbeat interval after the timeout. *)
Fixpoint stay_open_with_health (test : string) (start_time : Q)
    (connections : list string) (clock : list Q) : waited :=
  match clock with
  | [] => Waiting
  | now :: later =>
      if Qlt_b now (start_time + WS_TIMEOUT + WS_HEARTBEAT_INTERVAL)
      then
        match find (fun connection_uri => negb (open_with_health connection_uri now))
                   connections with
        | Some connection_uri =>
            Failed (Test.FAIL test ("WebSocket connection (health cmd sent) to "
                                    +:+ connection_uri +:+ " was closed too early"))
        | None => stay_open_with_health test start_time connections later
        end
      else Ended now later
  end.

(** Lines 401-404: wait for the connections that were sent a health command
    to close, for one more heartbeat interval at most. *)
Fixpoint wait_closed (start_time : Q) (connections : list string) (clock : list Q) : waited :=
  match clock with
  | [] => Waiting
  | now :: later =>
      if Qlt_b now (start_time + WS_TIMEOUT + WS_HEARTBEAT_INTERVAL * 2)
      then
        if forallb (fun connection_uri => negb (open_with_health connection_uri now)) connections
        then Ended now later
        else wait_closed start_time connections later
      else Ended now later
  end.

(** Lines 371-413: [test_04] after the health responses were checked.  The
    checks that follow a loop are made at the reading that stopped it. *)
Definition after_health_responses (test : string) (start_time : Q)
    (connections : list string) (clock : list Q) : polled :=
  match stay_open_without_health test start_time open_no_health connections clock with
  | Returned result => Returned result
  | Polling => Polling
  | Elapsed later =>
      match stay_open_with_health test start_time connections later with
      | Failed result => Returned result
      | Waiting => Polling
      | Ended timeout later' =>
          match find (fun connection_uri => open_no_health connection_uri timeout) connections with
          | Some connection_uri =>
              Returned (Test.FAIL test ("WebSocket connection (no health cmd sent) to "
                                        +:+ connection_uri
                                        +:+ " was not closed after timeout"))
          | None =>
              match wait_closed start_time connections later' with
              | Failed result => Returned result
              | Waiting => Polling
              | Ended last _ =>
                  match find (fun connection_uri => open_with_health connection_uri last)
                             connections with
                  | Some connection_uri =>
                      Returned (Test.FAIL test ("WebSocket connection (health cmd sent) to "
                                                +:+ connection_uri
                                                +:+ " was not closed after timeout"))
                  | None => Returned (Test.PASS test)
                  end
              end
          end
      end
  end.

(** The passes of the three loops that let them go on. *)
Definition kept_alive_pass (start_time : Q) (connections : list string) (t : Q) : Prop :=
  (t < start_time + WS_TIMEOUT + WS_HEARTBEAT_INTERVAL)%Q /\
  forall connection_uri, In connection_uri connections -> open_with_health connection_uri t = true.

Definition still_open_pass (start_time : Q) (connections : list string) (t : Q) : Prop :=
  (t < start_time + WS_TIMEOUT + WS_HEARTBEAT_INTERVAL * 2)%Q /\
  exists connection_uri, In connection_uri connections /\ open_with_health connection_uri t = true.

(** A pass of the first loop in which every connection of both sets is
    found open. *)
Definition all_open_pass (start_time : Q) (connections : list string) (t : Q) : Prop :=
  (t < start_time + WS_HEARTBEAT_INTERVAL)%Q /\
  forall connection_uri, In connection_uri connections ->
    open_no_health connection_uri t = true /\ open_with_health connection_uri t = true.

End Lifecycle.

End IS0702TestParts.


(** ** More collaborators and data for the examples *)

Module MoreExamples.

Import GenericTest.

(** A POST response with the four CORS headers that [validate_CORS] looks
    at, and one that lists the methods under [Access-Control-Allow-Method]
    only. *)
Definition post_allowed : response :=
  Response 200 [("Access-Control-Allow-Origin", "*");
                ("Access-Control-Allow-Headers", "POST, Content-Type");
                ("Access-Control-Allow-Method", "POST");
                ("Access-Control-Allow-Methods", "GET, POST")]
           (Some (JObj ∅)).

Definition post_singular : response :=
  Response 200 [("Access-Control-Allow-Origin", "*");
                ("Access-Control-Allow-Headers", "POST, Content-Type");
                ("Access-Control-Allow-Method", "POST")]
           (Some (JObj ∅)).

(** The answer of a base path: the versions that are served. *)
Definition versions : response :=
  Response 200 [("Access-Control-Allow-Origin", "*")] (Some (JArr [JStr "v1.0/"; JStr "v1.2/"])).

(** The Node API with the list of widgets and the single widget. *)
Definition node : list (string * api (Schema:=unit)) :=
  [("node", Examples.node_api [Examples.widgets; Examples.one_widget])].

(** [int] on unsigned decimal texts. *)
Definition int (s : string) : exc Z :=
  match IS04Utils.parse_int s with
  | Some n => Ok (Z.of_N n)
  | None => Raise (LibraryError "invalid literal for int() with base 10")
  end.

(** Three rows of a leap second table, the latest first. *)
Definition leap_table : list (Z * Z) :=
  [(1483228800, 1483228836); (1435708800, 1435708835); (1341100800, 1341100834)]%Z.

(** A server that answers every request, with or without a document, with
    the same response. *)
Definition data_server (r : response) (w : unit) (method url : string) (data : option json)
    : unit * http_reply :=
  (w, Replied r).

Definition raw_text (r : response) : string := "<html>".

(** A Node API with two senders: the flow of [s1] comes from a source with
    an event type, the flow of [s2] from a source without one. *)
Definition is04_flows : gmap string json :=
  <[ "f1" := JObj {[ "source_id" := JStr "src1" ]} ]>
    {[ "f2" := JObj {[ "source_id" := JStr "src2" ]} ]}.

Definition is04_sources : gmap string json :=
  <[ "src1" := JObj {[ "event_type" := JStr "boolean" ]} ]>
    {[ "src2" := JObj {[ "format" := JStr "urn:x-nmos:format:video" ]} ]}.

Definition is04_senders : list (string * json) :=
  [("s1", JObj {[ "flow_id" := JStr "f1" ]}); ("s2", JObj {[ "flow_id" := JStr "f2" ]})].

(** A Connection API that knows the active parameters of [s1] only. *)
Definition active_of (dest : string) : bool * json :=
  if String.eqb dest "single/senders/s1/active"
  then (true, Examples.active_with ["ext_is_07_rest_api_url"; "ext_is_07_source_id"])
  else (false, JStr "Expected status code 200").

Definition websocket_transport (sender : string) : string := "urn:x-nmos:transport:websocket".

(** A connection that is found open before the given time, and closed from
    then on. *)
Definition open_until (limit : Q) (connection_uri : string) (t : Q) : bool :=
  IS0702Test.Qlt_b t limit.

End MoreExamples.


(** * Properties *)

(** ** Harvesting and the identifier cache *)

Module GenericTestFacts.

Import GenericTest.

Lemma str_app_nil s : EmptyString +:+ s = s.
Proof. reflexivity. Qed.

Lemma str_app_cons c s t : String c s +:+ t = String c (s +:+ t).
Proof. reflexivity. Qed.

Lemma is_empty_true s : PyStr.is_empty s = true -> s = EmptyString.
Proof. destruct s; simpl; congruence. Qed.

Lemma endswith_slash_cons c s :
  PyStr.endswith "/" (String c s) =
  (if PyStr.is_empty s then Ascii.eqb c "/" else PyStr.endswith "/" s).
Proof.
  destruct s as [|d s].
  - simpl. destruct (Ascii.eqb c "/"); reflexivity.
  - cbn [PyStr.endswith PyStr.is_empty].
    replace (String.eqb (String c (String d s)) "/") with false; [reflexivity|].
    symmetry. apply String.eqb_neq. congruence.
Qed.

Lemma mem_char_slash c : PyStr.mem_char c "/" = Ascii.eqb c "/".
Proof. unfold PyStr.mem_char. simpl. now rewrite orb_false_r. Qed.

(** [rstrip] takes a run of separators off the end and leaves a text that
    does not end with one. *)
Lemma rstrip_slash_spec s :
  exists n, s = PyStr.rstrip "/" s +:+ slashes n /\
            PyStr.endswith "/" (PyStr.rstrip "/" s) = false /\
            (PyStr.endswith "/" s = true -> (0 < n)%nat).
Proof.
  induction s as [|c s (n & Hs & Hend & Hn)].
  - exists O. split; [|split]; simpl; auto. discriminate.
  - cbn [PyStr.rstrip]. rewrite mem_char_slash.
    rewrite (endswith_slash_cons c s).
    destruct (PyStr.is_empty (PyStr.rstrip "/" s)) eqn:He.
    + apply is_empty_true in He. rewrite He in Hs. rewrite str_app_nil in Hs.
      destruct (Ascii.eqb c "/") eqn:Hc; cbn [andb].
      * apply Ascii.eqb_eq in Hc. subst c. exists (S n).
        rewrite str_app_nil. split; [|split].
        -- simpl. congruence.
        -- reflexivity.
        -- intros _. lia.
      * exists n. rewrite He, str_app_cons, str_app_nil. split; [|split].
        -- congruence.
        -- simpl. rewrite Hc. reflexivity.
        -- destruct (PyStr.is_empty s) eqn:Hs'; [discriminate|exact Hn].
    + cbn [andb]. exists n. rewrite str_app_cons. split; [|split].
      * now f_equal.
      * rewrite endswith_slash_cons, He. exact Hend.
      * destruct (PyStr.is_empty s) eqn:Hs'.
        -- apply is_empty_true in Hs'. subst s. simpl in He. discriminate.
        -- exact Hn.
Qed.

Lemma harvest_entry_contribution acc entry :
  harvest_entry acc entry = acc ++ contribution entry.
Proof.
  destruct entry as [| | |s| |fields]; simpl; rewrite ?app_nil_r; try reflexivity.
  - destruct (PyStr.endswith "/" s); simpl; now rewrite ?app_nil_r.
  - destruct (fields !! "id"); simpl; now rewrite ?app_nil_r.
Qed.

(** The loop that appends to [subresources] computes the concatenation of
    the contributions. *)
Lemma fold_harvest_entry entries : forall acc,
  fold_left harvest_entry entries acc = acc ++ harvest_spec entries.
Proof.
  unfold harvest_spec.
  induction entries as [|entry entries IH]; intros acc; simpl.
  - now rewrite app_nil_r.
  - rewrite IH, harvest_entry_contribution. now rewrite <- app_assoc.
Qed.

Lemma harvest_array r entries :
  body r = Some (JArr entries) -> harvest r = harvest_spec entries.
Proof. intros H. unfold harvest. rewrite H. apply fold_harvest_entry. Qed.

Lemma harvest_elem e r :
  e ∈ harvest r -> exists entries, body r = Some (JArr entries) /\ e ∈ harvest_spec entries.
Proof.
  unfold harvest. destruct (body r) as [[| | | |entries|]|] eqn:Hb;
    try (intros H; apply elem_of_nil in H; contradiction).
  intros H. exists entries. split; [reflexivity|].
  now rewrite fold_harvest_entry in H.
Qed.

Lemma save_subresources_empty saved path r :
  harvest r = [] -> save_subresources saved path r = saved.
Proof. intros H. unfold save_subresources. now rewrite H. Qed.

Lemma save_subresources_same saved path r :
  harvest r <> [] ->
  save_subresources saved path r !! path = Some (default [] (saved !! path) ++ harvest r).
Proof.
  intros H. unfold save_subresources.
  destruct (harvest r) as [|x l] eqn:E; [congruence|]. simpl.
  destruct (saved !! path) as [ids|] eqn:Hp; simpl; now rewrite lookup_insert_eq.
Qed.

Lemma save_subresources_other saved path r other :
  other <> path -> save_subresources saved path r !! other = saved !! other.
Proof.
  intros H. unfold save_subresources.
  destruct (0 <? length (harvest r))%nat; [|reflexivity].
  destruct (saved !! path); now rewrite lookup_insert_ne.
Qed.

Lemma save_subresources_keeps saved path r other ids :
  saved !! other = Some ids ->
  exists ids', save_subresources saved path r !! other = Some ids' /\ ids `prefix_of` ids'.
Proof.
  intros H. destruct (decide (other = path)) as [->|Hne].
  - destruct (harvest r) as [|x l] eqn:E.
    + rewrite save_subresources_empty by assumption. exists ids. split; [assumption|reflexivity].
    + rewrite save_subresources_same by congruence. rewrite H. simpl.
      eexists. split; [reflexivity|]. rewrite E. now apply prefix_app_r.
  - rewrite save_subresources_other by assumption. exists ids. split; [assumption|reflexivity].
Qed.

Lemma save_subresources_nonempty saved path r :
  nonempty_entries saved -> nonempty_entries (save_subresources saved path r).
Proof.
  intros Hinv other ids Hl. destruct (decide (other = path)) as [->|Hne].
  - destruct (harvest r) as [|x l] eqn:E.
    + rewrite save_subresources_empty in Hl by assumption. eauto.
    + rewrite save_subresources_same in Hl by congruence. rewrite E in Hl.
      injection Hl as <-. destruct (default [] (saved !! path)); discriminate.
  - rewrite save_subresources_other in Hl by assumption. eauto.
Qed.

(** C2.  For a JSON array body, [save_subresources] harvests, in entry
    order, the [id] of every object that has one and every string that ends
    with the separator, taken without its run of trailing separators; other
    entries give nothing.  A non-empty harvest is appended to the cache entry
    of the fetched path, which is created when absent; an empty harvest
    leaves the cache as it is; what an entry held before stays, in place, at
    its front. *)
Theorem save_subresources_appends saved path r entries :
  body r = Some (JArr entries) ->
  harvest r = harvest_spec entries /\
  (forall s, PyStr.endswith "/" s = true ->
     contribution (JStr s) = [JStr (PyStr.rstrip "/" s)] /\
     exists n, (0 < n)%nat /\ s = PyStr.rstrip "/" s +:+ slashes n /\
               PyStr.endswith "/" (PyStr.rstrip "/" s) = false) /\
  (harvest r <> [] ->
     save_subresources saved path r !! path = Some (default [] (saved !! path) ++ harvest r)) /\
  (harvest r = [] -> save_subresources saved path r = saved) /\
  (forall other ids, saved !! other = Some ids ->
     exists ids', save_subresources saved path r !! other = Some ids' /\ ids `prefix_of` ids').
Proof.
  intros Hbody. split; [now apply harvest_array|]. split; [|split; [|split]].
  - intros s Hs. split; [simpl; now rewrite Hs|].
    destruct (rstrip_slash_spec s) as (n & H1 & H2 & H3). exists n. auto.
  - apply save_subresources_same.
  - apply save_subresources_empty.
  - intros other ids. apply save_subresources_keeps.
Qed.

Lemma save_subresources_appends_witness :
  body Examples.mixed_list =
    Some (JArr [Examples.widget "a"; JStr "b/"; JNum 7; JStr "c"; JObj ∅]) /\
  harvest Examples.mixed_list = [JStr "a"; JStr "b"] /\
  save_subresources (saved_entities Examples.seeded) "/widgets" Examples.mixed_list !! "/widgets"
    = Some [JStr "a"; JStr "b"; JStr "a"; JStr "b"].
Proof.
  split; [reflexivity|].
  destruct (save_subresources_appends (saved_entities Examples.seeded) "/widgets"
              Examples.mixed_list
              [Examples.widget "a"; JStr "b/"; JNum 7; JStr "c"; JObj ∅] eq_refl)
    as (Hh & _ & Hs & _).
  split; [exact Hh|].
  rewrite Hs; [reflexivity|discriminate].
Defined.

(** ** The trace of a crawl *)

Lemma traced_more evs more saved : traced evs saved -> traced (evs ++ more) saved.
Proof.
  intros H path ids e Hl He. destruct (H path ids e Hl He) as (j & r & Hj & Hr).
  exists j, r. split; [|assumption]. now apply lookup_app_l_Some.
Qed.

Lemma traced_save evs saved path r :
  traced evs saved ->
  traced (evs ++ [Harvested path r]) (save_subresources saved path r).
Proof.
  intros H other ids e Hl He. destruct (decide (other = path)) as [->|Hne].
  - destruct (harvest r) as [|x l] eqn:E.
    + rewrite save_subresources_empty in Hl by assumption.
      now apply (traced_more evs [Harvested path r] saved H path ids).
    + rewrite save_subresources_same in Hl by congruence. injection Hl as <-.
      apply elem_of_app in He as [He|He].
      * destruct (saved !! path) as [old|] eqn:Ho; simpl in He.
        -- now apply (traced_more evs [Harvested path r] saved H path old).
        -- apply elem_of_nil in He. contradiction.
      * exists (length evs), r. split; [|assumption].
        rewrite lookup_app_r by lia. now rewrite Nat.sub_diag.
  - rewrite save_subresources_other in Hl by assumption.
    now apply (traced_more evs [Harvested path r] saved H other ids).
Qed.

Lemma justified_harvested evs path r : justified evs -> justified (evs ++ [Harvested path r]).
Proof.
  intros H i template e Hi.
  apply lookup_app_Some in Hi as [Hi|[Hlen Hi]].
  - destruct (H i template e Hi) as (j & r' & entries & Hj & Hev & Hb & He).
    exists j, r', entries. repeat split; auto. now apply lookup_app_l_Some.
  - destruct (i - length evs)%nat as [|k]; simpl in Hi; [congruence|].
    rewrite lookup_nil in Hi. discriminate.
Qed.

Lemma justified_substituted evs saved template id rest :
  traced evs saved -> justified evs ->
  saved !! collection_path template = Some (id :: rest) ->
  justified (evs ++ [Substituted template id]).
Proof.
  intros Ht H Hl i template' e Hi.
  apply lookup_app_Some in Hi as [Hi|[Hlen Hi]].
  - destruct (H i template' e Hi) as (j & r' & entries & Hj & Hev & Hb & He).
    exists j, r', entries. repeat split; auto. now apply lookup_app_l_Some.
  - destruct (i - length evs)%nat as [|k] eqn:Hk; simpl in Hi.
    + injection Hi as <- <-.
      destruct (Ht _ _ id Hl) as (j & r & Hj & Hr); [apply list_elem_of_here|].
      destruct (harvest_elem _ _ Hr) as (entries & Hb & He).
      exists j, r, entries. repeat split; auto.
      * apply lookup_lt_Some in Hj. lia.
      * now apply lookup_app_l_Some.
    + rewrite lookup_nil in Hi. discriminate.
Qed.

Section CrawlerFacts.

Context {World Schema : Type}.
Variable send : World -> string -> string -> World * http_reply.
Variable validate : json -> Schema -> validation.
Variables base_url test_version : string.

Lemma prepare_picked saved res api_name (a : @api Schema) url test picked :
  prepare test_version saved res api_name a = Request url test picked ->
  picked = [] \/
  exists id rest,
    picked = [Substituted (res_path res) (JStr id)] /\
    saved !! collection_path (res_path res) = Some (JStr id :: rest).
Proof.
  unfold prepare. destruct (res_params res) as [|param [|param' params]].
  - intros H. injection H as <- <- <-. now left.
  - destruct (saved !! collection_path (res_path res)) as [[|[| | |id| |] rest]|]; try discriminate.
    intros H. injection H as <- <- <-. right. exists id, rest. split; reflexivity.
  - discriminate.
Qed.

Lemma check_api_resource_traced c res code api_name a past :
  traced past (saved_entities c) -> justified past ->
  traced (past ++ (check_api_resource send validate test_version c res code api_name a).1.2)
         (saved_entities (check_api_resource send validate test_version c res code api_name a).1.1) /\
  justified (past ++ (check_api_resource send validate test_version c res code api_name a).1.2).
Proof.
  intros Ht Hj. unfold check_api_resource.
  destruct (prepare test_version (saved_entities c) res api_name a) as [url test picked|result] eqn:Hp.
  - assert (Hpast : traced (past ++ picked) (saved_entities c) /\ justified (past ++ picked)).
    { split; [now apply traced_more|].
      destruct (prepare_picked _ _ _ _ _ _ _ Hp) as [->|(id & rest & -> & Hl)].
      - now rewrite app_nil_r.
      - now apply (justified_substituted past (saved_entities c) _ _ rest). }
    destruct Hpast as [Ht' Hj'].
    destruct (do_request send (world c) (res_method res) url) as [w' [r|msg]]; simpl.
    + destruct (status_code r =? code)%Z; simpl; [|now split].
      rewrite app_assoc. split; [now apply traced_save|now apply justified_harvested].
    + now split.
  - simpl. rewrite app_nil_r. now split.
Qed.

Lemma check_codes_traced res api_name a codes : forall c past,
  traced past (saved_entities c) -> justified past ->
  traced (past ++ (check_codes send validate test_version c res codes api_name a).1.2)
         (saved_entities (check_codes send validate test_version c res codes api_name a).1.1) /\
  justified (past ++ (check_codes send validate test_version c res codes api_name a).1.2).
Proof.
  induction codes as [|code codes IH]; intros c past Ht Hj; simpl.
  - rewrite app_nil_r. now split.
  - destruct (code =? 200)%Z; [|now apply IH].
    pose proof (check_api_resource_traced c res code api_name a past Ht Hj) as H1.
    destruct (check_api_resource send validate test_version c res code api_name a)
      as [[c1 ev1] [result|e]]; simpl in H1; [|exact H1].
    destruct H1 as [Ht1 Hj1]. specialize (IH c1 (past ++ ev1) Ht1 Hj1).
    destruct (check_codes send validate test_version c1 res codes api_name a) as [[c2 ev2] rs].
    simpl in *. now rewrite app_assoc.
Qed.

Lemma check_reads_traced api_name a reads : forall c past,
  traced past (saved_entities c) -> justified past ->
  traced (past ++ (check_reads send validate test_version c reads api_name a).1.2)
         (saved_entities (check_reads send validate test_version c reads api_name a).1.1) /\
  justified (past ++ (check_reads send validate test_version c reads api_name a).1.2).
Proof.
  induction reads as [|res reads IH]; intros c past Ht Hj; simpl.
  - rewrite app_nil_r. now split.
  - pose proof (check_codes_traced res api_name a (res_responses res) c past Ht Hj) as H1.
    destruct (check_codes send validate test_version c res (res_responses res) api_name a)
      as [[c1 ev1] [results|e]]; simpl in H1; [|exact H1].
    destruct H1 as [Ht1 Hj1]. specialize (IH c1 (past ++ ev1) Ht1 Hj1).
    destruct (check_reads send validate test_version c1 reads api_name a) as [[c2 ev2] rs].
    simpl in *. now rewrite app_assoc.
Qed.

Lemma basics_from_traced apis : forall c past,
  traced past (saved_entities c) -> justified past ->
  traced (past ++ (basics_from send validate base_url test_version c apis).1.2)
         (saved_entities (basics_from send validate base_url test_version c apis).1.1) /\
  justified (past ++ (basics_from send validate base_url test_version c apis).1.2).
Proof.
  induction apis as [|[api_name a] apis IH]; intros c past Ht Hj; simpl.
  - rewrite app_nil_r. now split.
  - destruct (check_base_paths send base_url test_version (world c) api_name) as [w1 [results0|e]];
      [|simpl; rewrite app_nil_r; now split].
    pose proof (check_reads_traced api_name a (get_reads (api_spec a))
                  (Crawler w1 (saved_entities c)) past Ht Hj) as H1.
    destruct (check_reads send validate test_version (Crawler w1 (saved_entities c))
                (get_reads (api_spec a)) api_name a)
      as [[c1 ev1] [results|e]]; simpl in H1; [|exact H1].
    destruct H1 as [Ht1 Hj1]. specialize (IH c1 (past ++ ev1) Ht1 Hj1).
    destruct (basics_from send validate base_url test_version c1 apis) as [[c2 ev2] rs].
    simpl in *. now rewrite app_assoc.
Qed.

(** C1.  In the trace of a crawl started on a fresh object, whatever the
    APIs and whatever the server answers, every identifier substituted into
    a template was contributed by the JSON array body of a response that
    the same crawl had handed to [save_subresources] earlier, for the path
    that is the template's collection path. *)
Theorem substituted_ids_were_harvested (w : World) (apis : list (string * api)) :
  justified (basics send validate base_url test_version w apis).1.2.
Proof.
  unfold basics.
  destruct (basics_from_traced apis (Crawler w ∅) []) as [_ H].
  - intros path ids e Hl. simpl in Hl. rewrite lookup_empty in Hl. discriminate.
  - intros i template e Hi. rewrite lookup_nil in Hi. discriminate.
  - exact H.
Qed.

(** ** The cache never holds an empty list *)

Lemma check_api_resource_nonempty c res code api_name a :
  nonempty_entries (saved_entities c) ->
  nonempty_entries
    (saved_entities (check_api_resource send validate test_version c res code api_name a).1.1).
Proof.
  intros H. unfold check_api_resource.
  destruct (prepare test_version (saved_entities c) res api_name a) as [url test picked|result];
    [|exact H].
  destruct (do_request send (world c) (res_method res) url) as [w' [r|msg]]; simpl; [|exact H].
  destruct (status_code r =? code)%Z; simpl; [|exact H].
  now apply save_subresources_nonempty.
Qed.

Lemma reachable_nonempty c :
  reachable send validate test_version c -> nonempty_entries (saved_entities c).
Proof.
  induction 1 as [w|c w _ IH|c res code api_name a _ IH].
  - intros path ids Hl. simpl in Hl. rewrite lookup_empty in Hl. discriminate.
  - exact IH.
  - now apply check_api_resource_nonempty.
Qed.

Lemma check_codes_reachable res api_name a codes : forall c,
  reachable send validate test_version c ->
  reachable send validate test_version
    (check_codes send validate test_version c res codes api_name a).1.1.
Proof.
  induction codes as [|code codes IH]; intros c Hr; simpl; [exact Hr|].
  destruct (code =? 200)%Z; [|now apply IH].
  pose proof (reach_check send validate test_version c res code api_name a Hr) as H1.
  destruct (check_api_resource send validate test_version c res code api_name a)
    as [[c1 ev1] [result|e]]; simpl in H1; [|exact H1].
  specialize (IH c1 H1).
  now destruct (check_codes send validate test_version c1 res codes api_name a) as [[c2 ev2] rs].
Qed.

Lemma check_reads_reachable api_name a reads : forall c,
  reachable send validate test_version c ->
  reachable send validate test_version
    (check_reads send validate test_version c reads api_name a).1.1.
Proof.
  induction reads as [|res reads IH]; intros c Hr; simpl; [exact Hr|].
  pose proof (check_codes_reachable res api_name a (res_responses res) c Hr) as H1.
  destruct (check_codes send validate test_version c res (res_responses res) api_name a)
    as [[c1 ev1] [results|e]]; simpl in H1; [|exact H1].
  specialize (IH c1 H1).
  now destruct (check_reads send validate test_version c1 reads api_name a) as [[c2 ev2] rs].
Qed.

(** The crawl only goes through reachable states. *)
Lemma basics_reachable (w : World) (apis : list (string * api)) :
  reachable send validate test_version
    (basics send validate base_url test_version w apis).1.1.
Proof.
  unfold basics. generalize (reach_fresh send validate test_version w).
  generalize (Crawler w ∅). induction apis as [|[api_name a] apis IH]; intros c Hr; simpl.
  - exact Hr.
  - destruct (check_base_paths send base_url test_version (world c) api_name)
      as [w1 [results0|e]]; [|simpl; now apply reach_world].
    pose proof (check_reads_reachable api_name a (get_reads (api_spec a))
                  (Crawler w1 (saved_entities c)) (reach_world _ _ _ c w1 Hr)) as H1.
    destruct (check_reads send validate test_version (Crawler w1 (saved_entities c))
                (get_reads (api_spec a)) api_name a)
      as [[c1 ev1] [results|e]]; simpl in H1; [|exact H1].
    specialize (IH c1 H1).
    now destruct (basics_from send validate base_url test_version c1 apis) as [[c2 ev2] rs].
Qed.

(** C10.  In every state that a crawl can reach from a fresh object, each
    list stored in [saved_entities] has a first element, so that
    [check_api_resource], when it finds the collection path in the cache,
    never fails on index 0. *)
Theorem first_entity_in_bounds c :
  reachable send validate test_version c ->
  nonempty_entries (saved_entities c) /\
  (forall path ids, saved_entities c !! path = Some ids -> exists entity rest, ids = entity :: rest) /\
  (forall res api_name (a : @api Schema),
     prepare test_version (saved_entities c) res api_name a <> Return (Raise IndexError)).
Proof.
  intros Hr. pose proof (reachable_nonempty c Hr) as Hne. split; [exact Hne|]. split.
  - intros path ids Hl. destruct ids as [|entity rest]; [now apply Hne in Hl|eauto].
  - intros res api_name a. unfold prepare.
    destruct (res_params res) as [|param [|param' params]]; try discriminate.
    destruct (saved_entities c !! collection_path (res_path res)) as [[|[] rest]|] eqn:Hl;
      try discriminate.
    now apply Hne in Hl.
Qed.

(** ** Paths with one parameter, and with more *)

(** C8.  What the code does with a resource that declares one parameter,
    by the cache entry of its collection path.  When the entry starts with a
    string [id], the request that [check_api_resource] prepares is for the
    template with [id] put in the place of the parameter, and the call sends
    that one request.  When the cache has no entry for the collection path,
    the call returns a not-applicable outcome saying that no resources were
    found, and [basics] reports it.  When the entry starts with an identifier
    that is not a string, which [save_subresources] stores as it finds it,
    no URL is built and no outcome is returned: [str.replace] raises
    [TypeError], no request is sent, and the exception ends the loop of
    [basics], where the claim asks for the URL with the identifier in it. *)
Theorem single_parameter_path c res code api_name (a : @api Schema) param :
  res_params res = [param] ->
  (forall id rest,
     saved_entities c !! collection_path (res_path res) = Some (JStr id :: rest) ->
     let url_param := PyStr.replace ("{" +:+ param +:+ "}") id (res_path res) in
     let url := PyStr.rstrip "/" (api_url a) +:+ url_param in
     prepare test_version (saved_entities c) res api_name a =
       Request url (test_name test_version res api_name url_param)
               [Substituted (res_path res) (JStr id)] /\
     world (check_api_resource send validate test_version c res code api_name a).1.1 =
       (send (world c) (res_method res) url).1) /\
  (saved_entities c !! collection_path (res_path res) = None ->
     let missing := Test.NA (test_name test_version res api_name (res_path res))
                            "No resources found to perform this test" in
     state missing = NotApplicable /\
     check_api_resource send validate test_version c res code api_name a = (c, [], Ok (Some missing)) /\
     check_codes send validate test_version c res [200%Z] api_name a = (c, [], Ok [missing])) /\
  (forall entity rest,
     saved_entities c !! collection_path (res_path res) = Some (entity :: rest) ->
     (forall id, entity <> JStr id) ->
     check_api_resource send validate test_version c res code api_name a
       = (c, [], Raise TypeError) /\
     forall codes reads,
       res_responses res = 200%Z :: codes ->
       check_reads send validate test_version c (res :: reads) api_name a
         = (c, [], Raise TypeError)).
Proof.
  intros Hp. split; [|split].
  - intros id rest Hl url_param url.
    assert (Hprep : prepare test_version (saved_entities c) res api_name a =
                    Request url (test_name test_version res api_name url_param)
                            [Substituted (res_path res) (JStr id)]).
    { unfold prepare. now rewrite Hp, Hl. }
    split; [exact Hprep|].
    unfold check_api_resource. rewrite Hprep. unfold do_request.
    destruct (send (world c) (res_method res) url) as [w' [r| | |msg]]; simpl; try reflexivity.
    now destruct (status_code r =? code)%Z.
  - intros Hl missing. split; [reflexivity|].
    assert (Hc : forall code', check_api_resource send validate test_version c res code' api_name a
                 = (c, [], Ok (Some missing))).
    { intros code'. unfold check_api_resource, prepare. now rewrite Hp, Hl. }
    split; [apply Hc|]. simpl. now rewrite Hc.
  - intros entity rest Hl Hne.
    assert (Hc : forall code', check_api_resource send validate test_version c res code' api_name a
                 = (c, [], Raise TypeError)).
    { intros code'. unfold check_api_resource, prepare. rewrite Hp, Hl.
      destruct entity as [| | |id| |]; try reflexivity. now destruct (Hne id). }
    split; [apply Hc|]. intros codes reads Hcodes.
    cbn [check_reads]. rewrite Hcodes. cbn [check_codes]. rewrite Z.eqb_refl.
    now rewrite Hc.
Qed.

(** C5.  What the code does with a resource that declares two parameters
    or more: [check_api_resource] returns [None] for it, so the inner loop
    of [basics] adds no outcome for the resource, for any list of response
    codes; the endpoint leaves no record, where the claim asks for an
    outcome that flags it for manual testing. *)
Theorem multi_parameter_path_dropped c res api_name (a : @api Schema) :
  (2 <= length (res_params res))%nat ->
  forall codes,
    check_codes send validate test_version c res codes api_name a = (c, [], Ok []).
Proof.
  intros Hlen codes.
  assert (Hc : forall code, check_api_resource send validate test_version c res code api_name a
                            = (c, [], Ok None)).
  { intros code. unfold check_api_resource, prepare.
    destruct (res_params res) as [|p [|p' ps]]; simpl in Hlen; try lia. reflexivity. }
  induction codes as [|code codes IH]; simpl; [reflexivity|].
  destruct (code =? 200)%Z; [|exact IH].
  now rewrite Hc, IH.
Qed.

(** ** Response validation *)

Lemma headers_get_mem k h : Headers.mem k h = true -> exists v, Headers.get k h = Ok v.
Proof.
  unfold Headers.mem, Headers.get. intros H.
  destruct (find (Headers.same_key k) h) as [item|] eqn:Hf; [eauto|].
  apply existsb_exists in H as (item & Hin & Hk).
  now rewrite (find_none _ _ Hf item Hin) in Hk.
Qed.

Lemma validate_CORS_without_allow_method method r :
  mutating method = true ->
  Headers.mem "Access-Control-Allow-Method" (headers r) = false ->
  validate_CORS method r = Ok false.
Proof.
  intros Hm Hmiss. unfold validate_CORS. fold (mutating method). rewrite Hm.
  destruct (Headers.mem "Access-Control-Allow-Origin" (headers r)); [|reflexivity]. simpl.
  destruct (Headers.mem "Access-Control-Allow-Headers" (headers r)) eqn:Hh; [|reflexivity]. simpl.
  destruct (headers_get_mem _ _ Hh) as [v ->]. simpl.
  destruct (PyStr.contains method v); [|reflexivity]. simpl.
  now rewrite Hmiss.
Qed.

(** The test on [Access-Control-Allow-Method] guards a lookup of
    [Access-Control-Allow-Methods]: a response with the first key and
    without the second makes [validate_CORS] raise. *)
Lemma validate_CORS_raises :
  validate_CORS "POST"
    (Response 200 [("Access-Control-Allow-Origin", "*");
                   ("Access-Control-Allow-Headers", "POST, Content-Type");
                   ("Access-Control-Allow-Method", "POST")] (Some (JArr [])))
  = Raise (KeyError "access-control-allow-methods").
Proof. reflexivity. Qed.

(** C6, as amended.  For a mutating method and a response that has neither
    an [Access-Control-Allow-Methods] header nor an
    [Access-Control-Allow-Method] one, [check_response] returns FAIL whatever
    the body, the status code and the schema are; the message is "Incorrect
    CORS headers: " followed by the headers that were received. *)
Theorem missing_allow_methods_fails test (a : @api Schema) method path r :
  mutating method = true ->
  Headers.mem "Access-Control-Allow-Methods" (headers r) = false ->
  Headers.mem "Access-Control-Allow-Method" (headers r) = false ->
  check_response validate test a method path r =
    Ok (Test.FAIL test ("Incorrect CORS headers: " +:+ Headers.to_str (headers r))).
Proof.
  intros Hm _ Hmiss. unfold check_response.
  now rewrite (validate_CORS_without_allow_method method r Hm Hmiss).
Qed.

(** C7, as amended.  When the headers are accepted, a schema is found and
    the body decodes but does not validate, [check_response] returns FAIL
    with the fixed message "Response schema validation error", whatever the
    validator's diagnostic is; a body that does not decode gives FAIL with
    "Invalid JSON received", a different message. *)
Theorem schema_failure_message test (a : @api Schema) method path r schema document diagnostic :
  validate_CORS method r = Ok true ->
  get_schema (api_spec a) method path (status_code r) = Some schema ->
  body r = Some document ->
  validate document schema = ValidationError diagnostic ->
  check_response validate test a method path r =
    Ok (Test.FAIL test "Response schema validation error") /\
  (forall r', validate_CORS method r' = Ok true ->
              get_schema (api_spec a) method path (status_code r') = Some schema ->
              body r' = None ->
              check_response validate test a method path r' =
                Ok (Test.FAIL test "Invalid JSON received")) /\
  "Response schema validation error" <> "Invalid JSON received".
Proof.
  intros Hc Hs Hb Hv. split; [|split].
  - unfold check_response. now rewrite Hc, Hs, Hb, Hv.
  - intros r' Hc' Hs' Hb'. unfold check_response. now rewrite Hc', Hs', Hb'.
  - discriminate.
Qed.

End CrawlerFacts.

Lemma first_entity_in_bounds_witness :
  reachable Examples.widgets_server Examples.object_only "v1.2" Examples.after_widgets /\
  nonempty_entries (saved_entities Examples.after_widgets) /\
  saved_entities Examples.after_widgets !! "/widgets" = Some [JStr "a"; JStr "b"].
Proof.
  assert (Hr : reachable Examples.widgets_server Examples.object_only "v1.2"
                 Examples.after_widgets).
  { unfold Examples.after_widgets. apply reach_check, reach_fresh. }
  split; [exact Hr|]. split; [|vm_compute; reflexivity].
  exact (proj1 (first_entity_in_bounds Examples.widgets_server Examples.object_only "v1.2"
                  Examples.after_widgets Hr)).
Defined.

Lemma single_parameter_path_witness :
  res_params Examples.one_widget = ["widgetId"] /\
  prepare "v1.2" (saved_entities Examples.seeded) Examples.one_widget "node" (Examples.node_api [])
    = Request "http://iut/x-nmos/node/v1.2/widgets/a" "GET /x-nmos/node/v1.2/widgets/a"
              [Substituted "/widgets/{widgetId}" (JStr "a")] /\
  saved_entities Examples.after_numbered !! "/widgets" = Some [JNum 7] /\
  check_api_resource (Examples.fixed_server Examples.numbered_list) Examples.object_only "v1.2"
    Examples.after_numbered Examples.one_widget 200 "node" (Examples.node_api [])
  = (Examples.after_numbered, [], Raise TypeError).
Proof.
  split; [reflexivity|].
  destruct (single_parameter_path Examples.widgets_server Examples.object_only "v1.2"
              Examples.seeded Examples.one_widget 200 "node" (Examples.node_api [])
              "widgetId" eq_refl) as (H & _ & _).
  destruct (H "a" [JStr "b"]) as [Hp _]; [vm_compute; reflexivity|].
  split; [exact Hp|].
  assert (Hl : saved_entities Examples.after_numbered !! collection_path (res_path Examples.one_widget)
               = Some [JNum 7]) by (vm_compute; reflexivity).
  split; [exact Hl|].
  destruct (single_parameter_path (Examples.fixed_server Examples.numbered_list)
              Examples.object_only "v1.2" Examples.after_numbered Examples.one_widget 200
              "node" (Examples.node_api []) "widgetId" eq_refl) as (_ & _ & Hraise).
  destruct (Hraise (JNum 7) [] Hl) as [Hc _]; [discriminate|].
  exact Hc.
Defined.

Lemma multi_parameter_path_dropped_witness :
  (2 <= length (res_params Examples.widget_part))%nat /\
  check_codes Examples.widgets_server Examples.object_only "v1.2" Examples.seeded
    Examples.widget_part [200%Z] "node" (Examples.node_api [Examples.widget_part])
  = (Examples.seeded, [], Ok []).
Proof.
  split; [simpl; lia|].
  apply (multi_parameter_path_dropped Examples.widgets_server Examples.object_only "v1.2").
  simpl. lia.
Defined.

Lemma missing_allow_methods_fails_witness :
  mutating "POST" = true /\
  Headers.mem "Access-Control-Allow-Methods" (headers Examples.post_without_allow_methods) = false /\
  Headers.mem "Access-Control-Allow-Method" (headers Examples.post_without_allow_methods) = false /\
  check_response Examples.object_only "POST /x" (Examples.node_api []) "POST" "/x"
    Examples.post_without_allow_methods
  = Ok (Test.FAIL "POST /x"
          "Incorrect CORS headers: {'Access-Control-Allow-Origin': '*', 'Access-Control-Allow-Headers': 'POST, Content-Type'}").
Proof.
  repeat (split; [reflexivity|]).
  apply (missing_allow_methods_fails Examples.object_only "POST /x" (Examples.node_api [])
           "POST" "/x" Examples.post_without_allow_methods); reflexivity.
Defined.

Lemma schema_failure_message_witness :
  validate_CORS "GET" Examples.get_empty_array = Ok true /\
  Examples.object_only (JArr []) tt = ValidationError "[] is not of type 'object'" /\
  check_response Examples.object_only "GET /x" (Examples.node_api []) "GET" "/x"
    Examples.get_empty_array
  = Ok (Test.FAIL "GET /x" "Response schema validation error").
Proof.
  split; [reflexivity|]. split; [reflexivity|].
  apply (schema_failure_message Examples.object_only "GET /x" (Examples.node_api []) "GET" "/x"
           Examples.get_empty_array tt (JArr []) "[] is not of type 'object'"); reflexivity.
Defined.

(** C6, the claim as stated fails: a POST response without the
    allow-methods header is failed with a message that does not name that
    header. *)
Lemma missing_header_not_named :
  ~ (Headers.mem "Access-Control-Allow-Methods" (headers Examples.post_without_allow_methods) = false ->
     exists failure,
       check_response Examples.object_only "POST /x" (Examples.node_api []) "POST" "/x"
         Examples.post_without_allow_methods = Ok failure /\
       state failure = Fail /\
       names_header "Allow-Methods" (detail failure) = true).
Proof.
  intros H. destruct (H eq_refl) as (failure & Hr & _ & Hn).
  vm_compute in Hr. injection Hr as <-. vm_compute in Hn. discriminate.
Qed.

(** C7, the claim as stated fails: the validator's diagnostic for an empty
    array is not in the message of the FAIL. *)
Lemma diagnostic_not_retained :
  ~ (forall diagnostic,
       Examples.object_only (JArr []) tt = ValidationError diagnostic ->
       exists failure,
         check_response Examples.object_only "GET /x" (Examples.node_api []) "GET" "/x"
           Examples.get_empty_array = Ok failure /\
         state failure = Fail /\
         PyStr.contains diagnostic (detail failure) = true).
Proof.
  intros H. destruct (H _ eq_refl) as (failure & Hr & _ & Hn).
  vm_compute in Hr. injection Hr as <-. vm_compute in Hn. discriminate.
Qed.

(** A crawl of the list of widgets and of one widget: the identifier put
    into the template comes from the list fetched just before. *)
Example crawl_of_widgets :
  (basics Examples.widgets_server Examples.object_only "http://iut" "v1.2" tt
     [("node", Examples.node_api [Examples.widgets; Examples.one_widget])]).1.2
  = [Harvested "/widgets" Examples.widget_list;
     Substituted "/widgets/{widgetId}" (JStr "a");
     Harvested "/widgets/{widgetId}" Examples.widget_a].
Proof. vm_compute. reflexivity. Qed.

(** A crawl of the list of widgets and of one widget against a server whose
    widgets carry a number as identifier: the number is harvested from the
    list, and the crawl ends with the exception of the substitution, with
    no outcome for any endpoint. *)
Example crawl_of_numbered_widgets :
  (basics (Examples.fixed_server Examples.numbered_list) Examples.object_only "http://iut"
     "v1.2" tt [("node", Examples.node_api [Examples.widgets; Examples.one_widget])])
  = (Examples.after_numbered, [Harvested "/widgets" Examples.numbered_list], Raise TypeError).
Proof. vm_compute. reflexivity. Qed.

(** A crawl of an API whose only read has two parameters reports the three
    base path checks and nothing else. *)
Example crawl_of_two_parameters :
  (basics Examples.widgets_server Examples.object_only "http://iut" "v1.2" tt
     [("node", Examples.node_api [Examples.widget_part])]).2
  = Ok [Test.FAIL "GET /" "Incorrect response code: 404";
        Test.FAIL "GET /x-nmos" "Incorrect response code: 404";
        Test.FAIL "GET /x-nmos/node" "Incorrect response code: 404"].
Proof. vm_compute. reflexivity. Qed.

End GenericTestFacts.


(** ** The IS-07-02 suite *)

Module IS0702TestFacts.

Import IS0702Test.

(** Two lists have the same sorted form exactly when one is a permutation
    of the other. *)
Lemma sorted_eq_iff l1 l2 : sorted l1 = sorted l2 <-> l1 ≡ₚ l2.
Proof.
  unfold sorted. split; intros H.
  - rewrite <- (merge_sort_Permutation String.le l1), H. apply merge_sort_Permutation.
  - apply (Sorted_unique String.le); try apply Sorted_merge_sort; try apply _.
    now rewrite !merge_sort_Permutation.
Qed.

Lemma ext_params_elem (fields : gmap string json) x :
  x ∈ List.filter (PyStr.startswith "ext_") (map_to_list fields).*1 <-> x ∈ ext_names fields.
Proof.
  unfold ext_names. rewrite list_elem_of_In, filter_In, <- list_elem_of_In.
  rewrite elem_of_filter, elem_of_dom.
  rewrite list_elem_of_fmap. split.
  - intros [([k v] & -> & Hkv) Hs]. apply elem_of_map_to_list in Hkv. simpl in *. eauto.
  - intros [Hs [v Hv]]. split; [|assumption]. exists (x, v). split; [reflexivity|].
    now apply elem_of_map_to_list.
Qed.

Lemma ext_params_NoDup (fields : gmap string json) :
  NoDup (List.filter (PyStr.startswith "ext_") (map_to_list fields).*1).
Proof. apply NoDup_ListNoDup, List.NoDup_filter, NoDup_ListNoDup, NoDup_fst_map_to_list. Qed.

(** On the keys of a dictionary, the comparison of sorted lists made by
    [test_01] is an equality of sets. *)
Lemma sorted_eq_set (fields : gmap string json) expected :
  NoDup expected ->
  sorted (List.filter (PyStr.startswith "ext_") (map_to_list fields).*1) = sorted expected <->
  ext_names fields = list_to_set expected.
Proof.
  intros Hnd. rewrite sorted_eq_iff. split.
  - intros Hp. apply set_eq. intros x. rewrite <- ext_params_elem, elem_of_list_to_set.
    now rewrite Hp.
  - intros Hs. apply NoDup_Permutation; [apply ext_params_NoDup|exact Hnd|].
    intros x. now rewrite ext_params_elem, Hs, elem_of_list_to_set.
Qed.

Lemma valid_params_iff transport_type (fields : gmap string json) :
  valid_params transport_type (List.filter (PyStr.startswith "ext_") (map_to_list fields).*1) = true
  <-> declared_ext_params transport_type = Some (ext_names fields).
Proof.
  unfold valid_params, declared_ext_params.
  destruct (String.eqb transport_type "urn:x-nmos:transport:websocket").
  - rewrite bool_decide_eq_true, sorted_eq_set.
    + unfold ext_params_websocket. simpl. rewrite (right_id_L ∅ (∪)). split; congruence.
    + apply NoDup_ListNoDup. repeat constructor; simpl; intuition discriminate.
  - destruct (String.eqb transport_type "urn:x-nmos:transport:mqtt"); [|split; discriminate].
    rewrite bool_decide_eq_true, sorted_eq_set.
    + unfold ext_params_mqtt. simpl. rewrite (right_id_L ∅ (∪)). split; congruence.
    + apply NoDup_ListNoDup. repeat constructor; simpl; intuition discriminate.
Qed.

(** What [set_up_tests] leaves in [senders_active]: senders of the
    Connection API, each with a dictionary as first leg and with a recorded
    transport type. *)
Lemma keep_active_legs checkCleanRequestJSON senders_active sender senders_active' :
  keep_active checkCleanRequestJSON senders_active sender = Ok senders_active' ->
  map_Forall (fun _ active => has_leg active) senders_active ->
  map_Forall (fun _ active => has_leg active) senders_active' /\
  dom senders_active' ⊆ {[sender]} ∪ dom senders_active.
Proof.
  unfold keep_active. destruct (checkCleanRequestJSON _) as [[] response];
    [|intros H; injection H as <-; split; [assumption|set_solver]].
  destruct (Py.len response) as [n|]; simpl; [|discriminate].
  destruct (0 <? n)%nat; [|intros H; injection H as <-; split; [assumption|set_solver]].
  destruct (Py.getitem response "transport_params") as [transport_params|] eqn:Hp;
    simpl; [|discriminate].
  destruct (Py.first transport_params) as [leg|] eqn:Hl; simpl; [|discriminate].
  destruct leg as [| | | | |fields]; simpl;
    try (intros H; injection H as <-; split; [assumption|set_solver]).
  intros H Hall. injection H as <-. split.
  - apply map_Forall_insert_2; [|assumption]. exists transport_params, fields. now split.
  - rewrite dom_insert_L. set_solver.
Qed.

Lemma set_senders_active_legs checkCleanRequestJSON is05_senders :
  forall senders_active result,
    set_senders_active checkCleanRequestJSON senders_active is05_senders = Ok result ->
    map_Forall (fun _ active => has_leg active) senders_active ->
    map_Forall (fun _ active => has_leg active) result /\
    dom result ⊆ list_to_set is05_senders ∪ dom senders_active.
Proof.
  induction is05_senders as [|sender rest IH]; intros senders_active result; simpl.
  - intros H Hall. injection H as <-. split; [assumption|set_solver].
  - destruct (keep_active checkCleanRequestJSON senders_active sender) as [next|] eqn:Hk;
      simpl; [|discriminate].
    intros H Hall. destruct (keep_active_legs _ _ _ _ Hk Hall) as [Hnext Hdom].
    destruct (IH next result H Hnext) as [Hres Hdom']. split; [assumption|].
    intros x Hx. apply Hdom' in Hx. simpl. apply elem_of_union in Hx as [Hx|Hx].
    + apply elem_of_union_l, elem_of_union_r. exact Hx.
    + apply Hdom in Hx. apply elem_of_union in Hx as [Hx|Hx].
      * apply elem_of_union_l, elem_of_union_l. exact Hx.
      * apply elem_of_union_r. exact Hx.
Qed.

Lemma set_transport_types_dom at_least_v1_1 get_transporttype is05_senders sender :
  sender ∈ is05_senders ->
  is_Some (set_transport_types at_least_v1_1 get_transporttype is05_senders !! sender).
Proof.
  unfold set_transport_types. generalize (∅ : gmap string string).
  assert (Hkeep : forall l (m : gmap string string),
             is_Some (m !! sender) ->
             is_Some (fold_left
                        (fun transport_types s =>
                           let transport_type :=
                             if at_least_v1_1 then get_transporttype s
                             else "urn:x-nmos:transport:rtp" in
                           <[s := transport_type]> transport_types) l m !! sender)).
  { induction l as [|s l IH]; intros m Hm; simpl; [assumption|].
    apply IH. destruct (decide (s = sender)) as [->|Hne].
    - rewrite lookup_insert_eq. eauto.
    - now rewrite lookup_insert_ne. }
  induction is05_senders as [|s rest IH]; intros m Hin.
  - apply elem_of_nil in Hin. contradiction.
  - simpl. apply elem_of_cons in Hin as [->|Hin].
    + apply Hkeep. rewrite lookup_insert_eq. eauto.
    + now apply IH.
Qed.

Section Test01Facts.

Variable senders_active : gmap string json.
Variable transport_types : gmap string string.

Lemma check_sender_failure test sender failure :
  check_sender senders_active transport_types test sender = Ok (Some failure) ->
  state failure = Fail.
Proof.
  unfold check_sender. destruct (senders_active !! sender) as [active|].
  - destruct (ext_params active) as [params|e]; simpl; [|discriminate].
    destruct (transport_types !! sender) as [transport_type|]; [|discriminate].
    destruct (valid_params transport_type params); simpl; [discriminate|].
    intros H. now injection H as <-.
  - intros H. now injection H as <-.
Qed.

Lemma check_senders_result test senders result :
  check_senders senders_active transport_types test senders = Ok result ->
  state result = Fail \/
  (forall sender, sender ∈ senders ->
     check_sender senders_active transport_types test sender = Ok None).
Proof.
  induction senders as [|s senders IH]; intros Hr.
  - right. intros sender Hin. apply elem_of_nil in Hin. contradiction.
  - simpl in Hr.
    destruct (check_sender senders_active transport_types test s) as [[failure|]|e] eqn:Hc;
      simpl in Hr; try discriminate.
    + injection Hr as <-. left. now apply check_sender_failure in Hc.
    + destruct (IH Hr) as [Hf|Hall]; [now left|right].
      intros sender Hin. apply elem_of_cons in Hin as [->|Hin]; [exact Hc|now apply Hall].
Qed.

Lemma check_senders_stop test before sender after failure :
  Forall (fun s => check_sender senders_active transport_types test s = Ok None) before ->
  check_sender senders_active transport_types test sender = Ok (Some failure) ->
  check_senders senders_active transport_types test (before ++ sender :: after) = Ok failure.
Proof.
  intros Hb Hs. induction Hb as [|s before Hc _ IH]; simpl.
  - now rewrite Hs.
  - now rewrite Hc.
Qed.

(** C9.  For a sender under test that is in [senders_active], with the
    dictionary [fields] as the first leg of its transport parameters and a
    recorded transport type: the sender passes exactly when the set of the
    names in [fields] that start with [ext_] is the set declared for the
    transport type (two names for websocket, one for mqtt, none declared for
    another type).  When it is not, [test_01] returns FAIL naming the sender
    as soon as the loop reaches it, and no list of senders that holds it
    gets another verdict than FAIL. *)
Theorem ext_parameters_exact test sender active transport_params fields transport_type :
  senders_active !! sender = Some active ->
  Py.getitem active "transport_params" = Ok transport_params ->
  Py.first transport_params = Ok (JObj fields) ->
  transport_types !! sender = Some transport_type ->
  (check_sender senders_active transport_types test sender = Ok None <->
   declared_ext_params transport_type = Some (ext_names fields)) /\
  (declared_ext_params transport_type <> Some (ext_names fields) ->
   (forall before after,
      Forall (fun s => check_sender senders_active transport_types test s = Ok None) before ->
      test_01 senders_active transport_types test (before ++ sender :: after) =
        Ok (Test.FAIL test ("Missing required ext parameters for Sender " +:+ sender))) /\
   (forall senders_to_test result,
      sender ∈ senders_to_test ->
      test_01 senders_active transport_types test senders_to_test = Ok result ->
      state result = Fail)).
Proof.
  intros Ha Htp Hleg Ht.
  assert (Hc : check_sender senders_active transport_types test sender =
               if valid_params transport_type
                    (List.filter (PyStr.startswith "ext_") (map_to_list fields).*1)
               then Ok None
               else Ok (Some (Test.FAIL test ("Missing required ext parameters for Sender " +:+ sender)))).
  { unfold check_sender, ext_params. rewrite Ha, Htp. simpl. rewrite Hleg. simpl. rewrite Ht.
    now destruct (valid_params _ _). }
  pose proof (valid_params_iff transport_type fields) as Hv.
  split.
  - rewrite Hc. destruct (valid_params _ _).
    + split; [intros _; now apply Hv|reflexivity].
    + split; [discriminate|]. intros Hd. apply Hv in Hd. discriminate.
  - intros Hbad.
    assert (Hf : check_sender senders_active transport_types test sender =
                 Ok (Some (Test.FAIL test ("Missing required ext parameters for Sender " +:+ sender)))).
    { rewrite Hc. destruct (valid_params _ _); [|reflexivity]. now destruct Hbad; apply Hv. }
    split.
    + intros before after Hb. unfold test_01.
      replace (0 <? length (before ++ sender :: after))%nat with true
        by (symmetry; apply Nat.ltb_lt; rewrite length_app; simpl; lia).
      now apply check_senders_stop.
    + intros senders_to_test result Hin Hr. unfold test_01 in Hr.
      destruct senders_to_test as [|s rest]; [apply elem_of_nil in Hin; contradiction|].
      change (0 <? length (s :: rest))%nat with true in Hr. cbv iota in Hr.
      destruct (check_senders_result test (s :: rest) result Hr) as [Hfail|Hall]; [exact Hfail|].
      rewrite (Hall sender Hin) in Hf. discriminate.
Qed.

End Test01Facts.

Lemma ext_parameters_exact_witness :
  Examples.senders_active !! "s2" = Some (Examples.active_with Examples.s2_params) /\
  Examples.transport_types !! "s2" = Some "urn:x-nmos:transport:mqtt" /\
  test_01 Examples.senders_active Examples.transport_types "test_01" ["s1"; "s2"] =
    Ok (Test.FAIL "test_01" "Missing required ext parameters for Sender s2").
Proof.
  split; [vm_compute; reflexivity|]. split; [vm_compute; reflexivity|].
  assert (Hbad : declared_ext_params "urn:x-nmos:transport:mqtt" <>
                 Some (ext_names (list_to_map (map (fun k => (k, JNull)) Examples.s2_params)))).
  { intros Heq. vm_compute in Heq. discriminate. }
  assert (Ha : Examples.senders_active !! "s2" = Some (Examples.active_with Examples.s2_params))
    by (vm_compute; reflexivity).
  assert (Ht : Examples.transport_types !! "s2" = Some "urn:x-nmos:transport:mqtt")
    by (vm_compute; reflexivity).
  assert (Hp : Py.getitem (Examples.active_with Examples.s2_params) "transport_params" =
               Ok (JArr [JObj (list_to_map (map (fun k => (k, JNull)) Examples.s2_params))]))
    by (vm_compute; reflexivity).
  destruct (ext_parameters_exact Examples.senders_active Examples.transport_types "test_01" "s2"
              _ _ _ _ Ha Hp eq_refl Ht) as [_ H].
  destruct (H Hbad) as [Hstop _].
  apply (Hstop ["s1"] []).
  constructor; [vm_compute; reflexivity|constructor].
Defined.

(** The websocket sender with its two parameters passes. *)
Example websocket_sender_passes :
  test_01 Examples.senders_active Examples.transport_types "test_01" ["s1"]
  = Ok (Test.PASS "test_01").
Proof. vm_compute. reflexivity. Qed.

Section Test04Facts.

Variable json_loads : string -> exc json.
Variable compare_resource_version : json -> string -> exc Z.
Variable py_str : json -> string.
Variable exn_str : exn -> string.

Ltac crunch H :=
  repeat match type of H with
         | context [match ?x with _ => _ end] =>
             destruct x eqn:?; simpl in H; try discriminate H
         end.

(** What the body of the [try] returns: a FAIL, or nothing when the reply
    echoes the timestamp and is later. *)
Lemma inspect_health_response_result test timestamp connection_uri raw result :
  inspect_health_response json_loads compare_resource_version py_str test timestamp connection_uri raw
    = Ok result ->
  match result with
  | Some failure => state failure = Fail
  | None => echoed_and_later json_loads compare_resource_version timestamp raw = true
  end.
Proof.
  unfold inspect_health_response, echoed_and_later, mbind, exc_bind. intros H.
  crunch H; injection H as <-; try reflexivity.
  repeat match goal with
         | Hn : negb _ = false |- _ => apply negb_false_iff in Hn
         end.
  apply andb_true_iff. split; assumption.
Qed.

Lemma check_health_messages_result test timestamp connection_uri messages :
  match check_health_messages json_loads compare_resource_version py_str exn_str
          test timestamp connection_uri messages with
  | Some failure => state failure = Fail
  | None =>
      exists raw, messages = [raw] /\
                  echoed_and_later json_loads compare_resource_version timestamp raw = true
  end.
Proof.
  destruct messages as [|raw [|raw' messages]]; simpl; try reflexivity.
  pose proof (inspect_health_response_result test timestamp connection_uri raw) as H.
  destruct (inspect_health_response _ _ _ _ _ _ _) as [[failure|]|e]; simpl.
  - exact (H _ eq_refl).
  - exists raw. split; [reflexivity|exact (H _ eq_refl)].
  - reflexivity.
Qed.

(** C3.  If a connection that was sent the health command has received no
    message, or more than one, or one message that does not both echo the
    timestamp of the command as its origin and carry a creation timestamp
    that [compare_resource_version] puts strictly after it, the heartbeat
    check returns FAIL. *)
Theorem heartbeat_reply_required test timestamp with_health connection_uri messages :
  In (connection_uri, messages) with_health ->
  length messages = 0%nat \/ (1 < length messages)%nat \/
  (exists raw, messages = [raw] /\
               echoed_and_later json_loads compare_resource_version timestamp raw = false) ->
  exists failure,
    check_health_replies json_loads compare_resource_version py_str exn_str
      test timestamp with_health = Some failure /\
    state failure = Fail.
Proof.
  intros Hin Hbad. induction with_health as [|[uri msgs] rest IH]; [destruct Hin|].
  simpl. pose proof (check_health_messages_result test timestamp uri msgs) as Hm.
  destruct (check_health_messages _ _ _ _ _ _ _ msgs) as [failure|]; [eauto|].
  destruct Hin as [Heq|Hin]; [|now apply IH].
  injection Heq as -> ->. destruct Hm as (raw & -> & Hok). exfalso.
  destruct Hbad as [Hlen|[Hlen|(raw' & Heq & Hno)]].
  - discriminate.
  - simpl in Hlen. lia.
  - injection Heq as <-. congruence.
Qed.

End Test04Facts.

Lemma heartbeat_reply_required_witness :
  echoed_and_later Examples.loads IS04Utils.compare_resource_version "1000:0" "early"
    = false /\
  exists failure,
    check_health_replies Examples.loads IS04Utils.compare_resource_version
      Examples.show_json Examples.show_exn
      "test_04" "1000:0" [("ws://iut/events", ["early"])] = Some failure /\
    state failure = Fail.
Proof.
  split; [vm_compute; reflexivity|].
  apply (heartbeat_reply_required Examples.loads IS04Utils.compare_resource_version
           Examples.show_json Examples.show_exn
           "test_04" "1000:0" [("ws://iut/events", ["early"])] "ws://iut/events" ["early"]).
  - left. reflexivity.
  - right. right. exists "early". split; [reflexivity|vm_compute; reflexivity].
Defined.

(** The reply with origin 1000 and creation 999 is failed on its creation
    timestamp. *)
Example early_reply_fails :
  check_health_replies Examples.loads IS04Utils.compare_resource_version
      Examples.show_json Examples.show_exn
    "test_04" "1000:0" [("ws://iut/events", ["early"])]
  = Some (Test.FAIL "test_04"
            ("WebSocket ws://iut/events health response creation_timestamp expected to"
             +:+ "be later than origin. creation_timestamp was 999:0")).
Proof. vm_compute. reflexivity. Qed.

(** A reply created after its origin lets the test go on, and a second
    message on the same connection does not. *)
Example timely_reply_passes :
  check_health_replies Examples.loads IS04Utils.compare_resource_version
      Examples.show_json Examples.show_exn
    "test_04" "1000:0" [("ws://iut/events", ["timely"])] = None /\
  check_health_replies Examples.loads IS04Utils.compare_resource_version
      Examples.show_json Examples.show_exn
    "test_04" "1000:0" [("ws://iut/events", ["timely"; "timely"])]
  = Some (Test.FAIL "test_04"
            ("WebSocket ws://iut/events responded with more than 1 message"
             +:+ "to the health command")).
Proof. split; vm_compute; reflexivity. Qed.

(** ** The window before the timeout *)

Lemma Qlt_b_true x y : Qlt_b x y = true <-> (x < y)%Q.
Proof.
  unfold Qlt_b. rewrite negb_true_iff. split.
  - intros H. apply Qnot_le_lt. intros Hle. apply Qle_bool_iff in Hle. congruence.
  - intros H. destruct (Qle_bool y x) eqn:E; [|reflexivity].
    apply Qle_bool_iff in E. exfalso. exact (Qlt_not_le _ _ H E).
Qed.

Lemma Qlt_b_false x y : Qlt_b x y = false <-> (y <= x)%Q.
Proof.
  unfold Qlt_b. rewrite negb_false_iff. apply Qle_bool_iff.
Qed.

(** Quiet passes do not end the loop. *)
Lemma stay_open_quiet test start_time is_open no_health before clock :
  Forall (quiet_pass start_time is_open no_health) before ->
  stay_open_without_health test start_time is_open no_health (before ++ clock) =
  stay_open_without_health test start_time is_open no_health clock.
Proof.
  induction 1 as [|t before [Ht Hopen] _ IH]; [reflexivity|]. simpl.
  apply Qlt_b_true in Ht. rewrite Ht.
  destruct (find _ no_health) as [uri|] eqn:Hf; [|exact IH].
  apply find_some in Hf as [Hin Hc]. rewrite (Hopen uri Hin) in Hc. discriminate.
Qed.

(** The connection that [find] returns is the first of the list that
    satisfies the test. *)
Lemma find_first {A} (f : A -> bool) l x :
  find f l = Some x ->
  exists earlier rest,
    l = earlier ++ x :: rest /\ Forall (fun y => f y = false) earlier /\ f x = true.
Proof.
  induction l as [|y l IH]; simpl; [discriminate|].
  destruct (f y) eqn:Hy.
  - intros H. injection H as <-. exists [], l. repeat split; [constructor|assumption].
  - intros H. destruct (IH H) as (earlier & rest & -> & Hall & Hx).
    exists (y :: earlier), rest. repeat split; [constructor|]; assumption.
Qed.

(** C4, as amended.  The loop that follows the heartbeat check runs while
    the clock reads less than [start_time + WS_TIMEOUT - 1], which is 11
    seconds after the start.  After any number of quiet passes, a pass made
    before that instant in which a connection of the cohort is not open
    ends the test with a FAIL that names the first such connection: the one
    found closed with every connection before it, in the order of the
    cohort, found open.  A reading at or after that instant ends the loop
    without a look at the connections. *)
Theorem pre_timeout_window test start_time is_open no_health before now later :
  Forall (quiet_pass start_time is_open no_health) before ->
  (start_time + WS_TIMEOUT - 1 == start_time + 11)%Q /\
  ((now < start_time + WS_TIMEOUT - 1)%Q ->
   forall connection_uri,
     In connection_uri no_health -> is_open connection_uri now = false ->
     exists earlier closed rest,
       no_health = earlier ++ closed :: rest /\
       Forall (fun open_uri => is_open open_uri now = true) earlier /\
       is_open closed now = false /\
       stay_open_without_health test start_time is_open no_health (before ++ now :: later) =
         Returned (Test.FAIL test ("WebSocket connection (no health cmd sent) to "
                                   +:+ closed +:+ " was closed too early"))) /\
  ((start_time + WS_TIMEOUT - 1 <= now)%Q ->
   stay_open_without_health test start_time is_open no_health (before ++ now :: later) =
     Elapsed later).
Proof.
  intros Hq. rewrite (stay_open_quiet _ _ _ _ _ _ Hq). split; [|split].
  - unfold WS_TIMEOUT. ring.
  - intros Hnow uri Hin Hclosed. simpl. apply Qlt_b_true in Hnow. rewrite Hnow.
    destruct (find (fun u => negb (is_open u now)) no_health) as [closed|] eqn:Hf.
    + apply find_first in Hf as (earlier & rest & Hsplit & Hopen & Hc).
      exists earlier, closed, rest. apply negb_true_iff in Hc.
      repeat split; try assumption.
      eapply Forall_impl; [exact Hopen|]. intros u Hu. now apply negb_false_iff in Hu.
    + pose proof (find_none _ _ Hf uri Hin) as Hc. simpl in Hc. rewrite Hclosed in Hc. discriminate.
  - intros Hnow. simpl. apply Qlt_b_false in Hnow. now rewrite Hnow.
Qed.

Lemma pre_timeout_window_witness :
  Forall (quiet_pass 0 Examples.closing_at_7 Examples.three_connections) [5%Q; 6%Q] /\
  Examples.closing_at_7 "ws://iut/a" 8 = true /\
  Examples.closing_at_7 "ws://iut/b" 8 = false /\
  Examples.closing_at_7 "ws://iut/c" 8 = false /\
  stay_open_without_health "test_04" 0 Examples.closing_at_7 Examples.three_connections
    [5%Q; 6%Q; 8%Q; 9%Q]
  = Returned (Test.FAIL "test_04"
                "WebSocket connection (no health cmd sent) to ws://iut/b was closed too early").
Proof.
  assert (Hq : Forall (quiet_pass 0 Examples.closing_at_7 Examples.three_connections)
                 [5%Q; 6%Q]).
  { repeat constructor; intros uri [<-|[<-|[<-|[]]]]; reflexivity. }
  split; [exact Hq|]. repeat (split; [reflexivity|]).
  destruct (pre_timeout_window "test_04" 0 Examples.closing_at_7 Examples.three_connections
              [5%Q; 6%Q] 8%Q [9%Q] Hq) as (_ & H & _).
  destruct (H eq_refl "ws://iut/c" (or_intror (or_intror (or_introl eq_refl))) eq_refl)
    as (earlier & closed & rest & Hsplit & Hopen & Hclosed & Hres).
  assert (Hb : closed = "ws://iut/b").
  { destruct earlier as [|e1 [|e2 [|e3 earlier]]].
    - injection Hsplit as <- _. discriminate.
    - injection Hsplit as _ <- _. reflexivity.
    - injection Hsplit as _ <- _. inversion Hopen as [|? ? _ Hopen']; subst.
      inversion Hopen' as [|? ? Hb _]; subst. discriminate.
    - injection Hsplit as _ _ _ Hnil. now destruct earlier. }
  now rewrite Hb in Hres.
Defined.

(** C4, the claim as stated fails: the window does not end one heartbeat
    interval before the timeout.  At 8 seconds, which is later than
    12 - 5 = 7, a closed connection still ends the test with a FAIL. *)
Lemma window_is_not_one_heartbeat_interval :
  ~ (forall test start_time is_open no_health now later,
       (start_time + (WS_TIMEOUT - WS_HEARTBEAT_INTERVAL) <= now)%Q ->
       stay_open_without_health test start_time is_open no_health (now :: later) = Elapsed later).
Proof.
  intros H.
  specialize (H "test_04" 0%Q (fun _ _ => false) ["ws://iut/events"] 8%Q []).
  assert (Hle : (0 + (WS_TIMEOUT - WS_HEARTBEAT_INTERVAL) <= 8)%Q) by (vm_compute; discriminate).
  specialize (H Hle). vm_compute in H. discriminate.
Qed.

End IS0702TestFacts.


(** ** More on the crawler and on the helpers of [GenericTest] *)

Module GenericTestMoreFacts.

Import GenericTest GenericTestHelpers.

(** *** CORS headers *)

Lemma headers_get_ok k h v : Headers.get k h = Ok v -> Headers.mem k h = true.
Proof.
  unfold Headers.mem, Headers.get.
  destruct (find (Headers.same_key k) h) as [item|] eqn:Hf; [|discriminate].
  intros _. apply find_some in Hf as [Hin Hk]. apply existsb_exists. eauto.
Qed.

Lemma headers_get_raise k h e :
  Headers.get k h = Raise e -> Headers.mem k h = false /\ e = KeyError (PyStr.lower k).
Proof.
  unfold Headers.mem, Headers.get.
  destruct (find (Headers.same_key k) h) as [item|] eqn:Hf; [discriminate|].
  intros H. injection H as <-. split; [|reflexivity].
  destruct (existsb (Headers.same_key k) h) eqn:He; [|reflexivity].
  apply existsb_exists in He as (item & Hin & Hk).
  now rewrite (find_none _ _ Hf item Hin) in Hk.
Qed.

(** X1. [validate_CORS] answers [True] exactly when the response has the
    header [Access-Control-Allow-Origin] and, for one of the methods OPTIONS,
    POST, PUT, PATCH and DELETE, the value of [Access-Control-Allow-Headers]
    contains the method, a header named [Access-Control-Allow-Method] is
    present, and the value of [Access-Control-Allow-Methods] contains the
    method. *)
Theorem validate_CORS_accepts method r :
  validate_CORS method r = Ok true <->
  Headers.mem "Access-Control-Allow-Origin" (headers r) = true /\
  (mutating method = true ->
   exists allowed_headers allowed_methods,
     Headers.get "Access-Control-Allow-Headers" (headers r) = Ok allowed_headers /\
     PyStr.contains method allowed_headers = true /\
     Headers.mem "Access-Control-Allow-Method" (headers r) = true /\
     Headers.get "Access-Control-Allow-Methods" (headers r) = Ok allowed_methods /\
     PyStr.contains method allowed_methods = true).
Proof.
  unfold validate_CORS. fold (mutating method).
  destruct (Headers.mem "Access-Control-Allow-Origin" (headers r)); simpl;
    [|split; [discriminate|intros [? _]; discriminate]].
  destruct (mutating method); [|split; [split; [reflexivity|discriminate]|reflexivity]].
  destruct (Headers.mem "Access-Control-Allow-Headers" (headers r)) eqn:Hh; simpl.
  - destruct (GenericTestFacts.headers_get_mem _ _ Hh) as [ah Hah]. rewrite Hah. simpl.
    destruct (PyStr.contains method ah) eqn:Hc; simpl.
    + destruct (Headers.mem "Access-Control-Allow-Method" (headers r)) eqn:Hm; simpl.
      * destruct (Headers.get "Access-Control-Allow-Methods" (headers r)) as [am|e] eqn:Ham; simpl.
        -- destruct (PyStr.contains method am) eqn:Hc'; simpl.
           ++ split; [|reflexivity]. intros _. split; [reflexivity|]. intros _.
              exists ah, am. auto.
           ++ split; [discriminate|]. intros [_ H].
              destruct (H eq_refl) as (ah' & am' & _ & _ & _ & Ham' & Hc''). congruence.
        -- split; [discriminate|]. intros [_ H].
           destruct (H eq_refl) as (ah' & am' & _ & _ & _ & Ham' & _). congruence.
      * split; [discriminate|]. intros [_ H].
        destruct (H eq_refl) as (ah' & am' & _ & _ & Hm' & _). congruence.
    + split; [discriminate|]. intros [_ H].
      destruct (H eq_refl) as (ah' & am' & Hah' & Hc' & _). congruence.
  - split; [discriminate|]. intros [_ H].
    destruct (H eq_refl) as (ah' & am' & Hah' & _). apply headers_get_ok in Hah'. congruence.
Qed.

(** X2. [validate_CORS] raises in one situation only: the method is one of
    the five, origin and allowed headers are accepted, the header
    [Access-Control-Allow-Method] is present and the header
    [Access-Control-Allow-Methods], the one that is read, is not.  The
    exception is the [KeyError] of the case-insensitive dictionary. *)
Theorem validate_CORS_raises_iff method r e :
  validate_CORS method r = Raise e <->
  e = KeyError "access-control-allow-methods" /\
  mutating method = true /\
  Headers.mem "Access-Control-Allow-Origin" (headers r) = true /\
  (exists allowed_headers,
     Headers.get "Access-Control-Allow-Headers" (headers r) = Ok allowed_headers /\
     PyStr.contains method allowed_headers = true) /\
  Headers.mem "Access-Control-Allow-Method" (headers r) = true /\
  Headers.mem "Access-Control-Allow-Methods" (headers r) = false.
Proof.
  unfold validate_CORS. fold (mutating method).
  destruct (Headers.mem "Access-Control-Allow-Origin" (headers r)); simpl;
    [|split; [discriminate|intros (_ & _ & ? & _); discriminate]].
  destruct (mutating method); [|split; [discriminate|intros (_ & ? & _); discriminate]].
  destruct (Headers.mem "Access-Control-Allow-Headers" (headers r)) eqn:Hh; simpl.
  - destruct (GenericTestFacts.headers_get_mem _ _ Hh) as [ah Hah]. rewrite Hah. simpl.
    destruct (PyStr.contains method ah) eqn:Hc; simpl.
    + destruct (Headers.mem "Access-Control-Allow-Method" (headers r)) eqn:Hm; simpl.
      * destruct (Headers.get "Access-Control-Allow-Methods" (headers r)) as [am|e'] eqn:Ham; simpl.
        -- apply headers_get_ok in Ham.
           destruct (PyStr.contains method am); (split; [discriminate|]);
             intros (_ & _ & _ & _ & _ & ?); congruence.
        -- apply headers_get_raise in Ham as [Hno ->]. split.
           ++ intros H. injection H as <-. repeat split; eauto.
           ++ intros (-> & _). reflexivity.
      * split; [discriminate|]. intros (_ & _ & _ & _ & ? & _). discriminate.
    + split; [discriminate|]. intros (_ & _ & _ & (ah' & Hah' & Hc') & _). congruence.
  - split; [discriminate|]. intros (_ & _ & _ & (ah' & Hah' & _) & _).
    apply headers_get_ok in Hah'. congruence.
Qed.

Lemma existsb_eq_str items s :
  existsb (fun x => Py.eq_str x s) items = true <-> JStr s ∈ items.
Proof.
  rewrite existsb_exists. split.
  - intros (x & Hin & Hx). destruct x; simpl in Hx; try discriminate.
    apply String.eqb_eq in Hx. subst. now apply list_elem_of_In.
  - intros Hin. exists (JStr s). split; [now apply list_elem_of_In|]. simpl. apply String.eqb_refl.
Qed.

Section MoreCrawlerFacts.

Context {World Schema : Type}.
Variable send : World -> string -> string -> World * http_reply.
Variable validate : json -> Schema -> validation.
Variables base_url test_version : string.

(** X3. [check_base_path] passes exactly when the request is answered with
    status 200, the header [Access-Control-Allow-Origin], and a JSON array
    that has the expected string among its elements. *)
Theorem check_base_path_passes w path expectation :
  (check_base_path send base_url w path expectation).2 = Ok (Test.PASS ("GET " +:+ path)) <->
  exists req items,
    (send w "GET" (base_url +:+ path)).2 = Replied req /\
    status_code req = 200%Z /\
    Headers.mem "Access-Control-Allow-Origin" (headers req) = true /\
    body req = Some (JArr items) /\
    JStr expectation ∈ items.
Proof.
  unfold check_base_path.
  destruct (send w "GET" (base_url +:+ path)) as [w' [req| | |msg]]; simpl;
    try (split; [discriminate|intros (? & ? & ? & _); discriminate]).
  destruct (status_code req =? 200)%Z eqn:Hs; simpl.
  - apply Z.eqb_eq in Hs. unfold validate_CORS. simpl.
    destruct (Headers.mem "Access-Control-Allow-Origin" (headers req)) eqn:Ho; simpl.
    + destruct (body req) as [[| | | |items|]|] eqn:Hb;
        try (split; [discriminate|intros (? & ? & Hr & _ & _ & Hb' & _); injection Hr as <-; congruence]).
      destruct (existsb (fun x => Py.eq_str x expectation) items) eqn:He.
      * split; [|reflexivity]. intros _. exists req, items.
        repeat split; auto. now apply existsb_eq_str.
      * split; [discriminate|]. intros (req' & items' & Hr & _ & _ & Hb' & Hin).
        injection Hr as <-. rewrite Hb in Hb'. injection Hb' as <-.
        apply existsb_eq_str in Hin. congruence.
    + split; [discriminate|]. intros (req' & items' & Hr & _ & Ho' & _).
      injection Hr as <-. congruence.
  - split; [discriminate|]. intros (req' & items' & Hr & Hs' & _).
    injection Hr as <-. apply Z.eqb_neq in Hs. contradiction.
Qed.

(** X4. The verdicts of [check_response]: PASS exactly when the CORS headers
    are accepted, a schema is found and the body is a document that is valid
    against it; MANUAL with the fixed message exactly when the headers are
    accepted and no schema is found; and an exception escapes exactly when
    [validate_CORS] raises it or the validator raises something other than a
    validation error. *)
Theorem check_response_verdicts test (a : @api Schema) method path r :
  (check_response validate test a method path r = Ok (Test.PASS test) <->
   validate_CORS method r = Ok true /\
   exists schema document,
     get_schema (api_spec a) method path (status_code r) = Some schema /\
     body r = Some document /\ validate document schema = Valid) /\
  (check_response validate test a method path r =
     Ok (Test.MANUAL test "Test suite unable to locate schema") <->
   validate_CORS method r = Ok true /\
   get_schema (api_spec a) method path (status_code r) = None) /\
  (forall e, check_response validate test a method path r = Raise e <->
     validate_CORS method r = Raise e \/
     (validate_CORS method r = Ok true /\
      exists schema document,
        get_schema (api_spec a) method path (status_code r) = Some schema /\
        body r = Some document /\ validate document schema = SchemaFault e)).
Proof.
  unfold check_response.
  destruct (validate_CORS method r) as [[]|e0]; simpl.
  - destruct (get_schema (api_spec a) method path (status_code r)) as [schema|].
    + destruct (body r) as [document|].
      * destruct (validate document schema) as [|d|e1] eqn:Hv.
        -- split; [|split].
           ++ split; [|reflexivity]. intros _. split; [reflexivity|]. exists schema, document. auto.
           ++ split; [discriminate|]. intros [_ ?]. discriminate.
           ++ intros e. split; [discriminate|].
              intros [?|[_ (s' & d' & Hs & Hb & Hv')]]; [discriminate|]. congruence.
        -- split; [|split].
           ++ split; [discriminate|]. intros [_ (s' & d' & Hs & Hb & Hv')]. congruence.
           ++ split; [discriminate|]. intros [_ ?]. discriminate.
           ++ intros e. split; [discriminate|].
              intros [?|[_ (s' & d' & Hs & Hb & Hv')]]; [discriminate|]. congruence.
        -- split; [|split].
           ++ split; [discriminate|]. intros [_ (s' & d' & Hs & Hb & Hv')]. congruence.
           ++ split; [discriminate|]. intros [_ ?]. discriminate.
           ++ intros e. split.
              ** intros H. injection H as <-. right. split; [reflexivity|].
                 exists schema, document. auto.
              ** intros [?|[_ (s' & d' & Hs & Hb & Hv')]]; [discriminate|]. congruence.
      * split; [|split].
        -- split; [discriminate|]. intros [_ (s' & d' & _ & ? & _)]. discriminate.
        -- split; [discriminate|]. intros [_ ?]. discriminate.
        -- intros e. split; [discriminate|].
           intros [?|[_ (s' & d' & _ & ? & _)]]; discriminate.
    + split; [|split].
      * split; [discriminate|]. intros [_ (s' & d' & ? & _)]. discriminate.
      * split; [|reflexivity]. intros _. split; reflexivity.
      * intros e. split; [discriminate|].
        intros [?|[_ (s' & d' & ? & _)]]; discriminate.
  - split; [|split].
    + split; [discriminate|]. intros [? _]. discriminate.
    + split; [discriminate|]. intros [? _]. discriminate.
    + intros e. split; [discriminate|]. intros [?|[? _]]; discriminate.
  - split; [|split].
    + split; [discriminate|]. intros [? _]. discriminate.
    + split; [discriminate|]. intros [? _]. discriminate.
    + intros e. split.
      * intros H. injection H as <-. now left.
      * intros [H|[? _]]; [now injection H as <-|discriminate].
Qed.



Lemma grown_refl saved : grown saved saved.
Proof. intros path ids H. exists ids. split; [assumption|reflexivity]. Qed.

Lemma grown_trans s1 s2 s3 : grown s1 s2 -> grown s2 s3 -> grown s1 s3.
Proof.
  intros H12 H23 path ids H. destruct (H12 path ids H) as (ids2 & H2 & Hp2).
  destruct (H23 path ids2 H2) as (ids3 & H3 & Hp3). exists ids3. split; [assumption|].
  now transitivity ids2.
Qed.

Lemma check_api_resource_grown c res code api_name a :
  grown (saved_entities c)
        (saved_entities (check_api_resource send validate test_version c res code api_name a).1.1).
Proof.
  unfold check_api_resource.
  destruct (prepare test_version (saved_entities c) res api_name a) as [url test picked|result];
    [|apply grown_refl].
  destruct (GenericTest.do_request send (world c) (res_method res) url) as [w' [r|msg]]; simpl;
    [|apply grown_refl].
  destruct (status_code r =? code)%Z; simpl; [|apply grown_refl].
  intros path ids. apply GenericTestFacts.save_subresources_keeps.
Qed.

Lemma check_codes_grown res api_name a codes : forall c,
  grown (saved_entities c)
        (saved_entities (check_codes send validate test_version c res codes api_name a).1.1).
Proof.
  induction codes as [|code codes IH]; intros c; simpl; [apply grown_refl|].
  destruct (code =? 200)%Z; [|apply IH].
  pose proof (check_api_resource_grown c res code api_name a) as H1.
  destruct (check_api_resource send validate test_version c res code api_name a)
    as [[c1 ev1] [result|e]]; simpl in H1; [|exact H1].
  specialize (IH c1).
  destruct (check_codes send validate test_version c1 res codes api_name a) as [[c2 ev2] rs].
  simpl in *. now apply (grown_trans _ (saved_entities c1)).
Qed.

Lemma check_reads_grown api_name a reads : forall c,
  grown (saved_entities c)
        (saved_entities (check_reads send validate test_version c reads api_name a).1.1).
Proof.
  induction reads as [|res reads IH]; intros c; simpl; [apply grown_refl|].
  pose proof (check_codes_grown res api_name a (res_responses res) c) as H1.
  destruct (check_codes send validate test_version c res (res_responses res) api_name a)
    as [[c1 ev1] [results|e]]; simpl in H1; [|exact H1].
  specialize (IH c1).
  destruct (check_reads send validate test_version c1 reads api_name a) as [[c2 ev2] rs].
  simpl in *. now apply (grown_trans _ (saved_entities c1)).
Qed.

(** X5. A crawl only appends to the identifier cache: whatever the server
    answers, every entry that [saved_entities] holds is still there after
    [basics], at the front of the list then filed under the same path. *)
Theorem crawl_only_appends apis : forall c,
  grown (saved_entities c)
        (saved_entities (basics_from send validate base_url test_version c apis).1.1).
Proof.
  induction apis as [|[api_name a] apis IH]; intros c; simpl; [apply grown_refl|].
  destruct (check_base_paths send base_url test_version (world c) api_name) as [w1 [results0|e]];
    [|apply grown_refl].
  pose proof (check_reads_grown api_name a (get_reads (api_spec a))
                (Crawler w1 (saved_entities c))) as H1.
  destruct (check_reads send validate test_version (Crawler w1 (saved_entities c))
              (get_reads (api_spec a)) api_name a)
    as [[c1 ev1] [results|e]]; simpl in H1; [|exact H1].
  specialize (IH c1).
  destruct (basics_from send validate base_url test_version c1 apis) as [[c2 ev2] rs].
  simpl in *. now apply (grown_trans _ (saved_entities c1)).
Qed.



Lemma save_subresources_keys saved path r other :
  is_Some (save_subresources saved path r !! other) ->
  is_Some (saved !! other) \/ other = path.
Proof.
  destruct (decide (other = path)) as [->|Hne]; [now right|].
  rewrite GenericTestFacts.save_subresources_other by assumption. now left.
Qed.

Lemma check_api_resource_keys c res code api_name a path :
  is_Some (saved_entities (check_api_resource send validate test_version c res code api_name a).1.1
           !! path) ->
  is_Some (saved_entities c !! path) \/
  (path = res_path res /\ (length (res_params res) <= 1)%nat).
Proof.
  unfold check_api_resource.
  destruct (prepare test_version (saved_entities c) res api_name a)
    as [url test picked|result] eqn:Hp; [|now left].
  assert (Hlen : (length (res_params res) <= 1)%nat).
  { unfold prepare in Hp. destruct (res_params res) as [|p [|p' ps]]; simpl; try lia.
    discriminate. }
  destruct (GenericTest.do_request send (world c) (res_method res) url) as [w' [r|msg]]; simpl;
    [|now left].
  destruct (status_code r =? code)%Z; simpl; [|now left].
  intros H. apply save_subresources_keys in H as [H| ->]; [now left|now right].
Qed.

Lemma check_codes_keys res api_name a codes path : forall c,
  is_Some (saved_entities (check_codes send validate test_version c res codes api_name a).1.1
           !! path) ->
  is_Some (saved_entities c !! path) \/
  (path = res_path res /\ (length (res_params res) <= 1)%nat /\ In 200%Z codes).
Proof.
  induction codes as [|code codes IH]; intros c; simpl; [now left|].
  destruct (code =? 200)%Z eqn:Hc.
  - apply Z.eqb_eq in Hc. subst code.
    pose proof (check_api_resource_keys c res 200 api_name a path) as H1.
    destruct (check_api_resource send validate test_version c res 200 api_name a)
      as [[c1 ev1] [result|e]]; simpl in H1.
    + specialize (IH c1).
      destruct (check_codes send validate test_version c1 res codes api_name a) as [[c2 ev2] rs].
      simpl in *. intros H. destruct (IH H) as [H'|(-> & Hl & _)].
      * destruct (H1 H') as [?|[-> Hl]]; [now left|right; auto].
      * right. auto.
    + simpl. intros H. destruct (H1 H) as [?|[-> Hl]]; [now left|right; auto].
  - intros H. destruct (IH c H) as [?|(-> & Hl & Hin)]; [now left|right; auto].
Qed.

Lemma check_reads_keys api_name a reads path : forall c,
  is_Some (saved_entities (check_reads send validate test_version c reads api_name a).1.1
           !! path) ->
  is_Some (saved_entities c !! path) \/
  exists res, In res reads /\ res_path res = path /\
              In 200%Z (res_responses res) /\ (length (res_params res) <= 1)%nat.
Proof.
  induction reads as [|res reads IH]; intros c; simpl; [now left|].
  pose proof (check_codes_keys res api_name a (res_responses res) path c) as H1.
  destruct (check_codes send validate test_version c res (res_responses res) api_name a)
    as [[c1 ev1] [results|e]]; simpl in H1.
  - specialize (IH c1).
    destruct (check_reads send validate test_version c1 reads api_name a) as [[c2 ev2] rs].
    simpl in *. intros H. destruct (IH H) as [H'|(res' & Hin & Hrest)].
    + destruct (H1 H') as [?|(-> & Hl & H200)]; [now left|right].
      exists res. auto.
    + right. exists res'. auto.
  - simpl. intros H. destruct (H1 H) as [?|(-> & Hl & H200)]; [now left|right].
    exists res. auto.
Qed.

Lemma basics_from_keys apis path : forall c,
  is_Some (saved_entities (basics_from send validate base_url test_version c apis).1.1 !! path) ->
  is_Some (saved_entities c !! path) \/ fetchable apis path.
Proof.
  induction apis as [|[api_name a] apis IH]; intros c; simpl; [now left|].
  destruct (check_base_paths send base_url test_version (world c) api_name) as [w1 [results0|e]];
    [|now left].
  pose proof (check_reads_keys api_name a (get_reads (api_spec a)) path
                (Crawler w1 (saved_entities c))) as H1.
  assert (Hhere : forall res, In res (get_reads (api_spec a)) -> res_path res = path ->
                    In 200%Z (res_responses res) -> (length (res_params res) <= 1)%nat ->
                    fetchable ((api_name, a) :: apis) path).
  { intros res ? ? ? ?. exists api_name, a, res. repeat split; auto. now left. }
  assert (Hthere : fetchable apis path -> fetchable ((api_name, a) :: apis) path).
  { intros (n' & a' & res & Hin & Hrest). exists n', a', res. split; [now right|exact Hrest]. }
  destruct (check_reads send validate test_version (Crawler w1 (saved_entities c))
              (get_reads (api_spec a)) api_name a)
    as [[c1 ev1] [results|e]]; simpl in H1.
  - specialize (IH c1).
    destruct (basics_from send validate base_url test_version c1 apis) as [[c2 ev2] rs].
    simpl in *. intros H. destruct (IH H) as [H'|Hf]; [|right; auto].
    destruct (H1 H') as [?|(res & Hin & Hp & H200 & Hl)]; [now left|right; eauto].
  - simpl. intros H. destruct (H1 H) as [?|(res & Hin & Hp & H200 & Hl)]; [now left|right; eauto].
Qed.

(** X6. After [basics] from the empty cache, every key of [saved_entities]
    is the path template of a declared read that asks for a 200 and has at
    most one parameter. *)
Theorem cache_keys_are_declared_paths (w : World) apis path :
  is_Some (saved_entities (basics send validate base_url test_version w apis).1.1 !! path) ->
  fetchable apis path.
Proof.
  unfold basics. intros H. destruct (basics_from_keys apis path _ H) as [Hs|Hf]; [|exact Hf].
  simpl in Hs. rewrite lookup_empty in Hs. now destruct Hs.
Qed.

(** X7. Identifiers are harvested before the response is validated: when a
    resource without parameters is answered with the expected status and the
    CORS headers are refused, [check_api_resource] reports the FAIL and the
    cache has nevertheless been updated by [save_subresources] from that
    response. *)
Theorem harvest_precedes_validation c res code api_name (a : @api Schema) r :
  res_params res = [] ->
  (send (world c) (res_method res) (PyStr.rstrip "/" (api_url a) +:+ res_path res)).2 = Replied r ->
  status_code r = code ->
  validate_CORS (res_method res) r = Ok false ->
  saved_entities (check_api_resource send validate test_version c res code api_name a).1.1
    = save_subresources (saved_entities c) (res_path res) r /\
  (check_api_resource send validate test_version c res code api_name a).2
    = Ok (Some (Test.FAIL (test_name test_version res api_name (res_path res))
                          ("Incorrect CORS headers: " +:+ Headers.to_str (headers r)))).
Proof.
  intros Hp Hr Hs Hc. unfold check_api_resource, prepare, GenericTest.do_request. rewrite Hp.
  destruct (send (world c) (res_method res) (PyStr.rstrip "/" (api_url a) +:+ res_path res))
    as [w' reply]. simpl in Hr. subst reply.
  apply Z.eqb_eq in Hs. rewrite Hs. simpl. split; [reflexivity|].
  unfold check_response. now rewrite Hc.
Qed.

Lemma check_codes_count res api_name a codes : forall c results,
  (check_codes send validate test_version c res codes api_name a).2 = Ok results ->
  (length results <=
   length (List.filter (fun response_code => (response_code =? 200)%Z) codes))%nat.
Proof.
  induction codes as [|code codes IH]; intros c results; cbn [check_codes List.filter].
  - intros H. injection H as <-. simpl. lia.
  - destruct (code =? 200)%Z; [|apply IH].
    destruct (check_api_resource send validate test_version c res code api_name a)
      as [[c1 ev1] [result|e]]; [|discriminate].
    specialize (IH c1).
    destruct (check_codes send validate test_version c1 res codes api_name a) as [[c2 ev2] [rs|e]];
      [|discriminate].
    cbn. intros H. injection H as <-. specialize (IH rs eq_refl).
    rewrite length_app. destruct result; simpl in *; lia.
Qed.

Lemma check_reads_count api_name a reads : forall c results,
  (check_reads send validate test_version c reads api_name a).2 = Ok results ->
  (length results <= list_sum (map asks_200 reads))%nat.
Proof.
  induction reads as [|res reads IH]; intros c results; cbn [check_reads map list_sum].
  - intros H. injection H as <-. simpl. lia.
  - pose proof (check_codes_count res api_name a (res_responses res) c) as H1.
    fold (asks_200 res) in H1.
    destruct (check_codes send validate test_version c res (res_responses res) api_name a)
      as [[c1 ev1] [results1|e]]; [|discriminate].
    specialize (IH c1).
    destruct (check_reads send validate test_version c1 reads api_name a) as [[c2 ev2] [rs|e]];
      [|discriminate].
    cbn. intros H. injection H as <-. specialize (IH rs eq_refl). specialize (H1 results1 eq_refl).
    rewrite length_app. unfold list_sum in *. simpl in *. lia.
Qed.

Lemma check_base_paths_count w api_name results :
  (check_base_paths send base_url test_version w api_name).2 = Ok results ->
  length results = 3%nat.
Proof.
  unfold check_base_paths.
  destruct (check_base_path send base_url w "/" "x-nmos/") as [w1 [o1|e]]; [|discriminate].
  destruct (check_base_path send base_url w1 "/x-nmos" (api_name +:+ "/")) as [w2 [o2|e]];
    [|discriminate].
  destruct (check_base_path send base_url w2 ("/x-nmos/" +:+ api_name) (test_version +:+ "/"))
    as [w3 [o3|e]]; simpl; [|discriminate].
  intros H. now injection H as <-.
Qed.

(** X8. [basics] reports three outcomes per API for the base paths, and at
    most one more for each response code 200 among the declared reads: no
    outcome is reported twice and none for another response code. *)
Theorem basics_outcome_count apis : forall c results,
  (basics_from send validate base_url test_version c apis).2 = Ok results ->
  (3 * length apis <= length results <= 3 * length apis + declared_200 apis)%nat.
Proof.
  induction apis as [|[api_name a] apis IH]; intros c results.
  - intros H. injection H as <-. unfold declared_200. simpl. lia.
  - cbn [basics_from].
    pose proof (check_base_paths_count (world c) api_name) as H0.
    destruct (check_base_paths send base_url test_version (world c) api_name)
      as [w1 [results0|e]]; [|discriminate].
    pose proof (check_reads_count api_name a (get_reads (api_spec a))
                  (Crawler w1 (saved_entities c))) as H1.
    destruct (check_reads send validate test_version (Crawler w1 (saved_entities c))
                (get_reads (api_spec a)) api_name a)
      as [[c1 ev1] [results1|e]]; [|discriminate].
    specialize (IH c1).
    destruct (basics_from send validate base_url test_version c1 apis) as [[c2 ev2] [rs|e]];
      [|discriminate].
    cbn. intros H. injection H as <-.
    specialize (IH rs eq_refl). specialize (H0 results0 eq_refl). specialize (H1 results1 eq_refl).
    rewrite !length_app. unfold declared_200, list_sum in *. simpl in *. lia.
Qed.

End MoreCrawlerFacts.

(** *** Paths *)

Lemma str_app_nil_r s : s +:+ EmptyString = s.
Proof. induction s as [|c s IH]; [reflexivity|]. rewrite GenericTestFacts.str_app_cons. now f_equal. Qed.

Lemma str_app_assoc a b c : (a +:+ b) +:+ c = a +:+ (b +:+ c).
Proof.
  induction a as [|x a IH]; [reflexivity|].
  rewrite !GenericTestFacts.str_app_cons. now f_equal.
Qed.

Lemma split_nonempty sep s : PyStr.split sep s <> [].
Proof.
  destruct s as [|c s]; simpl; [discriminate|].
  destruct (Ascii.eqb c sep); [discriminate|].
  destruct (PyStr.split sep s); discriminate.
Qed.

(** Splitting at a separator splits the list of parts. *)
Lemma split_app sep a b :
  PyStr.split sep (a +:+ String sep b) = PyStr.split sep a ++ PyStr.split sep b.
Proof.
  induction a as [|c a IH].
  - rewrite GenericTestFacts.str_app_nil. simpl. now rewrite Ascii.eqb_refl.
  - rewrite GenericTestFacts.str_app_cons. simpl. destruct (Ascii.eqb c sep).
    + now rewrite IH.
    + rewrite IH. pose proof (split_nonempty sep a) as Hne.
      destruct (PyStr.split sep a) as [|h t]; [contradiction|reflexivity].
Qed.

Lemma mem_char_cons c d s :
  PyStr.mem_char c (String d s) = Ascii.eqb c d || PyStr.mem_char c s.
Proof. reflexivity. Qed.

Lemma split_free sep s : free_of sep s -> PyStr.split sep s = [s].
Proof.
  unfold free_of. induction s as [|c s IH]; [reflexivity|].
  rewrite mem_char_cons. intros H. apply orb_false_iff in H as [Hc Hs].
  simpl. rewrite Ascii.eqb_sym, Hc. now rewrite (IH Hs).
Qed.

Lemma split_segments segment rest :
  free_of "/" segment -> Forall plain_segment rest ->
  PyStr.split "/" (segment +:+ path_of rest) = segment :: rest.
Proof.
  intros Hs Hrest. revert segment Hs. induction Hrest as [|s rest [_ [Hfree _]] _ IH];
    intros segment Hs.
  - simpl. rewrite str_app_nil_r. now apply split_free.
  - cbn [path_of]. change ("/" +:+ s +:+ path_of rest) with (String "/" (s +:+ path_of rest)).
    rewrite split_app, (split_free "/" segment Hs). simpl. f_equal. now apply IH.
Qed.

Lemma split_path_of segments :
  Forall plain_segment segments ->
  PyStr.split "/" (path_of segments) = EmptyString :: segments.
Proof.
  intros H. change (path_of segments) with (EmptyString +:+ path_of segments).
  now apply split_segments.
Qed.

Lemma join_parts_plain segments : forall path,
  Forall plain_segment segments ->
  forall more, join_parts (segments ++ more) path = join_parts more (path +:+ path_of segments).
Proof.
  induction segments as [|s segments IH]; intros path H more.
  - simpl. now rewrite str_app_nil_r.
  - inversion H as [|? ? [Hne [_ Hst]] Hrest]; subst. simpl. rewrite Hst.
    destruct s as [|c s]; [contradiction|]. cbn [PyStr.is_empty].
    rewrite (IH _ Hrest). f_equal.
    change ("/" +:+ String c s +:+ path_of segments)
      with (String "/" EmptyString +:+ (String c s +:+ path_of segments)).
    now rewrite !str_app_assoc.
Qed.

Lemma collection_path_parameter segments rest :
  Forall plain_segment segments ->
  collection_path (path_of segments +:+ "/{" +:+ rest) = path_of segments.
Proof.
  intros H. unfold collection_path.
  change ("/{" +:+ rest) with (String "/" (String "{" rest)).
  rewrite split_app, (split_path_of _ H). simpl.
  rewrite (join_parts_plain _ _ H). rewrite GenericTestFacts.str_app_nil.
  destruct (PyStr.split "/" rest) as [|h t] eqn:Hsp.
  - now apply split_nonempty in Hsp.
  - cbn [join_parts]. unfold PyStr.startswith. simpl. now destruct h.
Qed.

(** X9. The collection path that [check_api_resource] computes from a
    template is the template up to its first parameter: a path of plain
    segments is its own collection path, and so is the collection path of
    any template that continues it with a parameter. *)
Theorem collection_path_of_template segments :
  Forall plain_segment segments ->
  collection_path (path_of segments) = path_of segments /\
  forall rest, collection_path (path_of segments +:+ "/{" +:+ rest) = path_of segments.
Proof.
  intros H. split.
  - unfold collection_path. rewrite (split_path_of _ H). simpl.
    pose proof (join_parts_plain segments EmptyString H []) as Hj.
    rewrite app_nil_r in Hj. rewrite Hj. reflexivity.
  - intros rest. now apply collection_path_parameter.
Qed.


(** *** Substitution *)

Lemma prefix_brace_other old_rest c s :
  Ascii.eqb c "{" = false -> String.prefix (String "{" old_rest) (String c s) = false.
Proof.
  intros H. cbn [String.prefix]. destruct (ascii_dec "{" c) as [<-|_]; [|reflexivity].
  rewrite Ascii.eqb_refl in H. discriminate.
Qed.

Lemma replace_from_free old_rest new s :
  free_of "{" s -> PyStr.replace_from (String "{" old_rest) new 0 s = s.
Proof.
  unfold free_of. induction s as [|c s IH]; [reflexivity|].
  rewrite mem_char_cons. intros H. apply orb_false_iff in H as [Hc Hs].
  cbn [PyStr.replace_from]. rewrite prefix_brace_other by (now rewrite Ascii.eqb_sym).
  now rewrite (IH Hs).
Qed.

Lemma replace_from_before old_rest new before s :
  free_of "{" before ->
  PyStr.replace_from (String "{" old_rest) new 0 (before +:+ s) =
  before +:+ PyStr.replace_from (String "{" old_rest) new 0 s.
Proof.
  unfold free_of. induction before as [|c before IH]; [reflexivity|].
  rewrite mem_char_cons. intros H. apply orb_false_iff in H as [Hc Hs].
  rewrite !GenericTestFacts.str_app_cons. cbn [PyStr.replace_from].
  rewrite prefix_brace_other by (now rewrite Ascii.eqb_sym).
  now rewrite (IH Hs).
Qed.

Lemma replace_from_skip old new t s :
  PyStr.replace_from old new (String.length t) (t +:+ s) = PyStr.replace_from old new 0 s.
Proof.
  induction t as [|c t IH]; [reflexivity|].
  rewrite GenericTestFacts.str_app_cons. simpl. exact IH.
Qed.

Lemma prefix_app old s : String.prefix old (old +:+ s) = true.
Proof.
  induction old as [|c old IH]; [now destruct s|].
  rewrite GenericTestFacts.str_app_cons. cbn [String.prefix].
  destruct (ascii_dec c c) as [_|Hne]; [exact IH|contradiction].
Qed.

Lemma replace_braces name id before after :
  free_of "{" before -> free_of "{" after ->
  PyStr.replace ("{" +:+ name +:+ "}") id (before +:+ "{" +:+ name +:+ "}" +:+ after)
  = before +:+ id +:+ after.
Proof.
  intros Hb Ha. unfold PyStr.replace.
  change ("{" +:+ name +:+ "}") with (String "{" (name +:+ "}")).
  change (before +:+ "{" +:+ name +:+ "}" +:+ after)
    with (before +:+ String "{" (name +:+ "}" +:+ after)).
  rewrite (replace_from_before _ _ _ _ Hb). f_equal.
  cbn [PyStr.replace_from].
  assert (Hp : String.prefix (String "{" (name +:+ "}")) (String "{" (name +:+ "}" +:+ after)) = true).
  { rewrite <- (str_app_assoc name "}" after).
    change (String "{" ((name +:+ "}") +:+ after)) with (String "{" (name +:+ "}") +:+ after).
    apply prefix_app. }
  rewrite Hp. f_equal.
  rewrite <- (str_app_assoc name "}" after). cbn [String.length Nat.pred].
  rewrite replace_from_skip. now apply replace_from_free.
Qed.

(** X10. Replacing the parameter of a template that has a single
    parameter: the identifier takes the place of the braces and of the name
    between them, and the text before and after is kept; a text without a
    brace is left as it is. *)
Theorem replace_parameter name id before after :
  free_of "{" before -> free_of "{" after ->
  PyStr.replace ("{" +:+ name +:+ "}") id (before +:+ "{" +:+ name +:+ "}" +:+ after)
    = before +:+ id +:+ after /\
  PyStr.replace ("{" +:+ name +:+ "}") id before = before.
Proof.
  intros Hb Ha. split; [now apply replace_braces|].
  unfold PyStr.replace. change ("{" +:+ name +:+ "}") with (String "{" (name +:+ "}")).
  now apply replace_from_free.
Qed.

Lemma mem_char_app c a b : PyStr.mem_char c (a +:+ b) = PyStr.mem_char c a || PyStr.mem_char c b.
Proof.
  induction a as [|d a IH]; [reflexivity|].
  rewrite GenericTestFacts.str_app_cons, !mem_char_cons, IH. now rewrite orb_assoc.
Qed.

Lemma path_of_free c segments :
  Ascii.eqb c "/" = false -> Forall (free_of c) segments -> free_of c (path_of segments).
Proof.
  intros Hc H. unfold free_of in *. induction H as [|s rest Hs _ IH]; [reflexivity|].
  cbn [path_of]. change ("/" +:+ s +:+ path_of rest) with (String "/" (s +:+ path_of rest)).
  rewrite mem_char_cons, mem_char_app, Hc, Hs, IH. reflexivity.
Qed.

(** X11. For a template made of plain segments followed by one parameter,
    and a cache whose entry for these segments starts with the identifier
    [id], the URL that [check_api_resource] requests is the API URL without
    trailing separators, the segments, a separator and [id]; the test is
    named after the same path, and the substitution is recorded. *)
Theorem parameterised_url {Schema} test_version saved api_name (a : @api Schema)
    res segments name id rest :
  Forall plain_segment segments -> Forall (free_of "{") segments ->
  res_path res = path_of segments +:+ "/{" +:+ name +:+ "}" ->
  res_params res = [name] ->
  saved !! path_of segments = Some (JStr id :: rest) ->
  prepare test_version saved res api_name a =
    Request (PyStr.rstrip "/" (api_url a) +:+ path_of segments +:+ "/" +:+ id)
            (test_name test_version res api_name (path_of segments +:+ "/" +:+ id))
            [Substituted (res_path res) (JStr id)].
Proof.
  intros Hplain Hfree Hpath Hparams Hsaved. unfold prepare. rewrite Hparams.
  assert (Hc : collection_path (res_path res) = path_of segments).
  { rewrite Hpath. now apply collection_path_parameter. }
  rewrite Hc, Hsaved.
  assert (Hr : PyStr.replace ("{" +:+ name +:+ "}") id (res_path res)
               = path_of segments +:+ "/" +:+ id).
  { rewrite Hpath.
    change (path_of segments +:+ "/{" +:+ name +:+ "}")
      with (path_of segments +:+ ("/" +:+ ("{" +:+ name +:+ "}" +:+ EmptyString))).
    rewrite <- (str_app_assoc (path_of segments) "/" ("{" +:+ name +:+ "}" +:+ EmptyString)).
    rewrite (replace_braces name id (path_of segments +:+ "/") EmptyString).
    - now rewrite str_app_nil_r, str_app_assoc.
    - unfold free_of. rewrite mem_char_app.
      rewrite (path_of_free "{" segments eq_refl Hfree). reflexivity.
    - reflexivity. }
  now rewrite Hr.
Qed.

(** *** Versions *)

Lemma rstrip_free chars s :
  (forall c, PyStr.mem_char c s = true -> PyStr.mem_char c chars = false) ->
  PyStr.rstrip chars s = s.
Proof.
  induction s as [|c s IH]; [reflexivity|]. intros H. cbn [PyStr.rstrip].
  rewrite IH.
  - rewrite (H c); [now rewrite andb_false_r|]. rewrite mem_char_cons, Ascii.eqb_refl. reflexivity.
  - intros d Hd. apply H. rewrite mem_char_cons, Hd. now rewrite orb_true_r.
Qed.

Lemma mem_char_single c d : PyStr.mem_char c (String d EmptyString) = Ascii.eqb c d.
Proof. unfold PyStr.mem_char. simpl. now rewrite orb_false_r. Qed.

Lemma rstrip_char_free c s : free_of c s -> PyStr.rstrip (String c EmptyString) s = s.
Proof.
  unfold free_of. intros H. apply rstrip_free. intros d Hd. rewrite mem_char_single.
  destruct (Ascii.eqb d c) eqn:E; [|reflexivity].
  apply Ascii.eqb_eq in E. subst. congruence.
Qed.

Lemma lstrip_char_free c s : free_of c s -> lstrip (String c EmptyString) s = s.
Proof.
  unfold free_of. destruct s as [|d s]; [reflexivity|].
  rewrite mem_char_cons. intros H. apply orb_false_iff in H as [Hd _].
  cbn [lstrip]. rewrite mem_char_single, Ascii.eqb_sym, Hd. reflexivity.
Qed.

Lemma strip_v s : free_of "v" s -> strip "v" (String "v" s) = s.
Proof.
  intros H. unfold strip. cbn [lstrip]. rewrite mem_char_single. cbn [Ascii.eqb].
  change (Ascii.eqb "v" "v") with true. cbv iota.
  rewrite (lstrip_char_free "v" s H). now apply rstrip_char_free.
Qed.

Lemma free_of_app c a b : free_of c a -> free_of c b -> free_of c (a +:+ b).
Proof. unfold free_of. intros Ha Hb. now rewrite mem_char_app, Ha, Hb. Qed.

Lemma free_of_cons c d s : Ascii.eqb c d = false -> free_of c s -> free_of c (String d s).
Proof. unfold free_of. intros Hd Hs. now rewrite mem_char_cons, Hd, Hs. Qed.

Section VersionFacts.

Variable int : string -> exc Z.

(** X12. [_parse_version] on ["v<major>.<minor>"] converts the two parts
    in order (an exception of the first conversion comes first); a third part
    is ignored; and a version without a minor part raises [IndexError] after
    the major part was converted. *)
Theorem parse_version_parts major minor :
  free_of "." major -> free_of "." minor -> free_of "v" major -> free_of "v" minor ->
  _parse_version int ("v" +:+ major +:+ "." +:+ minor)
    = (m ← int major; n ← int minor; Ok (m, n)) /\
  (forall patch, free_of "v" patch ->
     _parse_version int ("v" +:+ major +:+ "." +:+ minor +:+ "." +:+ patch)
       = (m ← int major; n ← int minor; Ok (m, n))) /\
  _parse_version int ("v" +:+ major) = (m ← int major; Raise IndexError).
Proof.
  intros Hd1 Hd2 Hv1 Hv2. unfold _parse_version. split; [|split].
  - change ("v" +:+ major +:+ "." +:+ minor) with (String "v" (major +:+ String "." minor)).
    rewrite strip_v by (apply free_of_app; [assumption|now apply free_of_cons]).
    rewrite split_app, (split_free "." major Hd1), (split_free "." minor Hd2). reflexivity.
  - intros patch Hp.
    change ("v" +:+ major +:+ "." +:+ minor +:+ "." +:+ patch)
      with (String "v" (major +:+ String "." (minor +:+ String "." patch))).
    rewrite strip_v
      by (apply free_of_app; [assumption|];
          apply free_of_cons; [reflexivity|];
          apply free_of_app; [assumption|now apply free_of_cons]).
    rewrite !split_app, (split_free "." major Hd1), (split_free "." minor Hd2). reflexivity.
  - change ("v" +:+ major) with (String "v" major).
    rewrite strip_v by assumption. rewrite (split_free "." major Hd1). reflexivity.
Qed.

End VersionFacts.

(** *** Leap seconds *)

Lemma leap_seconds_row UTC_LEAP secs :
  leap_seconds UTC_LEAP secs = 0%Z \/
  exists row, In row UTC_LEAP /\ (fst row <= secs)%Z /\ leap_seconds UTC_LEAP secs = offset row.
Proof.
  induction UTC_LEAP as [|[ts tt] rest IH]; [now left|]. simpl.
  destruct (secs >=? ts)%Z eqn:E.
  - right. exists (ts, tt). split; [now left|]. split; [simpl; lia|reflexivity].
  - destruct IH as [H|(row & Hin & Hle & H)]; [now left|right].
    exists row. split; [now right|]. split; assumption.
Qed.

Lemma leap_seconds_bounds UTC_LEAP secs :
  later_rows_first UTC_LEAP ->
  (0 <= leap_seconds UTC_LEAP secs)%Z /\
  (forall row, In row UTC_LEAP -> fst row <= secs -> offset row <= leap_seconds UTC_LEAP secs)%Z.
Proof.
  induction UTC_LEAP as [|[ts tt] rest IH]; intros Hwf.
  - split; [reflexivity|]. intros row [].
  - destruct Hwf as (Hpos & Hrest & Hwf). specialize (IH Hwf) as [IH0 IHrow]. simpl.
    destruct (secs >=? ts)%Z eqn:E.
    + unfold offset in Hpos. simpl in Hpos. split; [lia|].
      intros row [<-|Hin] Hle; [unfold offset; simpl; lia|].
      rewrite List.Forall_forall in Hrest. specialize (Hrest row Hin). unfold offset in *. simpl in *. lia.
    + split; [exact IH0|]. intros row [<-|Hin] Hle; [simpl in Hle; lia|]. now apply IHrow.
Qed.

Lemma leap_seconds_mono UTC_LEAP secs1 secs2 :
  later_rows_first UTC_LEAP -> (secs1 <= secs2)%Z ->
  (leap_seconds UTC_LEAP secs1 <= leap_seconds UTC_LEAP secs2)%Z.
Proof.
  intros Hwf Hle. destruct (leap_seconds_bounds UTC_LEAP secs2 Hwf) as [H0 Hrow].
  destruct (leap_seconds_row UTC_LEAP secs1) as [->|(row & Hin & Hr & ->)]; [exact H0|].
  apply Hrow; [assumption|lia].
Qed.

Lemma offset_nonneg UTC_LEAP row :
  later_rows_first UTC_LEAP -> In row UTC_LEAP -> (0 <= offset row)%Z.
Proof.
  induction UTC_LEAP as [|head rest IH]; intros Hwf Hin; [destruct Hin|].
  destruct Hwf as (Hpos & _ & Hwf). destruct Hin as [<-|Hin]; [exact Hpos|now apply IH].
Qed.

(** X13. [from_UTC] on a leap second table that lists later rows first:
    the offset added is that of the latest row not after the given second,
    nothing is added before the earliest row, and the conversion keeps the
    order of the seconds strictly. *)
Theorem from_UTC_keeps_order UTC_LEAP :
  later_rows_first UTC_LEAP ->
  (forall secs nanos is_leap row,
     In row UTC_LEAP -> (fst row <= secs)%Z ->
     (forall other, In other UTC_LEAP -> fst other <= secs -> fst other <= fst row)%Z ->
     from_UTC UTC_LEAP secs nanos is_leap
       = (secs + offset row + (if is_leap then 1 else 0), nanos)%Z) /\
  (forall secs nanos is_leap,
     Forall (fun row => secs < fst row)%Z UTC_LEAP ->
     from_UTC UTC_LEAP secs nanos is_leap = (secs + (if is_leap then 1 else 0), nanos)%Z) /\
  (forall secs1 secs2 nanos1 nanos2 is_leap,
     (secs1 < secs2)%Z ->
     (fst (from_UTC UTC_LEAP secs1 nanos1 is_leap)
      < fst (from_UTC UTC_LEAP secs2 nanos2 is_leap))%Z).
Proof.
  intros Hwf. split; [|split].
  - intros secs nanos is_leap row Hin Hle Hmax. unfold from_UTC. f_equal. f_equal. f_equal.
    destruct (leap_seconds_bounds UTC_LEAP secs Hwf) as [_ Hrow].
    specialize (Hrow row Hin Hle).
    destruct (leap_seconds_row UTC_LEAP secs) as [H0|(row' & Hin' & Hle' & Hl)].
    + pose proof (offset_nonneg UTC_LEAP row Hwf Hin). lia.
    + rewrite Hl. specialize (Hmax row' Hin' Hle').
      assert (Hle2 : (offset row' <= offset row)%Z).
      { clear Hrow Hl. induction UTC_LEAP as [|head rest IH]; [destruct Hin|].
        destruct Hwf as (_ & Hrest & Hwf). rewrite List.Forall_forall in Hrest.
        destruct Hin as [<-|Hin], Hin' as [<-|Hin'].
        - lia.
        - now apply Hrest.
        - specialize (Hrest row Hin). lia.
        - now apply IH. }
      rewrite Hl in Hrow. lia.
  - intros secs nanos is_leap Hall. unfold from_UTC. f_equal.
    replace (leap_seconds UTC_LEAP secs) with 0%Z; [lia|]. symmetry. clear Hwf.
    induction Hall as [|[ts tt] rest Hlt _ IH]; [reflexivity|]. simpl in *.
    destruct (secs >=? ts)%Z eqn:E; [lia|exact IH].
  - intros secs1 secs2 nanos1 nanos2 is_leap Hlt. unfold from_UTC. simpl.
    pose proof (leap_seconds_mono UTC_LEAP secs1 secs2 Hwf). lia.
Qed.

(** *** Clean requests *)

Section CleanRequestFacts.

Context {World Schema : Type}.
Variable send : World -> string -> string -> option json -> World * http_reply.
Variable validate : json -> Schema -> validation.
Variable url : string.
Variable text : response -> string.

Lemma checkCleanRequest_document w method dest data code document :
  (checkCleanRequest send url text w method dest data code).2 = inl document <->
  exists r, (send w method (url +:+ dest) data).2 = Replied r /\
            status_code r = code /\ body r = Some document.
Proof.
  unfold checkCleanRequest, do_request.
  destruct (send w method (url +:+ dest) data) as [w' [r| | |msg]]; simpl;
    try (split; [discriminate|intros (? & ? & _); discriminate]).
  destruct (status_code r =? code)%Z eqn:Hs.
  - apply Z.eqb_eq in Hs. destruct (body r) as [d|] eqn:Hb.
    + split.
      * intros H. injection H as <-. exists r. auto.
      * intros (r' & Hr & _ & Hb'). injection Hr as <-. congruence.
    + split; [discriminate|]. intros (r' & Hr & _ & Hb'). injection Hr as <-. congruence.
  - apply Z.eqb_neq in Hs. split; [discriminate|].
    intros (r' & Hr & Hs' & _). injection Hr as <-. contradiction.
Qed.

(** X14. [checkCleanRequest] sends exactly one request, to [self.url]
    followed by the destination; it answers with a document exactly when the
    reply has the expected status and a JSON body, and otherwise reports what
    went wrong: a body that is not JSON (with the text received) or a status
    other than the expected one (with both codes). *)
Theorem checkCleanRequest_succeeds w method dest data code :
  (checkCleanRequest send url text w method dest data code).1
    = (send w method (url +:+ dest) data).1 /\
  (forall document,
     (checkCleanRequest send url text w method dest data code).2 = inl document <->
     exists r, (send w method (url +:+ dest) data).2 = Replied r /\
               status_code r = code /\ body r = Some document) /\
  (forall r, (send w method (url +:+ dest) data).2 = Replied r ->
             status_code r = code -> body r = None ->
             (checkCleanRequest send url text w method dest data code).2
               = inr ("Failed decoding JSON from " +:+ dest +:+ ", got " +:+ text r
                      +:+ ". Please check JSON syntax")) /\
  (forall r, (send w method (url +:+ dest) data).2 = Replied r ->
             status_code r <> code ->
             (checkCleanRequest send url text w method dest data code).2
               = inr ("Expected status code " +:+ PyStr.of_Z code +:+ " from " +:+ dest
                      +:+ ", got " +:+ PyStr.of_Z (status_code r) +:+ ".")).
Proof.
  split; [|split; [intros document; apply checkCleanRequest_document|]].
  - unfold checkCleanRequest, do_request.
    now destruct (send w method (url +:+ dest) data) as [w' [r| | |msg]].
  - unfold checkCleanRequest, do_request.
    destruct (send w method (url +:+ dest) data) as [w' reply]; simpl.
    split; intros r ->.
    + intros -> Hb. now rewrite Z.eqb_refl, Hb.
    + intros Hs. apply Z.eqb_neq in Hs. now rewrite Hs.
Qed.

(** X15. [compare_to_schema] answers [True] with an empty message exactly when the
    endpoint replies with the expected status and a document that is valid
    against the schema; for a document that is not valid the message ends
    with the text of the validation error; and a request that
    [checkCleanRequest] refuses is reported with its message. *)
Theorem compare_to_schema_verdict w schema endpoint code :
  (forall message,
     (compare_to_schema send validate url text w schema endpoint code).2 = Ok (true, message) <->
     message = EmptyString /\
     exists r document,
       (send w "GET" (url +:+ endpoint) None).2 = Replied r /\
       status_code r = code /\ body r = Some document /\
       validate document schema = Valid) /\
  (forall r document e,
     (send w "GET" (url +:+ endpoint) None).2 = Replied r ->
     status_code r = code -> body r = Some document ->
     validate document schema = ValidationError e ->
     (compare_to_schema send validate url text w schema endpoint code).2
       = Ok (false, "Response from " +:+ endpoint +:+ " did not meet schema: " +:+ e)) /\
  (forall message,
     (checkCleanRequest send url text w "GET" endpoint None code).2 = inr message ->
     (compare_to_schema send validate url text w schema endpoint code).2
       = Ok (false, "Invalid response while getting data: " +:+ message)).
Proof.
  unfold compare_to_schema.
  pose proof (fun document => checkCleanRequest_document w "GET" endpoint None code document)
    as Hok.
  destruct (checkCleanRequest send url text w "GET" endpoint None code) as [w' [document|msg]];
    simpl in *.
  - destruct (proj1 (Hok document) eq_refl) as (r & Hr & Hs & Hb). split.
    + intros message. destruct (validate document schema) eqn:Hv.
      * split.
        -- intros H. injection H as <-. split; [reflexivity|]. exists r, document. auto.
        -- intros [-> _]. reflexivity.
      * split; [discriminate|].
        intros [_ (r' & d' & Hr' & _ & Hb' & Hv')]. rewrite Hr in Hr'. injection Hr' as <-.
        rewrite Hb in Hb'. injection Hb' as <-. congruence.
      * split; [discriminate|].
        intros [_ (r' & d' & Hr' & _ & Hb' & Hv')]. rewrite Hr in Hr'. injection Hr' as <-.
        rewrite Hb in Hb'. injection Hb' as <-. congruence.
    + split; [|discriminate]. intros r' d' e Hr' _ Hb' Hv. rewrite Hr in Hr'.
      injection Hr' as <-. rewrite Hb in Hb'. injection Hb' as <-. now rewrite Hv.
  - split; [|split].
    + intros message. split; [discriminate|].
      intros [_ (r & d & Hr & Hs & Hb & _)].
      assert (H : @inr json string msg = inl d) by (apply Hok; eauto). discriminate.
    + intros r d e Hr Hs Hb _.
      assert (H : @inr json string msg = inl d) by (apply Hok; eauto). discriminate.
    + intros message H. now injection H as <-.
Qed.

End CleanRequestFacts.

(** *** The properties on the example data *)

Lemma validate_CORS_accepts_witness :
  mutating "POST" = true /\ validate_CORS "POST" MoreExamples.post_allowed = Ok true.
Proof.
  split; [reflexivity|].
  apply (proj2 (validate_CORS_accepts "POST" MoreExamples.post_allowed)).
  split; [reflexivity|]. intros _. exists "POST, Content-Type", "GET, POST".
  repeat split; reflexivity.
Defined.

Lemma validate_CORS_raises_iff_witness :
  validate_CORS "POST" MoreExamples.post_singular
    = Raise (KeyError "access-control-allow-methods").
Proof.
  apply (proj2 (validate_CORS_raises_iff "POST" MoreExamples.post_singular
                  (KeyError "access-control-allow-methods"))).
  repeat split; try reflexivity. exists "POST, Content-Type". split; reflexivity.
Defined.

Lemma check_base_path_passes_witness :
  (check_base_path (Examples.fixed_server MoreExamples.versions) "http://iut/" tt
     "x-nmos/node/" "v1.2/").2 = Ok (Test.PASS "GET x-nmos/node/").
Proof.
  apply (proj2 (check_base_path_passes (Examples.fixed_server MoreExamples.versions)
                  "http://iut/" tt "x-nmos/node/" "v1.2/")).
  exists MoreExamples.versions, [JStr "v1.0/"; JStr "v1.2/"].
  repeat split; try reflexivity. apply list_elem_of_In. right. left. reflexivity.
Defined.

Lemma check_response_verdicts_witness :
  check_response Examples.object_only "GET /widgets/a" (Examples.node_api [])
    "GET" "/widgets/a" Examples.widget_a = Ok (Test.PASS "GET /widgets/a").
Proof.
  apply (proj1 (check_response_verdicts Examples.object_only "GET /widgets/a"
                  (Examples.node_api []) "GET" "/widgets/a" Examples.widget_a)).
  split; [reflexivity|]. exists tt, (Examples.widget "a"). repeat split; reflexivity.
Defined.

Lemma crawl_only_appends_witness :
  exists ids,
    saved_entities (basics_from Examples.widgets_server Examples.object_only "http://iut/"
                      "v1.2" Examples.seeded MoreExamples.node).1.1 !! "/widgets" = Some ids /\
    [JStr "a"; JStr "b"] `prefix_of` ids.
Proof.
  apply (crawl_only_appends Examples.widgets_server Examples.object_only "http://iut/" "v1.2"
           MoreExamples.node Examples.seeded "/widgets" [JStr "a"; JStr "b"]).
  vm_compute. reflexivity.
Defined.

Lemma cache_keys_are_declared_paths_witness :
  is_Some (saved_entities (basics Examples.widgets_server Examples.object_only "http://iut/"
                             "v1.2" tt MoreExamples.node).1.1 !! "/widgets") /\
  fetchable MoreExamples.node "/widgets".
Proof.
  assert (H : is_Some (saved_entities
                         (basics Examples.widgets_server Examples.object_only "http://iut/"
                            "v1.2" tt MoreExamples.node).1.1 !! "/widgets"))
    by (vm_compute; eauto).
  split; [exact H|].
  exact (cache_keys_are_declared_paths Examples.widgets_server Examples.object_only
           "http://iut/" "v1.2" tt MoreExamples.node "/widgets" H).
Defined.

Lemma harvest_precedes_validation_witness :
  validate_CORS "get" Examples.mixed_list = Ok false /\
  saved_entities (check_api_resource (Examples.fixed_server Examples.mixed_list)
                    Examples.object_only "v1.2" (Crawler tt ∅) Examples.widgets 200 "node"
                    (Examples.node_api [])).1.1 !! "/widgets"
    = Some [JStr "a"; JStr "b"].
Proof.
  split; [reflexivity|].
  destruct (harvest_precedes_validation (Examples.fixed_server Examples.mixed_list)
              Examples.object_only "v1.2" (Crawler tt ∅) Examples.widgets 200 "node"
              (Examples.node_api []) Examples.mixed_list
              eq_refl eq_refl eq_refl eq_refl) as [Hs _].
  rewrite Hs. vm_compute. reflexivity.
Defined.

Lemma basics_outcome_count_witness :
  exists results,
    (basics_from Examples.widgets_server Examples.object_only "http://iut/" "v1.2"
       (Crawler tt ∅) MoreExamples.node).2 = Ok results /\
    (3 * length MoreExamples.node <= length results
     <= 3 * length MoreExamples.node + declared_200 MoreExamples.node)%nat.
Proof.
  assert (H : exists results,
             (basics_from Examples.widgets_server Examples.object_only "http://iut/" "v1.2"
                (Crawler tt ∅) MoreExamples.node).2 = Ok results)
    by (vm_compute; eauto).
  destruct H as [results H]. exists results. split; [exact H|].
  exact (basics_outcome_count Examples.widgets_server Examples.object_only "http://iut/"
           "v1.2" MoreExamples.node (Crawler tt ∅) results H).
Defined.

Lemma collection_path_of_template_witness :
  collection_path "/widgets/parts" = "/widgets/parts" /\
  forall rest, collection_path ("/widgets/parts/{" +:+ rest) = "/widgets/parts".
Proof.
  assert (H : Forall plain_segment ["widgets"; "parts"]).
  { repeat constructor; try discriminate. }
  exact (collection_path_of_template ["widgets"; "parts"] H).
Defined.

Lemma replace_parameter_witness :
  PyStr.replace "{widgetId}" "a" "/widgets/{widgetId}/parts" = "/widgets/a/parts" /\
  PyStr.replace "{widgetId}" "a" "/widgets/" = "/widgets/".
Proof.
  assert (Hb : free_of "{" "/widgets/") by reflexivity.
  assert (Ha : free_of "{" "/parts") by reflexivity.
  exact (replace_parameter "widgetId" "a" "/widgets/" "/parts" Hb Ha).
Defined.

Lemma parameterised_url_witness :
  prepare "v1.2" (saved_entities Examples.seeded) Examples.one_widget "node"
    (Examples.node_api [])
  = Request "http://iut/x-nmos/node/v1.2/widgets/a"
            (test_name "v1.2" Examples.one_widget "node" "/widgets/a")
            [Substituted "/widgets/{widgetId}" (JStr "a")].
Proof.
  assert (Hp : Forall plain_segment ["widgets"]) by (repeat constructor; discriminate).
  assert (Hf : Forall (free_of "{") ["widgets"]) by (repeat constructor).
  assert (Hs : saved_entities Examples.seeded !! path_of ["widgets"]
               = Some (JStr "a" :: [JStr "b"])) by (vm_compute; reflexivity).
  exact (parameterised_url "v1.2" (saved_entities Examples.seeded) "node"
           (Examples.node_api []) Examples.one_widget ["widgets"] "widgetId" "a" [JStr "b"]
           Hp Hf eq_refl eq_refl Hs).
Defined.

Lemma parse_version_parts_witness :
  _parse_version MoreExamples.int "v1.2" = Ok (1, 2)%Z /\
  _parse_version MoreExamples.int "v1.2.3" = Ok (1, 2)%Z /\
  _parse_version MoreExamples.int "v1" = Raise IndexError.
Proof.
  destruct (parse_version_parts MoreExamples.int "1" "2" eq_refl eq_refl eq_refl eq_refl)
    as (H2 & H3 & H1).
  split; [exact H2|]. split; [exact (H3 "3" eq_refl)|exact H1].
Defined.

Lemma from_UTC_keeps_order_witness :
  from_UTC MoreExamples.leap_table 1500000000 0 false = (1500000037, 0)%Z /\
  from_UTC MoreExamples.leap_table 1300000000 7 false = (1300000000, 7)%Z /\
  (fst (from_UTC MoreExamples.leap_table 1483228799 0 false)
   < fst (from_UTC MoreExamples.leap_table 1483228800 0 false))%Z.
Proof.
  assert (H : later_rows_first MoreExamples.leap_table).
  { unfold MoreExamples.leap_table, later_rows_first, offset. simpl.
    repeat split; try lia; repeat constructor; simpl; lia. }
  destruct (from_UTC_keeps_order MoreExamples.leap_table H) as (Hrow & Hbelow & Hmono).
  split; [|split].
  - apply (Hrow 1500000000 0 false (1483228800, 1483228836))%Z.
    + left. reflexivity.
    + simpl. lia.
    + intros other [<-|[<-|[<-|[]]]] _; simpl; lia.
  - apply (Hbelow 1300000000 7 false)%Z. repeat constructor; simpl; lia.
  - apply Hmono. lia.
Defined.

Lemma checkCleanRequest_succeeds_witness :
  (checkCleanRequest (MoreExamples.data_server Examples.widget_a) "http://iut/x-nmos/events/v1.0/"
     MoreExamples.raw_text tt "GET" "sources" None 200).2 = inl (Examples.widget "a") /\
  (checkCleanRequest (MoreExamples.data_server (Response 200 [] None))
     "http://iut/x-nmos/events/v1.0/" MoreExamples.raw_text tt "GET" "sources" None 200).2
    = inr "Failed decoding JSON from sources, got <html>. Please check JSON syntax" /\
  (checkCleanRequest (MoreExamples.data_server (Response 404 [] None))
     "http://iut/x-nmos/events/v1.0/" MoreExamples.raw_text tt "GET" "sources" None 200).2
    = inr "Expected status code 200 from sources, got 404.".
Proof.
  split; [|split].
  - apply (proj1 (proj2 (checkCleanRequest_succeeds
                           (MoreExamples.data_server Examples.widget_a)
                           "http://iut/x-nmos/events/v1.0/" MoreExamples.raw_text tt
                           "GET" "sources" None 200))).
    exists Examples.widget_a. repeat split; reflexivity.
  - apply (proj1 (proj2 (proj2 (checkCleanRequest_succeeds
                                  (MoreExamples.data_server (Response 200 [] None))
                                  "http://iut/x-nmos/events/v1.0/" MoreExamples.raw_text tt
                                  "GET" "sources" None 200))) (Response 200 [] None));
      reflexivity.
  - apply (proj2 (proj2 (proj2 (checkCleanRequest_succeeds
                                  (MoreExamples.data_server (Response 404 [] None))
                                  "http://iut/x-nmos/events/v1.0/" MoreExamples.raw_text tt
                                  "GET" "sources" None 200))) (Response 404 [] None));
      [reflexivity|discriminate].
Defined.

Lemma compare_to_schema_verdict_witness :
  (compare_to_schema (MoreExamples.data_server Examples.widget_a) Examples.object_only
     "http://iut/x-nmos/events/v1.0/" MoreExamples.raw_text tt tt "sources" 200).2
    = Ok (true, EmptyString) /\
  (compare_to_schema (MoreExamples.data_server Examples.get_empty_array) Examples.object_only
     "http://iut/x-nmos/events/v1.0/" MoreExamples.raw_text tt tt "sources" 200).2
    = Ok (false, "Response from sources did not meet schema: [] is not of type 'object'").
Proof.
  split.
  - apply (proj1 (compare_to_schema_verdict (MoreExamples.data_server Examples.widget_a)
                    Examples.object_only "http://iut/x-nmos/events/v1.0/"
                    MoreExamples.raw_text tt tt "sources" 200)).
    split; [reflexivity|]. exists Examples.widget_a, (Examples.widget "a").
    repeat split; reflexivity.
  - apply (proj1 (proj2 (compare_to_schema_verdict
                           (MoreExamples.data_server Examples.get_empty_array)
                           Examples.object_only "http://iut/x-nmos/events/v1.0/"
                           MoreExamples.raw_text tt tt "sources" 200))
             Examples.get_empty_array (JArr []) "[] is not of type 'object'"); reflexivity.
Defined.

End GenericTestMoreFacts.


(** ** More on the IS-07-02 suite *)

Module IS0702TestMoreFacts.

Import IS0702Test IS0702TestParts.

(** *** The polling loops of [test_04] *)

Lemma find_none_all {A} (f : A -> bool) l :
  find f l = None <-> forall x, In x l -> f x = false.
Proof.
  split; [apply find_none|]. intros H. destruct (find f l) as [x|] eqn:Hf; [|reflexivity].
  apply find_some in Hf as [Hin Hx]. rewrite (H x Hin) in Hx. discriminate.
Qed.

Section LifecycleFacts.

Variable open_no_health : string -> Q -> bool.
Variable open_with_health : string -> Q -> bool.

Lemma stay_open_without_health_elapsed test start_time connections clock later :
  stay_open_without_health test start_time open_no_health connections clock = Elapsed later <->
  exists quiet t,
    clock = quiet ++ t :: later /\
    Forall (quiet_pass start_time open_no_health connections) quiet /\
    (start_time + WS_TIMEOUT - 1 <= t)%Q.
Proof.
  split.
  - revert later. induction clock as [|now clock IH]; intros later; simpl; [discriminate|].
    destruct (Qlt_b now (start_time + WS_TIMEOUT - 1)) eqn:Hg.
    + destruct (find _ connections) eqn:Hf; [discriminate|].
      intros H. destruct (IH later H) as (quiet & t & -> & Hq & Ht).
      exists (now :: quiet), t. split; [reflexivity|]. split; [|assumption].
      constructor; [|assumption]. split; [now apply IS0702TestFacts.Qlt_b_true|].
      intros uri Hin. pose proof (find_none _ _ Hf uri Hin) as Hc. simpl in Hc.
      now apply negb_false_iff in Hc.
    + intros H. injection H as <-. exists [], now. split; [reflexivity|]. split; [constructor|].
      now apply IS0702TestFacts.Qlt_b_false.
  - intros (quiet & t & -> & Hq & Ht). rewrite (IS0702TestFacts.stay_open_quiet _ _ _ _ _ _ Hq).
    simpl. apply IS0702TestFacts.Qlt_b_false in Ht. now rewrite Ht.
Qed.

Lemma stay_open_with_health_ended test start_time connections clock t later :
  stay_open_with_health open_with_health test start_time connections clock = Ended t later <->
  exists kept,
    clock = kept ++ t :: later /\
    Forall (kept_alive_pass open_with_health start_time connections) kept /\
    (start_time + WS_TIMEOUT + WS_HEARTBEAT_INTERVAL <= t)%Q.
Proof.
  split.
  - revert later. induction clock as [|now clock IH]; intros later; simpl; [discriminate|].
    destruct (Qlt_b now (start_time + WS_TIMEOUT + WS_HEARTBEAT_INTERVAL)) eqn:Hg.
    + destruct (find _ connections) eqn:Hf; [discriminate|].
      intros H. destruct (IH later H) as (kept & -> & Hq & Ht).
      exists (now :: kept). split; [reflexivity|]. split; [|assumption].
      constructor; [|assumption]. split; [now apply IS0702TestFacts.Qlt_b_true|].
      intros uri Hin. pose proof (find_none _ _ Hf uri Hin) as Hc. simpl in Hc.
      now apply negb_false_iff in Hc.
    + intros H. injection H as <- <-. exists []. split; [reflexivity|]. split; [constructor|].
      now apply IS0702TestFacts.Qlt_b_false.
  - intros (kept & -> & Hq & Ht). induction Hq as [|now kept [Hnow Hopen] _ IH]; simpl.
    + apply IS0702TestFacts.Qlt_b_false in Ht. now rewrite Ht.
    + apply IS0702TestFacts.Qlt_b_true in Hnow. rewrite Hnow.
      destruct (find _ connections) as [uri|] eqn:Hf; [|exact IH].
      apply find_some in Hf as [Hin Hc]. rewrite (Hopen uri Hin) in Hc. discriminate.
Qed.

Lemma wait_closed_never_fails start_time connections clock result :
  wait_closed open_with_health start_time connections clock <> Failed result.
Proof.
  induction clock as [|now clock IH]; simpl; [discriminate|].
  destruct (Qlt_b _ _); [|discriminate]. destruct (forallb _ _); [discriminate|exact IH].
Qed.

Lemma wait_closed_ended start_time connections clock t later :
  wait_closed open_with_health start_time connections clock = Ended t later <->
  exists busy,
    clock = busy ++ t :: later /\
    Forall (still_open_pass open_with_health start_time connections) busy /\
    ((start_time + WS_TIMEOUT + WS_HEARTBEAT_INTERVAL * 2 <= t)%Q \/
     forall connection_uri, In connection_uri connections ->
                            open_with_health connection_uri t = false).
Proof.
  split.
  - revert later. induction clock as [|now clock IH]; intros later; simpl; [discriminate|].
    destruct (Qlt_b now (start_time + WS_TIMEOUT + WS_HEARTBEAT_INTERVAL * 2)) eqn:Hg.
    + destruct (forallb _ connections) eqn:Hall.
      * intros H. injection H as <- <-. exists []. split; [reflexivity|]. split; [constructor|].
        right. intros uri Hin. rewrite forallb_forall in Hall. specialize (Hall uri Hin).
        now apply negb_true_iff in Hall.
      * intros H. destruct (IH later H) as (busy & -> & Hq & Ht).
        exists (now :: busy). split; [reflexivity|]. split; [|assumption].
        constructor; [|assumption]. split; [now apply IS0702TestFacts.Qlt_b_true|].
        apply not_true_iff_false in Hall. rewrite forallb_forall in Hall.
        destruct (find (fun uri => open_with_health uri now) connections) as [uri|] eqn:Hf.
        -- apply find_some in Hf as [Hin Hc]. eauto.
        -- exfalso. apply Hall. intros uri Hin. apply negb_true_iff.
           exact (find_none _ _ Hf uri Hin).
    + intros H. injection H as <- <-. exists []. split; [reflexivity|]. split; [constructor|].
      left. now apply IS0702TestFacts.Qlt_b_false.
  - intros (busy & -> & Hq & Ht). induction Hq as [|now busy [Hnow (uri & Hin & Hopen)] _ IH]; simpl.
    + destruct (Qlt_b t _) eqn:Hg; [|reflexivity].
      destruct Ht as [Ht|Ht].
      * apply IS0702TestFacts.Qlt_b_false in Ht. congruence.
      * replace (forallb _ connections) with true; [reflexivity|]. symmetry.
        apply forallb_forall. intros u Hu. now rewrite (Ht u Hu).
    + apply IS0702TestFacts.Qlt_b_true in Hnow. rewrite Hnow.
      replace (forallb (fun u => negb (open_with_health u now)) connections) with false; [exact IH|].
      symmetry. apply not_true_iff_false. rewrite forallb_forall. intros Hall.
      specialize (Hall uri Hin). rewrite Hopen in Hall. discriminate.
Qed.

(** X16. The first polling loop of [test_04] ends without a failure exactly
    when, on every pass before [start_time + WS_HEARTBEAT_INTERVAL], all the
    connections of both sets are found open; and when it fails, it names a
    connection found closed on a pass before that time, all earlier passes
    having found every connection open. *)
Theorem before_health_window test start_time connections clock :
  (forall t later,
     stay_open_before_health open_no_health open_with_health test start_time connections clock
       = Ended t later <->
     exists quiet,
       clock = quiet ++ t :: later /\
       Forall (all_open_pass open_no_health open_with_health start_time connections) quiet /\
       (start_time + WS_HEARTBEAT_INTERVAL <= t)%Q) /\
  (forall result,
     stay_open_before_health open_no_health open_with_health test start_time connections clock
       = Failed result ->
     exists quiet t later connection_uri,
       clock = quiet ++ t :: later /\
       Forall (all_open_pass open_no_health open_with_health start_time connections) quiet /\
       (t < start_time + WS_HEARTBEAT_INTERVAL)%Q /\
       In connection_uri connections /\
       (open_no_health connection_uri t = false \/ open_with_health connection_uri t = false) /\
       result = Test.FAIL test ("WebSocket connection to " +:+ connection_uri
                                +:+ " was closed too early")).
Proof.
  split.
  - intros t later. split.
    + revert later. induction clock as [|now clock IH]; intros later; simpl; [discriminate|].
      destruct (Qlt_b now (start_time + WS_HEARTBEAT_INTERVAL)) eqn:Hg.
      * destruct (find _ connections) eqn:Hf1; [discriminate|].
        destruct (find (fun uri => negb (open_with_health uri now)) connections) eqn:Hf2;
          [discriminate|].
        intros H. destruct (IH later H) as (quiet & -> & Hq & Ht).
        exists (now :: quiet). split; [reflexivity|]. split; [|assumption].
        constructor; [|assumption]. split; [now apply IS0702TestFacts.Qlt_b_true|].
        intros uri Hin. pose proof (find_none _ _ Hf1 uri Hin) as Hc1.
        pose proof (find_none _ _ Hf2 uri Hin) as Hc2. simpl in Hc1, Hc2.
        apply negb_false_iff in Hc1, Hc2. auto.
      * intros H. injection H as <- <-. exists []. split; [reflexivity|].
        split; [constructor|]. now apply IS0702TestFacts.Qlt_b_false.
    + intros (quiet & -> & Hq & Ht).
      induction Hq as [|now quiet [Hnow Hopen] _ IH]; simpl.
      * apply IS0702TestFacts.Qlt_b_false in Ht. now rewrite Ht.
      * apply IS0702TestFacts.Qlt_b_true in Hnow. rewrite Hnow.
        destruct (find _ connections) as [uri|] eqn:Hf1.
        { apply find_some in Hf1 as [Hin Hc]. rewrite (proj1 (Hopen uri Hin)) in Hc.
          discriminate. }
        destruct (find (fun uri => negb (open_with_health uri now)) connections)
          as [uri|] eqn:Hf2; [|exact IH].
        apply find_some in Hf2 as [Hin Hc]. rewrite (proj2 (Hopen uri Hin)) in Hc.
        discriminate.
  - induction clock as [|now clock IH]; intros result; simpl; [discriminate|].
    destruct (Qlt_b now (start_time + WS_HEARTBEAT_INTERVAL)) eqn:Hg; [|discriminate].
    apply IS0702TestFacts.Qlt_b_true in Hg.
    destruct (find _ connections) as [uri|] eqn:Hf1.
    { intros H. injection H as <-. apply find_some in Hf1 as [Hin Hc].
      apply negb_true_iff in Hc. exists [], now, clock, uri.
      split; [reflexivity|]. split; [constructor|]. auto. }
    destruct (find (fun uri => negb (open_with_health uri now)) connections)
      as [uri|] eqn:Hf2.
    { intros H. injection H as <-. apply find_some in Hf2 as [Hin Hc].
      apply negb_true_iff in Hc. exists [], now, clock, uri.
      split; [reflexivity|]. split; [constructor|]. auto. }
    intros H. destruct (IH result H) as (quiet & t & later & uri & -> & Hq & Hrest).
    exists (now :: quiet), t, later, uri. split; [reflexivity|]. split; [|exact Hrest].
    constructor; [|assumption]. split; [assumption|].
    intros u Hin. pose proof (find_none _ _ Hf1 u Hin) as Hc1.
    pose proof (find_none _ _ Hf2 u Hin) as Hc2. simpl in Hc1, Hc2.
    apply negb_false_iff in Hc1, Hc2. auto.
Qed.

(** X17. [test_04] passes after the health responses exactly when the
    readings of the clock split in three runs, each ended by a reading that
    stops its loop: connections without health command open until one second
    before the timeout; connections with health command open until a
    heartbeat interval after the timeout, at which point those without are
    closed; and then the connections with health command found closed, at
    the reading that ends the last loop. *)
Theorem lifecycle_passes test start_time connections clock :
  after_health_responses open_no_health open_with_health test start_time connections clock
    = Returned (Test.PASS test) <->
  exists quiet t1 kept t2 busy t3 rest,
    clock = quiet ++ t1 :: kept ++ t2 :: busy ++ t3 :: rest /\
    Forall (quiet_pass start_time open_no_health connections) quiet /\
    (start_time + WS_TIMEOUT - 1 <= t1)%Q /\
    Forall (kept_alive_pass open_with_health start_time connections) kept /\
    (start_time + WS_TIMEOUT + WS_HEARTBEAT_INTERVAL <= t2)%Q /\
    (forall connection_uri, In connection_uri connections ->
                            open_no_health connection_uri t2 = false) /\
    Forall (still_open_pass open_with_health start_time connections) busy /\
    (forall connection_uri, In connection_uri connections ->
                            open_with_health connection_uri t3 = false).
Proof.
  unfold after_health_responses. split.
  - destruct (stay_open_without_health _ _ _ _ clock) as [o|later1|] eqn:H1; try discriminate.
    { intros H. injection H as ->.
      exfalso. clear -H1. induction clock as [|now clock IH]; simpl in H1; [discriminate|].
      destruct (Qlt_b _ _); [|discriminate].
      destruct (find _ connections); [discriminate|now apply IH]. }
    apply stay_open_without_health_elapsed in H1 as (quiet & t1 & -> & Hq & Ht1).
    destruct (stay_open_with_health _ _ _ _ later1) as [o|t2 later2|] eqn:H2; try discriminate.
    { intros H. injection H as ->.
      exfalso. clear -H2. induction later1 as [|now later1 IH]; simpl in H2; [discriminate|].
      destruct (Qlt_b _ _); [|discriminate].
      destruct (find _ connections); [discriminate|now apply IH]. }
    apply stay_open_with_health_ended in H2 as (kept & -> & Hk & Ht2).
    destruct (find (fun uri => open_no_health uri t2) connections) eqn:Hf2; [discriminate|].
    destruct (wait_closed _ _ _ later2) as [o|t3 rest|] eqn:H3; try discriminate.
    { now apply wait_closed_never_fails in H3. }
    apply wait_closed_ended in H3 as (busy & -> & Hb & _).
    destruct (find (fun uri => open_with_health uri t3) connections) eqn:Hf3; [discriminate|].
    intros _. exists quiet, t1, kept, t2, busy, t3, rest.
    repeat split; auto.
    + intros uri Hin. exact (find_none _ _ Hf2 uri Hin).
    + intros uri Hin. exact (find_none _ _ Hf3 uri Hin).
  - intros (quiet & t1 & kept & t2 & busy & t3 & rest & -> & Hq & Ht1 & Hk & Ht2 & Hc2 & Hb & Hc3).
    assert (H1 : stay_open_without_health test start_time open_no_health connections
                   (quiet ++ t1 :: kept ++ t2 :: busy ++ t3 :: rest)
                 = Elapsed (kept ++ t2 :: busy ++ t3 :: rest))
      by (apply stay_open_without_health_elapsed; eauto).
    rewrite H1.
    assert (H2 : stay_open_with_health open_with_health test start_time connections
                   (kept ++ t2 :: busy ++ t3 :: rest) = Ended t2 (busy ++ t3 :: rest))
      by (apply stay_open_with_health_ended; eauto).
    rewrite H2.
    rewrite (proj2 (find_none_all _ connections) Hc2).
    assert (H3 : wait_closed open_with_health start_time connections (busy ++ t3 :: rest)
                 = Ended t3 rest)
      by (apply wait_closed_ended; eauto).
    rewrite H3. now rewrite (proj2 (find_none_all _ connections) Hc3).
Qed.

End LifecycleFacts.

(** *** [set_up_tests] *)

Lemma dict_set_in {A} k (v : A) d entry :
  In entry (dict_set k v d) -> entry = (k, v) \/ In entry d.
Proof.
  induction d as [|[k' v'] d IH]; simpl.
  - intros [<-|[]]. now left.
  - destruct (String.eqb k' k).
    + intros [<-|H]; [now left|right; now right].
    + intros [<-|H]; [right; now left|]. destruct (IH H) as [?|?]; [now left|right; now right].
Qed.

Lemma dict_set_has {A} k (v : A) d : In k (map fst (dict_set k v d)).
Proof.
  induction d as [|[k' v'] d IH]; simpl; [now left|].
  destruct (String.eqb k' k); simpl; [now left|now right].
Qed.

Lemma dict_set_keeps {A} k (v : A) d k' :
  In k' (map fst d) -> In k' (map fst (dict_set k v d)).
Proof.
  induction d as [|[k0 v0] d IH]; simpl; [intros []|].
  destruct (String.eqb k0 k) eqn:E; simpl.
  - apply String.eqb_eq in E. subst. intros [<-|H]; [now left|now right].
  - intros [<-|H]; [now left|right; now apply IH].
Qed.

Lemma key_in_true {A} k (d : gmap string A) :
  PyDict.key_in k d = Ok true -> exists s v, k = JStr s /\ d !! s = Some v.
Proof.
  destruct k as [| | |s| |]; simpl; try discriminate.
  intros H. injection H as H. apply bool_decide_eq_true in H as [v Hv]. eauto.
Qed.

Section SetUpFacts.

Variable is04_flows : gmap string json.
Variable is04_sources : gmap string json.


Lemma keep_sender_cases selected sender is04_sender selected' :
  keep_sender is04_flows is04_sources selected sender is04_sender = Ok selected' ->
  selected' = selected \/
  exists source_id is04_source,
    correlated is04_flows is04_sources is04_sender source_id is04_source /\
    selected' = (dict_set sender is04_sender (fst selected),
                 <[source_id := is04_source]> (snd selected)).
Proof.
  unfold keep_sender.
  destruct (Py.getitem is04_sender "flow_id") as [flow|] eqn:Hflow; simpl; [|discriminate].
  destruct (PyDict.key_in flow is04_flows) as [[]|] eqn:Hkf; simpl; try discriminate;
    [|intros H; injection H as <-; now left].
  destruct (key_in_true _ _ Hkf) as (flow_id & is04_flow & -> & Hf). simpl. rewrite Hf. simpl.
  destruct (Py.getitem is04_flow "source_id") as [source|] eqn:Hsource; simpl; [|discriminate].
  destruct (PyDict.key_in source is04_sources) as [[]|] eqn:Hks; simpl; try discriminate;
    [|intros H; injection H as <-; now left].
  destruct (key_in_true _ _ Hks) as (source_id & is04_source & -> & Hs). simpl. rewrite Hs. simpl.
  destruct (Py.contains "event_type" is04_source) as [[]|] eqn:He; simpl; try discriminate;
    [|intros H; injection H as <-; now left].
  intros H. injection H as <-. right. exists source_id, is04_source. split; [|reflexivity].
  exists flow_id, is04_flow. auto.
Qed.

Lemma keep_sender_ok done_senders selected sender is04_sender selected' :
  keep_sender is04_flows is04_sources selected sender is04_sender = Ok selected' ->
  selection_ok is04_flows is04_sources done_senders selected ->
  selection_ok is04_flows is04_sources (done_senders ++ [(sender, is04_sender)]) selected'.
Proof.
  intros Hk [Hsenders Hsources].
  assert (Hweak : forall e, In e done_senders -> In e (done_senders ++ [(sender, is04_sender)]))
    by (intros; apply in_or_app; now left).
  destruct (keep_sender_cases _ _ _ _ Hk) as [->|(source_id & is04_source & Hcorr & ->)].
  - split; [|exact Hsources]. intros s v Hin. destruct (Hsenders s v Hin) as [Hin' Hrest]. auto.
  - split; simpl.
    + intros s v Hin. apply dict_set_in in Hin as [Heq|Hin].
      * injection Heq as -> ->. split; [apply in_or_app; right; now left|].
        exists source_id, is04_source. split; [assumption|apply lookup_insert_eq].
      * destruct (Hsenders s v Hin) as [Hin' (src & srcv & Hc & Hl)]. split; [auto|].
        exists src, srcv. split; [assumption|].
        destruct (decide (source_id = src)) as [->|Hne]; [|now rewrite lookup_insert_ne].
        rewrite lookup_insert_eq. f_equal.
        destruct Hcorr as (_ & _ & _ & _ & _ & Hs1 & _).
        destruct (Hsources src srcv Hl) as [Hs2 _]. congruence.
    + intros src srcv Hl. destruct (decide (source_id = src)) as [->|Hne].
      * rewrite lookup_insert_eq in Hl. injection Hl as <-.
        destruct Hcorr as (_ & _ & _ & _ & _ & Hs1 & He). auto.
      * rewrite lookup_insert_ne in Hl by assumption. now apply Hsources.
Qed.

Lemma select_senders_ok is04_senders : forall done_senders selected result,
  select_senders is04_flows is04_sources selected is04_senders = Ok result ->
  selection_ok is04_flows is04_sources done_senders selected ->
  selection_ok is04_flows is04_sources (done_senders ++ is04_senders) result.
Proof.
  induction is04_senders as [|[sender is04_sender] rest IH]; intros done_senders selected result.
  - simpl. intros H Hok. injection H as <-. now rewrite app_nil_r.
  - simpl. destruct (keep_sender is04_flows is04_sources selected sender is04_sender)
      as [selected'|] eqn:Hk; simpl; [|discriminate].
    intros H Hok. pose proof (keep_sender_ok done_senders _ _ _ _ Hk Hok) as Hok'.
    specialize (IH _ _ _ H Hok'). now rewrite <- app_assoc in IH.
Qed.

Lemma keep_sender_keys selected sender is04_sender selected' k :
  keep_sender is04_flows is04_sources selected sender is04_sender = Ok selected' ->
  In k (map fst (fst selected)) -> In k (map fst (fst selected')).
Proof.
  intros Hk Hin. destruct (keep_sender_cases _ _ _ _ Hk) as [->|(s & v & _ & ->)]; [assumption|].
  simpl. now apply dict_set_keeps.
Qed.

Lemma select_senders_keys is04_senders : forall selected result k,
  select_senders is04_flows is04_sources selected is04_senders = Ok result ->
  In k (map fst (fst selected)) -> In k (map fst (fst result)).
Proof.
  induction is04_senders as [|[sender is04_sender] rest IH]; intros selected result k; simpl.
  - intros H. now injection H as <-.
  - destruct (keep_sender is04_flows is04_sources selected sender is04_sender)
      as [selected'|] eqn:Hk; simpl; [|discriminate].
    intros H Hin. apply (IH _ _ _ H). now apply (keep_sender_keys _ _ _ _ _ Hk).
Qed.

Lemma keep_sender_selects selected sender is04_sender selected' source_id is04_source :
  keep_sender is04_flows is04_sources selected sender is04_sender = Ok selected' ->
  correlated is04_flows is04_sources is04_sender source_id is04_source ->
  In sender (map fst (fst selected')).
Proof.
  intros Hk (flow_id & is04_flow & Hflow & Hf & Hsource & Hs & He).
  unfold keep_sender in Hk. rewrite Hflow in Hk. simpl in Hk. rewrite Hf in Hk. simpl in Hk.
  rewrite ?bool_decide_eq_true_2 in Hk by eauto. simpl in Hk.
  rewrite Hsource in Hk. simpl in Hk. rewrite Hs in Hk.
  rewrite ?bool_decide_eq_true_2 in Hk by eauto. simpl in Hk. rewrite He in Hk. simpl in Hk.
  injection Hk as <-. simpl. apply dict_set_has.
Qed.

(** X18. What the first loop of [set_up_tests] selects: every sender in
    [senders_to_test] is a sender of the Node API whose flow and source are
    known, the source having an event type and being in [sources_to_test];
    every source in [sources_to_test] is such a source of the Node API; and
    no such sender is left out. *)
Theorem select_senders_correlates is04_senders senders_to_test sources_to_test :
  select_senders is04_flows is04_sources ([], ∅) is04_senders
    = Ok (senders_to_test, sources_to_test) ->
  (forall sender is04_sender, In (sender, is04_sender) senders_to_test ->
     In (sender, is04_sender) is04_senders /\
     exists source_id is04_source,
       correlated is04_flows is04_sources is04_sender source_id is04_source /\
       sources_to_test !! source_id = Some is04_source) /\
  (forall source_id is04_source, sources_to_test !! source_id = Some is04_source ->
     is04_sources !! source_id = Some is04_source /\
     Py.contains "event_type" is04_source = Ok true) /\
  (forall sender is04_sender source_id is04_source,
     In (sender, is04_sender) is04_senders ->
     correlated is04_flows is04_sources is04_sender source_id is04_source ->
     In sender (map fst senders_to_test)).
Proof.
  intros H.
  assert (H0 : selection_ok is04_flows is04_sources [] ([], ∅)).
  { split; simpl; [intros ? ? []|]. intros ? ? Hl. rewrite lookup_empty in Hl. discriminate. }
  destruct (select_senders_ok is04_senders [] _ _ H H0) as [Hsenders Hsources].
  split; [exact Hsenders|]. split; [exact Hsources|].
  intros sender is04_sender source_id is04_source Hin Hcorr. clear Hsenders Hsources H0.
  revert H. generalize (([], ∅) : list (string * json) * gmap string json).
  induction is04_senders as [|[s v] rest IH]; intros selected H; [destruct Hin|].
  simpl in H. destruct (keep_sender is04_flows is04_sources selected s v)
    as [selected'|] eqn:Hk; simpl in H; [|discriminate].
  destruct Hin as [Heq|Hin].
  - injection Heq as -> ->.
    apply (select_senders_keys rest selected' _ _ H).
    exact (keep_sender_selects _ _ _ _ _ _ Hk Hcorr).
  - exact (IH Hin selected' H).
Qed.

End SetUpFacts.

(** *** [test_01] *)

Lemma ext_params_ok active params :
  ext_params active = Ok params <->
  exists transport_params fields,
    Py.getitem active "transport_params" = Ok transport_params /\
    Py.first transport_params = Ok (JObj fields) /\
    params = List.filter (PyStr.startswith "ext_") (map_to_list fields).*1.
Proof.
  unfold ext_params. split.
  - destruct (Py.getitem active "transport_params") as [tp|]; simpl; [|discriminate].
    destruct (Py.first tp) as [leg|] eqn:Hleg; simpl; [|discriminate].
    destruct leg as [| | | | |fields]; simpl; try discriminate.
    intros H. injection H as <-. exists tp, fields. auto.
  - intros (tp & fields & -> & Hl & ->). simpl. rewrite Hl. reflexivity.
Qed.

Section MoreTest01Facts.

Variable senders_active : gmap string json.
Variable transport_types : gmap string string.

Lemma check_sender_passes test sender :
  check_sender senders_active transport_types test sender = Ok None <->
  exists active transport_params fields transport_type,
    senders_active !! sender = Some active /\
    Py.getitem active "transport_params" = Ok transport_params /\
    Py.first transport_params = Ok (JObj fields) /\
    transport_types !! sender = Some transport_type /\
    declared_ext_params transport_type = Some (ext_names fields).
Proof.
  unfold check_sender. split.
  - destruct (senders_active !! sender) as [active|]; [|discriminate].
    destruct (ext_params active) as [params|] eqn:He; simpl; [|discriminate].
    apply ext_params_ok in He as (tp & fields & Htp & Hl & ->).
    destruct (transport_types !! sender) as [tt|]; [|discriminate].
    destruct (valid_params tt _) eqn:Hv; simpl; [|discriminate].
    intros _. exists active, tp, fields, tt. repeat split; auto.
    now apply IS0702TestFacts.valid_params_iff.
  - intros (active & tp & fields & tt & -> & Htp & Hl & -> & Hd).
    assert (He : ext_params active
                 = Ok (List.filter (PyStr.startswith "ext_") (map_to_list fields).*1))
      by (apply ext_params_ok; eauto).
    rewrite He. simpl. apply IS0702TestFacts.valid_params_iff in Hd. now rewrite Hd.
Qed.

Lemma check_senders_passes test senders :
  check_senders senders_active transport_types test senders = Ok (Test.PASS test) <->
  forall sender, In sender senders ->
    check_sender senders_active transport_types test sender = Ok None.
Proof.
  induction senders as [|s senders IH]; simpl.
  - split; [intros _ ? []|reflexivity].
  - destruct (check_sender senders_active transport_types test s) as [[failure|]|e] eqn:Hc; simpl.
    + apply IS0702TestFacts.check_sender_failure in Hc as Hf. split.
      * intros H. injection H as ->. discriminate.
      * intros H. specialize (H s (or_introl eq_refl)). congruence.
    + rewrite IH. split.
      * intros H sender [<-|Hin]; [exact Hc|now apply H].
      * intros H sender Hin. apply H. now right.
    + split; [discriminate|]. intros H. specialize (H s (or_introl eq_refl)). congruence.
Qed.

(** X19. The verdicts of [test_01]: UNCLEAR exactly when there is no sender
    to test, and PASS exactly when there is one and every sender to test is
    active with a first leg of transport parameters whose [ext_] names are
    the set declared for its transport type. *)
Theorem test_01_verdicts test senders_to_test :
  (test_01 senders_active transport_types test senders_to_test
     = Ok (Test.UNCLEAR test "Not tested. No resources found.") <-> senders_to_test = []) /\
  (test_01 senders_active transport_types test senders_to_test = Ok (Test.PASS test) <->
   senders_to_test <> [] /\
   forall sender, In sender senders_to_test ->
     exists active transport_params fields transport_type,
       senders_active !! sender = Some active /\
       Py.getitem active "transport_params" = Ok transport_params /\
       Py.first transport_params = Ok (JObj fields) /\
       transport_types !! sender = Some transport_type /\
       declared_ext_params transport_type = Some (ext_names fields)).
Proof.
  unfold test_01. destruct senders_to_test as [|s rest].
  - simpl. split; [split; reflexivity|]. split; [discriminate|]. intros [H _]. contradiction.
  - change (0 <? length (s :: rest))%nat with true. cbv iota. split.
    + split; [|discriminate]. intros H.
      destruct (IS0702TestFacts.check_senders_result _ _ test (s :: rest) _ H) as [Hf|Hall];
        [discriminate|].
      assert (Hp : check_senders senders_active transport_types test (s :: rest)
                   = Ok (Test.PASS test)).
      { apply check_senders_passes. intros sender Hin. apply Hall. now apply list_elem_of_In. }
      rewrite Hp in H. discriminate.
    + rewrite check_senders_passes. split.
      * intros H. split; [discriminate|]. intros sender Hin.
        apply (proj1 (check_sender_passes test sender)), H, Hin.
      * intros [_ H] sender Hin.
        apply (proj2 (check_sender_passes test sender)), H, Hin.
Qed.

End MoreTest01Facts.

Lemma set_transport_types_rtp get_transporttype is05_senders sender transport_type :
  set_transport_types false get_transporttype is05_senders !! sender = Some transport_type ->
  transport_type = "urn:x-nmos:transport:rtp".
Proof.
  unfold set_transport_types.
  assert (H : forall l (m : gmap string string),
             (forall s t, m !! s = Some t -> t = "urn:x-nmos:transport:rtp") ->
             forall s t,
               fold_left (fun transport_types s' =>
                            let transport_type :=
                              if false then get_transporttype s'
                              else "urn:x-nmos:transport:rtp" in
                            <[s' := transport_type]> transport_types) l m !! s = Some t ->
               t = "urn:x-nmos:transport:rtp").
  { induction l as [|s' l IH]; intros m Hm s t; simpl; [apply Hm|].
    apply IH. intros s0 t0. destruct (decide (s' = s0)) as [->|Hne].
    - rewrite lookup_insert_eq. intros H. now injection H as <-.
    - rewrite lookup_insert_ne by assumption. apply Hm. }
  apply H. intros s t Hl. rewrite lookup_empty in Hl. discriminate.
Qed.

(** X20. [test_01] after [set_up_tests]: with [senders_active] and
    [transport_types] as the set-up leaves them, [test_01] raises no
    exception, whatever senders it is asked to test; and against a
    Connection API older than v1.1, where every transport is recorded as
    RTP, it fails as soon as there is a sender to test. *)
Theorem test_01_after_set_up at_least_v1_1 get_transporttype checkCleanRequestJSON
    is05_senders senders_active test senders_to_test :
  set_senders_active checkCleanRequestJSON ∅ is05_senders = Ok senders_active ->
  exists result,
    test_01 senders_active (set_transport_types at_least_v1_1 get_transporttype is05_senders)
      test senders_to_test = Ok result /\
    (at_least_v1_1 = false -> senders_to_test <> [] -> state result = Fail).
Proof.
  intros Hset.
  destruct (IS0702TestFacts.set_senders_active_legs _ _ _ _ Hset) as [Hlegs Hdom].
  { intros k v Hl. rewrite lookup_empty in Hl. discriminate. }
  set (transport_types := set_transport_types at_least_v1_1 get_transporttype is05_senders).
  assert (Hsender : forall sender,
             exists r, check_sender senders_active transport_types test sender = Ok r /\
                       (at_least_v1_1 = false -> exists failure, r = Some failure)).
  { intros sender. unfold check_sender.
    destruct (senders_active !! sender) as [active|] eqn:Ha; [|eauto].
    destruct (Hlegs sender active Ha) as (tp & fields & Htp & Hl).
    assert (He : ext_params active
                 = Ok (List.filter (PyStr.startswith "ext_") (map_to_list fields).*1))
      by (apply ext_params_ok; eauto).
    rewrite He. simpl.
    assert (Hin : sender ∈ is05_senders).
    { assert (Hd : sender ∈ dom senders_active) by (apply elem_of_dom; eauto).
      apply Hdom in Hd. rewrite dom_empty_L, (right_id_L ∅ (∪)) in Hd.
      now apply elem_of_list_to_set in Hd. }
    destruct (IS0702TestFacts.set_transport_types_dom at_least_v1_1 get_transporttype
                is05_senders sender Hin) as [tt Htt].
    fold transport_types in Htt. rewrite Htt.
    destruct (valid_params tt _) eqn:Hv; simpl.
    - eexists. split; [reflexivity|]. intros ->.
      apply set_transport_types_rtp in Htt. subst tt. discriminate.
    - eexists. split; [reflexivity|]. eauto. }
  unfold test_01. destruct senders_to_test as [|s rest].
  - simpl. eexists. split; [reflexivity|]. intros _ H. contradiction.
  - change (0 <? length (s :: rest))%nat with true. cbv iota.
    assert (Hall : exists result,
               check_senders senders_active transport_types test (s :: rest) = Ok result).
    { generalize (s :: rest). intros l. induction l as [|x l [result IH]]; simpl; [eauto|].
      destruct (Hsender x) as (r & -> & _). simpl. destruct r; eauto. }
    destruct Hall as [result Hres]. exists result. split; [exact Hres|].
    intros Hv _. simpl in Hres. destruct (Hsender s) as (r & Hr & Hf).
    destruct (Hf Hv) as [failure ->]. rewrite Hr in Hres. simpl in Hres. injection Hres as <-.
    now apply IS0702TestFacts.check_sender_failure in Hr.
Qed.

(** *** The properties on the example data *)

Ltac clock_fact := vm_compute; first [reflexivity | discriminate].

Lemma lifecycle_passes_witness :
  after_health_responses (MoreExamples.open_until 13) (MoreExamples.open_until 19) "test_04" 0
    ["ws://iut/events"] [0; 5; 10; 11; 16; 17; 18; 19]%Q
  = Returned (Test.PASS "test_04").
Proof.
  apply (proj2 (lifecycle_passes (MoreExamples.open_until 13) (MoreExamples.open_until 19)
                  "test_04" 0 ["ws://iut/events"] [0; 5; 10; 11; 16; 17; 18; 19]%Q)).
  exists [0; 5; 10]%Q, 11%Q, [16%Q], 17%Q, [18%Q], 19%Q, [].
  split; [reflexivity|].
  split; [repeat constructor; try clock_fact; intros uri _; reflexivity|].
  split; [clock_fact|].
  split; [repeat constructor; try clock_fact; intros uri _; reflexivity|].
  split; [clock_fact|].
  split; [intros uri _; reflexivity|].
  split; [|intros uri _; reflexivity].
  repeat constructor; try clock_fact.
  exists "ws://iut/events". split; [left|]; reflexivity.
Defined.

Lemma before_health_window_witness :
  stay_open_before_health (MoreExamples.open_until 13) (MoreExamples.open_until 19) "test_04" 0
    ["ws://iut/events"] [0; 1; 5; 6]%Q
  = Ended 5 [6%Q].
Proof.
  apply (proj1 (before_health_window (MoreExamples.open_until 13) (MoreExamples.open_until 19)
                  "test_04" 0 ["ws://iut/events"] [0; 1; 5; 6]%Q) 5%Q [6%Q]).
  exists [0; 1]%Q. split; [reflexivity|]. split; [|clock_fact].
  repeat constructor; try clock_fact.
Defined.

Lemma select_senders_correlates_witness :
  exists senders_to_test sources_to_test,
    select_senders MoreExamples.is04_flows MoreExamples.is04_sources ([], ∅)
      MoreExamples.is04_senders = Ok (senders_to_test, sources_to_test) /\
    In "s1" (map fst senders_to_test).
Proof.
  assert (H : exists senders_to_test sources_to_test,
             select_senders MoreExamples.is04_flows MoreExamples.is04_sources ([], ∅)
               MoreExamples.is04_senders = Ok (senders_to_test, sources_to_test))
    by (vm_compute; eauto).
  destruct H as (senders_to_test & sources_to_test & H).
  exists senders_to_test, sources_to_test. split; [exact H|].
  destruct (select_senders_correlates MoreExamples.is04_flows MoreExamples.is04_sources
              MoreExamples.is04_senders senders_to_test sources_to_test H) as (_ & _ & Hall).
  apply (Hall "s1" (JObj {[ "flow_id" := JStr "f1" ]}) "src1"
           (JObj {[ "event_type" := JStr "boolean" ]})).
  - left. reflexivity.
  - exists "f1", (JObj {[ "source_id" := JStr "src1" ]}).
    repeat split; vm_compute; reflexivity.
Defined.

Lemma test_01_verdicts_witness :
  test_01 Examples.senders_active Examples.transport_types "test_01" ["s1"]
    = Ok (Test.PASS "test_01") /\
  test_01 Examples.senders_active Examples.transport_types "test_01" []
    = Ok (Test.UNCLEAR "test_01" "Not tested. No resources found.").
Proof.
  destruct (test_01_verdicts Examples.senders_active Examples.transport_types "test_01" ["s1"])
    as [_ Hpass].
  destruct (test_01_verdicts Examples.senders_active Examples.transport_types "test_01" [])
    as [Hnone _].
  split; [|exact (proj2 Hnone eq_refl)].
  apply (proj2 Hpass). split; [discriminate|].
  intros sender [<-|[]].
  exists (Examples.active_with ["ext_is_07_rest_api_url"; "connection_uri"; "ext_is_07_source_id"]).
  eexists. eexists. exists "urn:x-nmos:transport:websocket".
  split; [vm_compute; reflexivity|]. split; [vm_compute; reflexivity|].
  split; [reflexivity|]. split; [vm_compute; reflexivity|].
  apply IS0702TestFacts.valid_params_iff. vm_compute. reflexivity.
Defined.

Lemma test_01_after_set_up_witness :
  exists senders_active result,
    set_senders_active MoreExamples.active_of ∅ ["s1"; "s2"] = Ok senders_active /\
    test_01 senders_active
      (set_transport_types false MoreExamples.websocket_transport ["s1"; "s2"])
      "test_01" ["s1"] = Ok result /\
    state result = Fail.
Proof.
  assert (H : exists senders_active,
             set_senders_active MoreExamples.active_of ∅ ["s1"; "s2"] = Ok senders_active)
    by (vm_compute; eauto).
  destruct H as [senders_active H].
  destruct (test_01_after_set_up false MoreExamples.websocket_transport MoreExamples.active_of
              ["s1"; "s2"] senders_active "test_01" ["s1"] H) as (result & Hr & Hf).
  exists senders_active, result. split; [exact H|]. split; [exact Hr|].
  apply Hf; [reflexivity|discriminate].
Defined.

End IS0702TestMoreFacts.
